(** * Hand evaluation of the Texas Hold'em showdown program (pokergame.py)

    A shallow embedding of [is_straight], [evaluate_5], [best_hand] and the
    winner selection of [main], then of [Deck], of the showdown of [main]
    and of the display functions, followed by the properties of the
    specification that concern them and by further properties of the
    program.

    Python integers are [Z].  A Python tuple is a list of values, a value
    being an integer, a list of integers or [None].  Exceptions are explicit:
    every function that can raise returns a [result]; a method that also
    changes the deck returns the deck it leaves.  A dictionary is the list
    of its items in insertion order. *)

From Stdlib Require Import String ZArith List Bool Lia Permutation Sorted.
From Stdlib Require Import Ascii DecimalString DecimalZ DecimalPos.
Import ListNotations.
Open Scope Z_scope.

(** ** Exceptions *)

Inductive exn : Set := IndexError | ValueError | TypeError.

Inductive result (A : Type) : Type :=
| Ok (a : A)
| Raise (e : exn).
Arguments Ok {A} a.
Arguments Raise {A} e.

Definition bind {A B : Type} (m : result A) (k : A -> result B) : result B :=
  match m with
  | Ok a => k a
  | Raise e => Raise e
  end.

Notation "x <- m ;; k" := (bind m (fun x => k))
  (at level 61, m at next level, right associativity).
Notation "' p <- m ;; k" := (bind m (fun x => match x with p => k end))
  (at level 61, p pattern, m at next level, right associativity).

(** [l[i]] for a non-negative index. *)
Definition index {A : Type} (l : list A) (i : nat) : result A :=
  match nth_error l i with
  | Some x => Ok x
  | None => Raise IndexError
  end.

(** [max(iterable)] over integers. *)
Definition py_max (l : list Z) : result Z :=
  match l with
  | [] => Raise ValueError
  | x :: l' => Ok (fold_left Z.max l' x)
  end.

(** ** Cards *)

Inductive Suit : Set := Spades | Hearts | Diamonds | Clubs.

Definition Suit_eq_dec (a b : Suit) : {a = b} + {a <> b}.
Proof. decide equality. Defined.

Definition SUITS : list Suit := [Spades; Hearts; Diamonds; Clubs].

Record Card : Set := mkCard { rank : Z; suit : Suit }.

(** ** Python values, tuples and their comparison *)

Inductive pyval : Set :=
| VInt (z : Z)
| VList (l : list Z)
| VNone.

(** A score is a tuple. *)
Definition HandScore : Set := list pyval.

Fixpoint list_eqb (a b : list Z) : bool :=
  match a, b with
  | [], [] => true
  | x :: a', y :: b' => (x =? y) && list_eqb a' b'
  | _, _ => false
  end.

(** [a == b]; values of different types are unequal. *)
Definition val_eqb (a b : pyval) : bool :=
  match a, b with
  | VInt x, VInt y => x =? y
  | VList x, VList y => list_eqb x y
  | VNone, VNone => true
  | _, _ => false
  end.

(** Rich comparison of two lists of integers: the first index at which they
    differ decides, otherwise the lengths do. *)
Fixpoint list_cmp (a b : list Z) : comparison :=
  match a, b with
  | [], [] => Eq
  | [], _ :: _ => Lt
  | _ :: _, [] => Gt
  | x :: a', y :: b' => if x =? y then list_cmp a' b' else x ?= y
  end.

(** Ordering of two values that are not [==]; integers and lists do not
    compare with each other, and [None] compares with nothing. *)
Definition val_cmp (a b : pyval) : result comparison :=
  match a, b with
  | VInt x, VInt y => Ok (x ?= y)
  | VList x, VList y => Ok (list_cmp x y)
  | _, _ => Raise TypeError
  end.

(** Rich comparison of two tuples. *)
Fixpoint tuple_cmp (a b : list pyval) : result comparison :=
  match a, b with
  | [], [] => Ok Eq
  | [], _ :: _ => Ok Lt
  | _ :: _, [] => Ok Gt
  | x :: a', y :: b' => if val_eqb x y then tuple_cmp a' b' else val_cmp x y
  end.

Definition is_Gt (c : comparison) : bool :=
  match c with Gt => true | _ => false end.

Definition is_Lt (c : comparison) : bool :=
  match c with Lt => true | _ => false end.

(** [a > b] *)
Definition tuple_gt (a b : list pyval) : result bool :=
  c <- tuple_cmp a b ;; Ok (is_Gt c).

(** [a >= b] *)
Definition tuple_ge (a b : list pyval) : result bool :=
  c <- tuple_cmp a b ;; Ok (negb (is_Lt c)).

(** [a == b] *)
Fixpoint tuple_eqb (a b : list pyval) : bool :=
  match a, b with
  | [], [] => true
  | x :: a', y :: b' => val_eqb x y && tuple_eqb a' b'
  | _, _ => false
  end.

(** ** [sorted]

    Insertion into an ordered list.  The values sorted by the program are
    integers and pairs of integers, for which two elements that compare
    equal are identical, so the result does not depend on the algorithm. *)

Section Sort.
Context {A : Type} (leb : A -> A -> bool).

Fixpoint insert (x : A) (l : list A) : list A :=
  match l with
  | [] => [x]
  | y :: l' => if leb x y then x :: l else y :: insert x l'
  end.

Definition sort (l : list A) : list A := fold_right insert [] l.

(** The order as a relation. *)
Definition lebP (a b : A) : Prop := leb a b = true.
End Sort.

(** [sorted(l)] and [sorted(l, reverse=True)] on integers. *)
Definition sorted (l : list Z) : list Z := sort Z.leb l.
Definition sorted_rev (l : list Z) : list Z := sort Z.geb l.

(** [(f1, r1) >= (f2, r2)] on pairs of integers. *)
Definition pair_geb (a b : Z * Z) : bool :=
  (fst b <? fst a) || ((fst a =? fst b) && (snd b <=? snd a)).

Definition sorted_pairs_rev (l : list (Z * Z)) : list (Z * Z) := sort pair_geb l.

(** ** [collections.Counter]

    A dictionary from rank to frequency, in order of first insertion. *)

Fixpoint counter_add (r : Z) (c : list (Z * Z)) : list (Z * Z) :=
  match c with
  | [] => [(r, 1)]
  | (k, f) :: c' => if k =? r then (k, f + 1) :: c' else (k, f) :: counter_add r c'
  end.

Definition Counter (ranks : list Z) : list (Z * Z) :=
  fold_left (fun c r => counter_add r c) ranks [].

(** [counts[r]]: a missing key counts 0. *)
Fixpoint counter_get (c : list (Z * Z)) (r : Z) : Z :=
  match c with
  | [] => 0
  | (k, f) :: c' => if k =? r then f else counter_get c' r
  end.

(** ** [is_straight] *)

(** [s[i:i+5]] *)
Definition window (s : list Z) (i : nat) : list Z := firstn 5 (skipn i s).

(** [window[-1] - window[0] == 4] *)
Definition window_ok (s : list Z) (i : nat) : bool :=
  last (window s i) 0 - hd 0 (window s i) =? 4.

Definition issubset (a s : list Z) : bool :=
  forallb (fun x => existsb (Z.eqb x) s) a.

Definition is_straight (ranks : list Z) : bool * option Z :=
  let s := sorted (nodup Z.eq_dec ranks) in
  if (length s <? 5)%nat then (false, None)
  else
    match find (window_ok s) (seq 0 (length s - 4)) with
    | Some i => (true, Some (last (window s i) 0))
    | None =>
        if issubset [14; 2; 3; 4; 5] s then (true, Some 5) else (false, None)
    end.

(** ** [evaluate_5] *)

Definition of_option (o : option Z) : pyval :=
  match o with
  | Some z => VInt z
  | None => VNone
  end.

Definition evaluate_5 (cards : list Card) : result HandScore :=
  let ranks := map rank cards in
  let suits := map suit cards in
  let counts := Counter ranks in
  let counts_by_freq := sorted_pairs_rev (map (fun rf => (snd rf, fst rf)) counts) in
  let freqs := sorted_rev (map snd counts) in
  let is_flush := (length (nodup Suit_eq_dec suits) =? 1)%nat in
  let '(straight, top_straight) := is_straight ranks in
  if is_flush && straight then Ok [VInt 9; of_option top_straight]
  else
    f0 <- index freqs 0 ;;
    if f0 =? 4 then
      c0 <- index counts_by_freq 0 ;;
      let four_rank := snd c0 in
      kicker <- py_max (filter (fun r => negb (r =? four_rank)) ranks) ;;
      Ok [VInt 8; VInt four_rank; VInt kicker]
    else
      full <- (if f0 =? 3 then f1 <- index freqs 1 ;; Ok (f1 =? 2) else Ok false) ;;
      if full then
        c0 <- index counts_by_freq 0 ;;
        c1 <- index counts_by_freq 1 ;;
        Ok [VInt 7; VInt (snd c0); VInt (snd c1)]
      else if is_flush then Ok [VInt 6; VList (sorted_rev ranks)]
      else if straight then Ok [VInt 5; of_option top_straight]
      else if f0 =? 3 then
        c0 <- index counts_by_freq 0 ;;
        let three_rank := snd c0 in
        let kickers := sorted_rev (filter (fun r => negb (r =? three_rank)) ranks) in
        Ok [VInt 4; VInt three_rank; VList kickers]
      else
        two <- (if f0 =? 2 then f1 <- index freqs 1 ;; Ok (f1 =? 2) else Ok false) ;;
        if two then
          let pair_ranks :=
            sorted_rev (map fst (filter (fun rf => snd rf =? 2) counts)) in
          kicker <- py_max (filter (fun r => counter_get counts r =? 1) ranks) ;;
          p0 <- index pair_ranks 0 ;;
          p1 <- index pair_ranks 1 ;;
          Ok [VInt 3; VInt p0; VInt p1; VInt kicker]
        else if f0 =? 2 then
          c0 <- index counts_by_freq 0 ;;
          let pair_rank := snd c0 in
          let kickers := sorted_rev (filter (fun r => negb (r =? pair_rank)) ranks) in
          Ok [VInt 2; VInt pair_rank; VList kickers]
        else Ok [VInt 1; VList (sorted_rev ranks)].

(** ** [best_hand] *)

(** [itertools.combinations(l, k)], in its order of generation. *)
Fixpoint combinations {A : Type} (l : list A) (k : nat) : list (list A) :=
  match k with
  | O => [[]]
  | S k' =>
      match l with
      | [] => []
      | x :: t => map (cons x) (combinations t k') ++ combinations t k
      end
  end.

(** The state of the loop: [(best, best_combo)], both [None] at the start. *)
Definition best_state : Type := option HandScore * option (list Card).

Definition best_step (st : best_state) (combo : list Card) : result best_state :=
  val <- evaluate_5 combo ;;
  match fst st with
  | None => Ok (Some val, Some combo)
  | Some best =>
      gt <- tuple_gt val best ;;
      if gt then Ok (Some val, Some combo) else Ok st
  end.

Fixpoint best_loop (combos : list (list Card)) (st : best_state) : result best_state :=
  match combos with
  | [] => Ok st
  | combo :: rest => st' <- best_step st combo ;; best_loop rest st'
  end.

Definition best_hand (seven_cards : list Card) : result best_state :=
  best_loop (combinations seven_cards 5) (None, None).

(** ** Winner selection of [main] *)

(** [max(iterable)] over scores: the first maximal item is kept. *)
Fixpoint max_loop (l : list HandScore) (m : HandScore) : result HandScore :=
  match l with
  | [] => Ok m
  | x :: l' => gt <- tuple_gt x m ;; max_loop l' (if gt then x else m)
  end.

Definition max_score (l : list HandScore) : result HandScore :=
  match l with
  | [] => Raise ValueError
  | x :: l' => max_loop l' x
  end.

(** [results] is the dictionary from player name to [(score, combo)], in
    insertion order. *)
Definition results_t : Type := list (string * (HandScore * list Card)).

Definition winners (results : results_t) : result (list string) :=
  best_score <- max_score (map (fun e => fst (snd e)) results) ;;
  Ok (map fst (filter (fun e => tuple_eqb (fst (snd e)) best_score) results)).

(** ** [Deck] *)

(** [range(a, b)] *)
Definition range (a b : Z) : list Z :=
  map (fun i => a + Z.of_nat i) (seq 0 (Z.to_nat (b - a))).

Definition RANKS : list Z := range 2 15.

(** [[Card(r, s) for r in RANKS for s in SUITS]] *)
Definition new_cards : list Card :=
  flat_map (fun r => map (fun s => mkCard r s) SUITS) RANKS.

(** [Deck.__init__]: [self.cards] after [random.shuffle], the outcome of
    the shuffle being given by [shuffle]. *)
Definition Deck (shuffle : list Card -> list Card) : list Card :=
  shuffle new_cards.

(** [self.cards.pop()]: the last card is removed and returned; the second
    component is [self.cards] afterwards. *)
Definition pop (cards : list Card) : result Card * list Card :=
  match rev cards with
  | [] => (Raise IndexError, cards)
  | c :: r => (Ok c, rev r)
  end.

(** [[self.cards.pop() for _ in range(n)]], [acc] being the list built so
    far. *)
Fixpoint deal_loop (k : nat) (acc cards : list Card) : result (list Card) * list Card :=
  match k with
  | O => (Ok acc, cards)
  | S k' =>
      match pop cards with
      | (Ok c, cards') => deal_loop k' (acc ++ [c]) cards'
      | (Raise e, cards') => (Raise e, cards')
      end
  end.

(** [Deck.deal]: the cards dealt, or the exception raised, and [self.cards]
    afterwards. *)
Definition deal (n : Z) (cards : list Card) : result (list Card) * list Card :=
  deal_loop (Z.to_nat n) [] cards.

(** [deck.deal(a) + deck.deal(b)] *)
Definition deal_twice (a b : Z) (cards : list Card) : result (list Card) * list Card :=
  match deal a cards with
  | (Ok h1, cards1) =>
      match deal b cards1 with
      | (Ok h2, cards2) => (Ok (h1 ++ h2), cards2)
      | (Raise e, cards2) => (Raise e, cards2)
      end
  | (Raise e, cards1) => (Raise e, cards1)
  end.

(** ** The showdown of [main]

    [main] from the line that clamps the number of players to the
    computation of the winners: the deal, the evaluation of every player
    and the selection of the winners.  The text it prints is not part of
    the model. *)

(** [str(z)] on an integer. *)
Definition str_int (z : Z) : string := NilZero.string_of_int (Z.to_int z).

(** The key of the player dealt at [idx]: the f-string "P" followed by
    [idx+1]. *)
Definition player_name (idx : Z) : string := ("P" ++ str_int (idx + 1))%string.

(** [d[k] = v] on a dictionary in insertion order. *)
Fixpoint dict_set {V : Type} (d : list (string * V)) (k : string) (v : V) :
    list (string * V) :=
  match d with
  | [] => [(k, v)]
  | (k', v') :: d' =>
      if String.eqb k' k then (k', v) :: d' else (k', v') :: dict_set d' k v
  end.

(** The dictionary comprehension that deals two cards to every player,
    [players] being the dictionary built so far. *)
Fixpoint deal_players (idxs : list Z) (players : list (string * list Card))
    (cards : list Card) : result (list (string * list Card)) * list Card :=
  match idxs with
  | [] => (Ok players, cards)
  | idx :: rest =>
      match deal 2 cards with
      | (Ok hole, cards') =>
          deal_players rest (dict_set players (player_name idx) hole) cards'
      | (Raise e, cards') => (Raise e, cards')
      end
  end.

(** [deck.deal(3) + deck.deal(1) + deck.deal(1)] *)
Definition deal_community (cards : list Card) : result (list Card) * list Card :=
  match deal 3 cards with
  | (Ok flop, cards1) =>
      match deal 1 cards1 with
      | (Ok turn, cards2) =>
          match deal 1 cards2 with
          | (Ok river, cards3) => (Ok ((flop ++ turn) ++ river), cards3)
          | (Raise e, cards3) => (Raise e, cards3)
          end
      | (Raise e, cards2) => (Raise e, cards2)
      end
  | (Raise e, cards1) => (Raise e, cards1)
  end.

(** The loop that fills [results] with the best hand of every player. *)
Fixpoint results_loop (items : list (string * list Card)) (community : list Card)
    (results : list (string * best_state)) : result (list (string * best_state)) :=
  match items with
  | [] => Ok results
  | (name, hole) :: rest =>
      let seven := hole ++ community in
      st <- best_hand seven ;;
      results_loop rest community (dict_set results name st)
  end.

(** Comparison and equality of the scores held by [results], each a tuple
    or [None]: [None] is ordered with nothing. *)
Definition score_opt_gt (a b : option HandScore) : result bool :=
  match a, b with
  | Some x, Some y => tuple_gt x y
  | _, _ => Raise TypeError
  end.

Definition score_opt_eqb (a b : option HandScore) : bool :=
  match a, b with
  | Some x, Some y => tuple_eqb x y
  | None, None => true
  | _, _ => false
  end.

Fixpoint max_opt_loop (l : list (option HandScore)) (m : option HandScore) :
    result (option HandScore) :=
  match l with
  | [] => Ok m
  | x :: l' => gt <- score_opt_gt x m ;; max_opt_loop l' (if gt then x else m)
  end.

Definition max_opt (l : list (option HandScore)) : result (option HandScore) :=
  match l with
  | [] => Raise ValueError
  | x :: l' => max_opt_loop l' x
  end.

(** [best_score] and [winners] of [main]. *)
Definition main_winners (results : list (string * best_state)) : result (list string) :=
  best_score <- max_opt (map (fun e => fst (snd e)) results) ;;
  Ok (map fst (filter (fun e => score_opt_eqb (fst (snd e)) best_score) results)).

(** The values of [players], [community], [results] and [winners] at the
    end of [main], [num_players] being the number read from the command
    line or the prompt. *)
Definition main (shuffle : list Card -> list Card) (num_players : Z) :
    result (list (string * list Card) * list Card
            * list (string * best_state) * list string) :=
  let num_players := Z.max 2 (Z.min 9 num_players) in
  let deck := Deck shuffle in
  match deal_players (range 0 num_players) [] deck with
  | (Raise e, _) => Raise e
  | (Ok players, deck1) =>
      match deal_community deck1 with
      | (Raise e, _) => Raise e
      | (Ok community, deck2) =>
          results <- results_loop players community [] ;;
          winners <- main_winners results ;;
          Ok (players, community, results, winners)
      end
  end.

(** ** Display

    A Python string is held as the string of the bytes of its UTF-8
    encoding.  A lookup in a dictionary returns [None] where Python raises
    KeyError. *)

Definition RANK_TO_STR : list (Z * string) :=
  [(14, "A"); (13, "K"); (12, "Q"); (11, "J"); (10, "T");
   (9, "9"); (8, "8"); (7, "7"); (6, "6"); (5, "5"); (4, "4"); (3, "3"); (2, "2")]%string.

Definition HAND_NAMES : list (Z * string) :=
  [(9, "Straight Flush"); (8, "Four of a Kind"); (7, "Full House"); (6, "Flush");
   (5, "Straight"); (4, "Three of a Kind"); (3, "Two Pair"); (2, "One Pair");
   (1, "High Card")]%string.

(** [d[k]] *)
Fixpoint dict_get {V : Type} (d : list (Z * V)) (k : Z) : option V :=
  match d with
  | [] => None
  | (k', v) :: d' => if k' =? k then Some v else dict_get d' k
  end.

(** The string of a suit, as listed in [SUITS]. *)
Definition suit_str (s : Suit) : string :=
  match s with
  | Spades => "♠"
  | Hearts => "♥"
  | Diamonds => "♦"
  | Clubs => "♣"
  end%string.

(** [Card.__repr__], which is also [str] of a card. *)
Definition Card_repr (c : Card) : option string :=
  match dict_get RANK_TO_STR (rank c) with
  | Some r => Some (r ++ suit_str (suit c))%string
  | None => None
  end.

(** [map(str, cards)], consumed to the end. *)
Fixpoint map_str (cards : list Card) : option (list string) :=
  match cards with
  | [] => Some []
  | c :: cards' =>
      match Card_repr c with
      | Some s =>
          match map_str cards' with
          | Some l => Some (s :: l)
          | None => None
          end
      | None => None
      end
  end.

Definition show_cards (cards : list Card) : option string :=
  match map_str cards with
  | Some l => Some (String.concat " " l)
  | None => None
  end.

(** The name looked up for a score by the loop that prints the best hands:
    [HAND_NAMES[score[0]]] for a tuple.  [None] stands for the exception
    raised when the score is [None] or the empty tuple, or when its first
    component is not a key of [HAND_NAMES]. *)
Definition hand_name (score : option HandScore) : option string :=
  match score with
  | Some (VInt cat :: _) => dict_get HAND_NAMES cat
  | _ => None
  end.

(** ** Cards of the examples *)

Definition card (r : Z) (s : Suit) : Card := mkCard r s.

(** ** Vocabulary of the properties *)

(** [a >= b] holds, without error. *)
Definition score_ge (a b : list pyval) : Prop := tuple_ge a b = Ok true.

(** Number of occurrences of [r] in [l], as a Python integer. *)
Definition count (r : Z) (l : list Z) : Z := Z.of_nat (count_occ Z.eq_dec l r).

Definition sum (l : list Z) : Z := fold_right Z.add 0 l.

Definition swap (rf : Z * Z) : Z * Z := (snd rf, fst rf).

(** [counts_by_freq] of [evaluate_5]. *)
Definition by_freq (ranks : list Z) : list (Z * Z) :=
  sorted_pairs_rev (map (fun rf => (snd rf, fst rf)) (Counter ranks)).

Inductive score_shape : HandScore -> Prop :=
| shape_straight_flush (top : Z) : score_shape [VInt 9; VInt top]
| shape_four_of_a_kind (quad kicker : Z) :
    score_shape [VInt 8; VInt quad; VInt kicker]
| shape_full_house (triple pair : Z) : score_shape [VInt 7; VInt triple; VInt pair]
| shape_flush (ranks : list Z) :
    length ranks = 5%nat -> score_shape [VInt 6; VList ranks]
| shape_straight (top : Z) : score_shape [VInt 5; VInt top]
| shape_three_of_a_kind (triple : Z) (kickers : list Z) :
    length kickers = 2%nat -> score_shape [VInt 4; VInt triple; VList kickers]
| shape_two_pair (high low kicker : Z) :
    score_shape [VInt 3; VInt high; VInt low; VInt kicker]
| shape_one_pair (pair : Z) (kickers : list Z) :
    length kickers = 3%nat -> score_shape [VInt 2; VInt pair; VList kickers]
| shape_high_card (ranks : list Z) :
    length ranks = 5%nat -> score_shape [VInt 1; VList ranks].

(** The category of a score: the first component of the tuple. *)
Definition category (s : HandScore) : option Z :=
  match s with
  | VInt cat :: _ => Some cat
  | _ => None
  end.

(** The kind of a component of a score: an integer, or a list of a given
    length. *)
Inductive kind : Set := KInt | KList (n : nat) | KNone.

Definition kind_of (v : pyval) : kind :=
  match v with
  | VInt _ => KInt
  | VList l => KList (length l)
  | VNone => KNone
  end.

(** [subseq c l]: [c] is obtained from [l] by deleting elements. *)
Inductive subseq {A : Type} : list A -> list A -> Prop :=
| subseq_nil : subseq [] []
| subseq_skip (x : A) (c l : list A) : subseq c l -> subseq c (x :: l)
| subseq_keep (x : A) (c l : list A) : subseq c l -> subseq (x :: c) (x :: l).

(** Invariant of the loop after the combinations [seen]. *)
Definition best_inv (seen : list (list Card)) (st : best_state) : Prop :=
  match st with
  | (None, None) => seen = []
  | (Some best, Some combo) =>
      In combo seen /\ evaluate_5 combo = Ok best /\ score_shape best /\
      forall c, In c seen -> exists v, evaluate_5 c = Ok v /\ score_ge best v
  | _ => False
  end.

(** [s] is the score of some player and no player has a greater one. *)
Definition is_max_score (results : results_t) (s : HandScore) : Prop :=
  forall q s' combo', In (q, (s', combo')) results -> score_ge s s'.

Definition royal_hand : list Card :=
  [card 10 Hearts; card 11 Hearts; card 12 Hearts; card 13 Hearts; card 14 Hearts].

Definition pair_hand : list Card :=
  [card 9 Spades; card 9 Hearts; card 4 Clubs; card 13 Diamonds; card 2 Clubs].

(** Hole cards A-spades, A-hearts; community A-diamonds, K-clubs, K-hearts,
    2-spades, 3-diamonds. *)
Definition aces_full_pool : list Card :=
  [card 14 Spades; card 14 Hearts;
   card 14 Diamonds; card 13 Clubs; card 13 Hearts; card 2 Spades; card 3 Diamonds].

Definition flush_hand : list Card :=
  [card 14 Clubs; card 13 Clubs; card 12 Clubs; card 11 Clubs; card 9 Clubs].

(** The first player holds a pair; the other two share the flush of the
    board. *)
Definition tied_results : results_t :=
  [("P1"%string, ([VInt 2; VInt 9; VList [13; 4; 2]], pair_hand));
   ("P2"%string, ([VInt 6; VList [14; 13; 12; 11; 9]], flush_hand));
   ("P3"%string, ([VInt 6; VList [14; 13; 12; 11; 9]], flush_hand))].

Ltac shape_done :=
  eexists; split; [reflexivity | constructor; try assumption].

Ltac distinct_cards :=
  repeat constructor; unfold card; simpl; intuition discriminate.

(** ** Vocabulary of the straight detection *)

(** The five consecutive ranks [t - 4 .. t] all occur in [ranks]. *)
Definition run_at (ranks : list Z) (t : Z) : Prop :=
  forall k, 0 <= k <= 4 -> In (t - k) ranks.

(** Ace, two, three, four and five all occur in [ranks]. *)
Definition wheel (ranks : list Z) : Prop :=
  In 14 ranks /\ In 2 ranks /\ In 3 ranks /\ In 4 ranks /\ In 5 ranks.

(** ** Vocabulary of the hand categories *)

(** Some rank occurs exactly [n] times. *)
Definition has_count (n : Z) (ranks : list Z) : Prop :=
  exists r, count r ranks = n.

(** Two different ranks occur exactly twice each. *)
Definition two_pairs (ranks : list Z) : Prop :=
  exists r p, r <> p /\ count r ranks = 2 /\ count p ranks = 2.

(** All the cards have the same suit. *)
Definition same_suit (cards : list Card) : Prop :=
  forall c c', In c cards -> In c' cards -> suit c = suit c'.

(** Five consecutive ranks, or the wheel, occur in [ranks]. *)
Definition straight (ranks : list Z) : Prop :=
  (exists t, run_at ranks t) \/ wheel ranks.

(** Five ranks form the straight of top [t]; the wheel has top 5. *)
Definition straight_top (ranks : list Z) (t : Z) : Prop :=
  Permutation ranks [t; t - 1; t - 2; t - 3; t - 4] \/
  (t = 5 /\ Permutation ranks [14; 5; 4; 3; 2]).

Definition descending (l : list Z) : Prop := StronglySorted (fun x y => x >= y) l.

(** The seven ways in which five ranks can repeat. *)
Inductive rank_profile (ranks : list Z) : Prop :=
| profile_five (a : Z) : Permutation ranks [a; a; a; a; a] -> rank_profile ranks
| profile_four (a b : Z) :
    a <> b -> Permutation ranks [a; a; a; a; b] -> rank_profile ranks
| profile_full (a b : Z) :
    a <> b -> Permutation ranks [a; a; a; b; b] -> rank_profile ranks
| profile_three (a b c : Z) :
    a <> b -> a <> c -> b > c ->
    Permutation ranks [a; a; a; b; c] -> rank_profile ranks
| profile_two_pair (a b c : Z) :
    a > b -> c <> a -> c <> b ->
    Permutation ranks [a; a; b; b; c] -> rank_profile ranks
| profile_pair (a b c d : Z) :
    a <> b -> a <> c -> a <> d -> b > c -> c > d ->
    Permutation ranks [a; a; b; c; d] -> rank_profile ranks
| profile_distinct (a b c d e : Z) :
    a > b -> b > c -> c > d -> d > e ->
    Permutation ranks [a; b; c; d; e] -> rank_profile ranks.

(** [is_flush] of [evaluate_5]. *)
Definition is_flush (cards : list Card) : bool :=
  (length (nodup Suit_eq_dec (map suit cards)) =? 1)%nat.

(** The score of five cards, profile by profile. *)
Inductive eval_case (cards : list Card) : Prop :=
| case_five (a : Z) :
    Permutation (map rank cards) [a; a; a; a; a] ->
    evaluate_5 cards
    = Ok [VInt (if is_flush cards then 6 else 1); VList [a; a; a; a; a]] ->
    eval_case cards
| case_four (a b : Z) :
    a <> b -> Permutation (map rank cards) [a; a; a; a; b] ->
    evaluate_5 cards = Ok [VInt 8; VInt a; VInt b] ->
    eval_case cards
| case_full (a b : Z) :
    a <> b -> Permutation (map rank cards) [a; a; a; b; b] ->
    evaluate_5 cards = Ok [VInt 7; VInt a; VInt b] ->
    eval_case cards
| case_three (a b c : Z) :
    a <> b -> a <> c -> b > c ->
    Permutation (map rank cards) [a; a; a; b; c] ->
    evaluate_5 cards
    = Ok (if is_flush cards then [VInt 6; VList (sorted_rev (map rank cards))]
          else [VInt 4; VInt a; VList [b; c]]) ->
    eval_case cards
| case_two_pair (a b c : Z) :
    a > b -> c <> a -> c <> b ->
    Permutation (map rank cards) [a; a; b; b; c] ->
    evaluate_5 cards
    = Ok (if is_flush cards then [VInt 6; VList (sorted_rev (map rank cards))]
          else [VInt 3; VInt a; VInt b; VInt c]) ->
    eval_case cards
| case_pair (a b c d : Z) :
    a <> b -> a <> c -> a <> d -> b > c -> c > d ->
    Permutation (map rank cards) [a; a; b; c; d] ->
    evaluate_5 cards
    = Ok (if is_flush cards then [VInt 6; VList (sorted_rev (map rank cards))]
          else [VInt 2; VInt a; VList [b; c; d]]) ->
    eval_case cards
| case_distinct (a b c d e : Z) :
    a > b -> b > c -> c > d -> d > e ->
    Permutation (map rank cards) [a; b; c; d; e] ->
    evaluate_5 cards
    = Ok (match is_straight (map rank cards) with
          | (true, top) => [VInt (if is_flush cards then 9 else 5); of_option top]
          | (false, _) =>
              [VInt (if is_flush cards then 6 else 1); VList [a; b; c; d; e]]
          end) ->
    eval_case cards.

(** What a score says of the five ranks it was computed from, [flush]
    telling whether the five cards share a suit. *)
Inductive score_reads (flush : bool) (ranks : list Z) : HandScore -> Prop :=
| reads_straight_flush (t : Z) :
    flush = true -> straight_top ranks t ->
    score_reads flush ranks [VInt 9; VInt t]
| reads_four (a b : Z) :
    a <> b -> Permutation ranks [a; a; a; a; b] ->
    score_reads flush ranks [VInt 8; VInt a; VInt b]
| reads_full (a b : Z) :
    a <> b -> Permutation ranks [a; a; a; b; b] ->
    score_reads flush ranks [VInt 7; VInt a; VInt b]
| reads_flush (l : list Z) :
    flush = true -> ~ straight ranks ->
    ~ has_count 4 ranks -> ~ (has_count 3 ranks /\ has_count 2 ranks) ->
    descending l -> Permutation l ranks ->
    score_reads flush ranks [VInt 6; VList l]
| reads_straight (t : Z) :
    flush = false -> straight_top ranks t ->
    score_reads flush ranks [VInt 5; VInt t]
| reads_three (a b c : Z) :
    flush = false -> a <> b -> a <> c -> b > c ->
    Permutation ranks [a; a; a; b; c] ->
    score_reads flush ranks [VInt 4; VInt a; VList [b; c]]
| reads_two_pair (a b c : Z) :
    flush = false -> a > b -> c <> a -> c <> b ->
    Permutation ranks [a; a; b; b; c] ->
    score_reads flush ranks [VInt 3; VInt a; VInt b; VInt c]
| reads_pair (a b c d : Z) :
    flush = false -> a <> b -> a <> c -> a <> d -> b > c -> c > d ->
    Permutation ranks [a; a; b; c; d] ->
    score_reads flush ranks [VInt 2; VInt a; VList [b; c; d]]
| reads_high_card (l : list Z) :
    flush = false -> ~ straight ranks ->
    ~ has_count 4 ranks -> ~ has_count 3 ranks -> ~ has_count 2 ranks ->
    descending l -> Permutation l ranks ->
    score_reads flush ranks [VInt 1; VList l].

(** Which repetitions occur among five ranks. *)
Definition rank_facts (ranks : list Z) (h4 h3 h2 tp nd : bool) : Prop :=
  (has_count 4 ranks <-> h4 = true) /\ (has_count 3 ranks <-> h3 = true) /\
  (has_count 2 ranks <-> h2 = true) /\ (two_pairs ranks <-> tp = true) /\
  (NoDup ranks <-> nd = true).

(** ** Vocabulary of the selection of the best hand *)

(** [a > b] holds, without error. *)
Definition score_gt (a b : list pyval) : Prop := tuple_gt a b = Ok true.

(** Invariant of the loop of [best_hand] that records where the kept
    combination stands among the combinations [seen]: every earlier one
    scores strictly less, no later one scores more. *)
Definition first_best_inv (seen : list (list Card)) (st : best_state) : Prop :=
  match st with
  | (None, None) => seen = []
  | (Some best, Some combo) =>
      evaluate_5 combo = Ok best /\ score_shape best /\
      exists pre post,
        seen = pre ++ combo :: post /\
        (forall c, In c pre -> exists v, evaluate_5 c = Ok v /\ score_gt best v) /\
        (forall c, In c post -> exists v, evaluate_5 c = Ok v /\ score_ge best v)
  | _ => False
  end.

(** ** Vocabulary of the deal and of the showdown *)

(** The position of a card in the unshuffled deck. *)
Definition card_code (c : Card) : Z :=
  4 * rank c + match suit c with Spades => 0 | Hearts => 1 | Diamonds => 2 | Clubs => 3 end.

(** [results] with the scores and combinations that are not [None]. *)
Definition present (results : list (string * best_state)) : results_t :=
  flat_map (fun e => match snd e with
                     | (Some s, Some c) => [(fst e, (s, c))]
                     | _ => []
                     end) results.

(** The hole cards dealt to the players [idxs] from the cards [rc], the
    first card of [rc] being dealt first. *)
Fixpoint holes (idxs : list Z) (rc : list Card) : list (string * list Card) :=
  match idxs with
  | [] => []
  | idx :: rest => (player_name idx, firstn 2 rc) :: holes rest (skipn 2 rc)
  end.

(** ** Tactics of the further properties *)

Ltac perm_count :=
  apply (Permutation_count_occ Z.eq_dec); intros ?; cbn [count_occ];
  repeat match goal with
         | |- context [Z.eq_dec ?x ?y] => destruct (Z.eq_dec x y)
         end; try reflexivity; try lia; congruence.

Ltac decide_ifs :=
  repeat match goal with
         | |- context [if ?c then _ else _] =>
             first [ replace c with true by (symmetry; lia)
                   | replace c with false by (symmetry; lia) ];
             cbv iota
         end.

Ltac count_in H :=
  unfold count in H; simpl in H;
  repeat match type of H with
         | context [Z.eq_dec ?x ?y] => destruct (Z.eq_dec x y)
         end; simpl in H; try lia; try congruence.

Ltac count_goal :=
  unfold count; simpl;
  repeat match goal with
         | |- context [Z.eq_dec ?x ?y] => destruct (Z.eq_dec x y)
         end; simpl; try lia; try congruence.

Ltac eval5 :=
  repeat (cbn [bind index nth_error map fst snd filter negb sorted_rev
                 sorted_pairs_rev sort insert fold_right fold_left Counter
                 counter_add counter_get py_max of_option];
          unfold pair_geb; cbn [fst snd];
          decide_ifs).

Ltac start5 E :=
  unfold evaluate_5, is_flush; rewrite !E;
  match goal with
  | |- context [(length (nodup Suit_eq_dec ?s) =? 1)%nat] =>
      generalize (length (nodup Suit_eq_dec s) =? 1)%nat; intros fl
  end.

Ltac facts_start HP :=
  unfold rank_facts;
  repeat match goal with
         | |- _ /\ _ => split
         | |- (~ ?P) -> _ => fail 1
         | |- ?P <-> false = true =>
             assert (~ P); [| split; [intros; exfalso; auto | discriminate]]
         | |- ?P <-> true = true =>
             assert P; [| split; [reflexivity | intros _; assumption]]
         end.

Ltac norm_facts :=
  repeat match goal with
         | H : ?P <-> false = true |- _ =>
             assert (~ P) by (intros X; apply H in X; discriminate); clear H
         | H : ?P <-> true = true |- _ =>
             assert P by (apply H; reflexivity); clear H
         | H : false = true <-> ?P |- _ =>
             assert (~ P) by (intros X; apply H in X; discriminate); clear H
         | H : true = true <-> ?P |- _ =>
             assert P by (apply H; reflexivity); clear H
         end.

Ltac category_iffs :=
  norm_facts; repeat split; intros;
  repeat match goal with
         | H : _ /\ _ |- _ => destruct H
         end;
  try discriminate; try lia; try tauto; try congruence.

(** * Properties *)

(** ** Sorting *)

Section SortFacts.
Context {A : Type} (leb : A -> A -> bool).
Hypothesis leb_total : forall a b, leb a b = false -> leb b a = true.
Hypothesis leb_trans :
  forall a b c, leb a b = true -> leb b c = true -> leb a c = true.
Hypothesis leb_antisym : forall a b, leb a b = true -> leb b a = true -> a = b.

Lemma insert_perm (x : A) (l : list A) : Permutation (insert leb x l) (x :: l).
Proof.
  induction l as [| y l IH]; simpl.
  - reflexivity.
  - destruct (leb x y).
    + reflexivity.
    + rewrite IH. apply perm_swap.
Qed.

Lemma sort_perm (l : list A) : Permutation (sort leb l) l.
Proof.
  induction l as [| x l IH]; simpl.
  - reflexivity.
  - rewrite insert_perm. now constructor.
Qed.

Lemma sort_length (l : list A) : length (sort leb l) = length l.
Proof. apply Permutation_length, sort_perm. Qed.

Lemma insert_sorted (x : A) (l : list A) :
  StronglySorted (lebP leb) l -> StronglySorted (lebP leb) (insert leb x l).
Proof.
  induction 1 as [| y l Hs IH Hy]; simpl.
  - repeat constructor.
  - destruct (leb x y) eqn:E.
    + constructor; [now constructor |].
      constructor; [exact E |].
      eapply Forall_impl; [| exact Hy].
      intros z Hz. unfold lebP in *. eauto.
    + constructor; [exact IH |].
      eapply Permutation_Forall; [symmetry; apply insert_perm |].
      constructor; [apply leb_total, E | exact Hy].
Qed.

Lemma sort_sorted (l : list A) : StronglySorted (lebP leb) (sort leb l).
Proof.
  induction l as [| x l IH]; simpl.
  - constructor.
  - now apply insert_sorted.
Qed.

Lemma sorted_perm_eq (l1 l2 : list A) :
  StronglySorted (lebP leb) l1 -> StronglySorted (lebP leb) l2 ->
  Permutation l1 l2 -> l1 = l2.
Proof.
  intros H1. revert l2.
  induction H1 as [| a l1 Hs1 IH Ha]; intros l2 H2 HP.
  - apply Permutation_nil in HP. now subst.
  - destruct H2 as [| b l2 Hs2 Hb].
    + symmetry in HP. now apply Permutation_nil in HP.
    + assert (a = b) as ->.
      { assert (In a (b :: l2)) as Hin1
          by (eapply Permutation_in; [exact HP | now left]).
        assert (In b (a :: l1)) as Hin2
          by (eapply Permutation_in; [symmetry; exact HP | now left]).
        destruct Hin1 as [-> | Hin1]; [reflexivity |].
        destruct Hin2 as [-> | Hin2]; [reflexivity |].
        rewrite Forall_forall in Ha, Hb.
        apply leb_antisym; [apply Ha, Hin2 | apply Hb, Hin1]. }
      f_equal. apply IH; [exact Hs2 |].
      eapply Permutation_cons_inv, HP.
Qed.

Lemma sort_perm_eq (l l' : list A) :
  Permutation l l' -> sort leb l = sort leb l'.
Proof.
  intros HP. apply sorted_perm_eq; try apply sort_sorted.
  rewrite !sort_perm. exact HP.
Qed.

End SortFacts.

Lemma Zleb_total a b : (a <=? b) = false -> (b <=? a) = true.
Proof. lia. Qed.
Lemma Zleb_trans a b c : (a <=? b) = true -> (b <=? c) = true -> (a <=? c) = true.
Proof. lia. Qed.
Lemma Zleb_antisym a b : (a <=? b) = true -> (b <=? a) = true -> a = b.
Proof. lia. Qed.

Lemma Zgeb_total a b : (a >=? b) = false -> (b >=? a) = true.
Proof. lia. Qed.
Lemma Zgeb_trans a b c : (a >=? b) = true -> (b >=? c) = true -> (a >=? c) = true.
Proof. lia. Qed.
Lemma Zgeb_antisym a b : (a >=? b) = true -> (b >=? a) = true -> a = b.
Proof. lia. Qed.

Lemma pair_geb_total a b : pair_geb a b = false -> pair_geb b a = true.
Proof. unfold pair_geb. destruct a, b; simpl. lia. Qed.
Lemma pair_geb_trans a b c :
  pair_geb a b = true -> pair_geb b c = true -> pair_geb a c = true.
Proof. unfold pair_geb. destruct a, b, c; simpl. lia. Qed.
Lemma pair_geb_antisym a b : pair_geb a b = true -> pair_geb b a = true -> a = b.
Proof.
  unfold pair_geb. destruct a, b; simpl. intros H1 H2.
  f_equal; lia.
Qed.

(** ** Comparison of values and tuples *)

Lemma list_eqb_eq (a b : list Z) : list_eqb a b = true <-> a = b.
Proof.
  revert b. induction a as [| x a IH]; intros [| y b]; simpl;
    try (split; [discriminate | discriminate]); try tauto.
  rewrite andb_true_iff, Z.eqb_eq, IH.
  split; [intros [-> ->]; reflexivity | intros H; inversion H; auto].
Qed.

Lemma val_eqb_eq (a b : pyval) : val_eqb a b = true <-> a = b.
Proof.
  destruct a, b; simpl; try (split; [discriminate | discriminate]);
    try tauto.
  - rewrite Z.eqb_eq. split; [intros -> | intros H; inversion H]; auto.
  - rewrite list_eqb_eq. split; [intros -> | intros H; inversion H]; auto.
Qed.

Lemma val_eqb_refl (a : pyval) : val_eqb a a = true.
Proof. now apply val_eqb_eq. Qed.

Lemma val_eqb_sym (a b : pyval) : val_eqb a b = val_eqb b a.
Proof.
  destruct (val_eqb a b) eqn:E1, (val_eqb b a) eqn:E2; try reflexivity.
  - apply val_eqb_eq in E1. subst. rewrite val_eqb_refl in E2. discriminate.
  - apply val_eqb_eq in E2. subst. rewrite val_eqb_refl in E1. discriminate.
Qed.

Lemma tuple_eqb_eq (a b : list pyval) : tuple_eqb a b = true <-> a = b.
Proof.
  revert b. induction a as [| x a IH]; intros [| y b]; simpl;
    try (split; [discriminate | discriminate]); try tauto.
  rewrite andb_true_iff, val_eqb_eq, IH.
  split; [intros [-> ->]; reflexivity | intros H; inversion H; auto].
Qed.

Lemma list_cmp_Eq (a b : list Z) : list_cmp a b = Eq <-> a = b.
Proof.
  revert b. induction a as [| x a IH]; intros [| y b]; simpl;
    try (split; [discriminate | discriminate]); try tauto.
  destruct (Z.eqb_spec x y) as [-> | Hne].
  - rewrite IH. split; [intros -> | intros H; inversion H]; auto.
  - split; [| intros H; inversion H; contradiction].
    intros H. apply Z.compare_eq in H. contradiction.
Qed.

Lemma list_cmp_flip (a b : list Z) : list_cmp b a = CompOpp (list_cmp a b).
Proof.
  revert b. induction a as [| x a IH]; intros [| y b]; simpl; try reflexivity.
  rewrite (Z.eqb_sym y x). destruct (x =? y); [apply IH | apply Z.compare_antisym].
Qed.

Lemma list_cmp_ge_trans (a b d : list Z) :
  list_cmp a b <> Lt -> list_cmp b d <> Lt -> list_cmp a d <> Lt.
Proof.
  revert b d. induction a as [| x a IH]; intros [| y b] [| z d]; simpl;
    try congruence.
  destruct (Z.eqb_spec x y) as [-> | Hxy]; destruct (Z.eqb_spec y z) as [-> | Hyz].
  - apply IH.
  - auto.
  - destruct (Z.eqb_spec x z); [contradiction | auto].
  - intros H1 H2. destruct (Z.eqb_spec x z) as [-> | Hxz].
    + exfalso. destruct (Z.compare_spec z y), (Z.compare_spec y z);
        try congruence; lia.
    + destruct (Z.compare_spec x y), (Z.compare_spec y z), (Z.compare_spec x z);
        try congruence; lia.
Qed.

(** Two values that are not [==] never compare as equal. *)
Lemma val_cmp_not_Eq (x y : pyval) (r : comparison) :
  val_eqb x y = false -> val_cmp x y = Ok r -> r <> Eq.
Proof.
  destruct x as [x | lx |], y as [y | ly |]; simpl; try discriminate;
    intros E H; inversion H; subst.
  - intros H1. apply Z.compare_eq in H1. subst. rewrite Z.eqb_refl in E. discriminate.
  - intros H1. apply list_cmp_Eq in H1. subst.
    assert (list_eqb ly ly = true) by now apply list_eqb_eq. congruence.
Qed.

Lemma val_cmp_flip (x y : pyval) (r : comparison) :
  val_cmp x y = Ok r -> val_cmp y x = Ok (CompOpp r).
Proof.
  destruct x, y; simpl; try discriminate; intros H; inversion H; subst; f_equal.
  - apply Z.compare_antisym.
  - apply list_cmp_flip.
Qed.

Lemma val_cmp_ge_trans (x y z : pyval) (r1 r2 : comparison) :
  val_cmp x y = Ok r1 -> val_cmp y z = Ok r2 -> r1 <> Lt -> r2 <> Lt ->
  exists r3, val_cmp x z = Ok r3 /\ r3 <> Lt.
Proof.
  destruct x as [x | lx |], y as [y | ly |], z as [z | lz |]; simpl;
    try discriminate; intros H1 H2;
    inversion H1; inversion H2; subst; intros G1 G2; eexists; split; eauto.
  - destruct (Z.compare_spec x y), (Z.compare_spec y z), (Z.compare_spec x z);
      try congruence; lia.
  - eapply list_cmp_ge_trans; eauto.
Qed.

Lemma tuple_cmp_refl (a : list pyval) : tuple_cmp a a = Ok Eq.
Proof.
  induction a as [| x a IH]; simpl; [reflexivity |].
  now rewrite val_eqb_refl.
Qed.

Lemma tuple_cmp_Eq (a b : list pyval) : tuple_cmp a b = Ok Eq <-> a = b.
Proof.
  split; [| intros ->; apply tuple_cmp_refl].
  revert b. induction a as [| x a IH]; intros [| y b]; simpl; try discriminate; auto.
  destruct (val_eqb x y) eqn:E.
  - apply val_eqb_eq in E. subst. intros H. f_equal. auto.
  - intros H. exfalso. eapply val_cmp_not_Eq; eauto.
Qed.

Lemma tuple_cmp_flip (a b : list pyval) (r : comparison) :
  tuple_cmp a b = Ok r -> tuple_cmp b a = Ok (CompOpp r).
Proof.
  revert b. induction a as [| x a IH]; intros [| y b]; simpl;
    try (intros H; inversion H; reflexivity).
  rewrite (val_eqb_sym y x). destruct (val_eqb x y); [apply IH | apply val_cmp_flip].
Qed.

Lemma score_ge_cmp (a b : list pyval) :
  score_ge a b <-> exists r, tuple_cmp a b = Ok r /\ r <> Lt.
Proof.
  unfold score_ge, tuple_ge. split.
  - intros H. destruct (tuple_cmp a b) as [r | e]; simpl in H; [| discriminate].
    exists r. split; [reflexivity |]. destruct r; simpl in H; congruence.
  - intros (r & -> & Hr). simpl. destruct r; simpl; congruence.
Qed.

Lemma score_ge_refl (a : list pyval) : score_ge a a.
Proof. apply score_ge_cmp. exists Eq. split; [apply tuple_cmp_refl | discriminate]. Qed.

Lemma score_ge_trans (a b d : list pyval) :
  score_ge a b -> score_ge b d -> score_ge a d.
Proof.
  rewrite !score_ge_cmp. revert b d.
  induction a as [| x a IH]; intros [| y b] [| z d]; simpl;
    intros (r1 & H1 & G1) (r2 & H2 & G2);
    try (inversion H1; inversion H2; subst; congruence);
    try (eexists; split; [reflexivity | discriminate]).
  destruct (val_eqb x y) eqn:Exy.
  - apply val_eqb_eq in Exy. subst y.
    destruct (val_eqb x z) eqn:Exz; [eapply IH; eauto | eauto].
  - destruct (val_eqb y z) eqn:Eyz.
    + apply val_eqb_eq in Eyz. subst z. rewrite Exy. eauto.
    + destruct (val_cmp_ge_trans _ _ _ _ _ H1 H2 G1 G2) as (r3 & H3 & G3).
      destruct (val_eqb x z) eqn:Exz; [| eauto].
      apply val_eqb_eq in Exz. subst z.
      apply val_cmp_flip in H1. rewrite H1 in H2. inversion H2; subst.
      exfalso. pose proof (val_cmp_not_Eq _ _ _ Eyz H1).
      destruct r1; simpl in *; congruence.
Qed.

(** [a > b] gives [a >= b]; when [a > b] is false, [b >= a]. *)
Lemma tuple_gt_true_ge (a b : list pyval) : tuple_gt a b = Ok true -> score_ge a b.
Proof.
  unfold tuple_gt. intros H. apply score_ge_cmp.
  destruct (tuple_cmp a b) as [r | e]; simpl in H; [| discriminate].
  exists r. split; [reflexivity |]. destruct r; simpl in H; congruence.
Qed.

Lemma tuple_gt_false_ge (a b : list pyval) : tuple_gt a b = Ok false -> score_ge b a.
Proof.
  unfold tuple_gt. intros H. apply score_ge_cmp.
  destruct (tuple_cmp a b) as [r | e] eqn:E; simpl in H; [| discriminate].
  apply tuple_cmp_flip in E. exists (CompOpp r). split; [exact E |].
  destruct r; simpl in *; congruence.
Qed.

Lemma score_ge_antisym (a b : list pyval) : score_ge a b -> score_ge b a -> a = b.
Proof.
  rewrite !score_ge_cmp. intros (r1 & H1 & G1) (r2 & H2 & G2).
  apply tuple_cmp_flip in H1. rewrite H1 in H2. inversion H2; subst.
  apply tuple_cmp_Eq. apply tuple_cmp_flip in H1.
  destruct r1; simpl in *; try congruence.
Qed.

(** ** [Counter] *)

Lemma count_cons (r x : Z) (l : list Z) :
  count r (x :: l) = count r l + (if x =? r then 1 else 0).
Proof.
  unfold count. simpl. destruct (Z.eq_dec x r) as [-> | Hne].
  - rewrite Z.eqb_refl. lia.
  - destruct (Z.eqb_spec x r); [contradiction | lia].
Qed.

Lemma count_pos_iff (r : Z) (l : list Z) : In r l <-> 1 <= count r l.
Proof.
  unfold count. rewrite (count_occ_In Z.eq_dec). lia.
Qed.

Lemma count_perm (r : Z) (l l' : list Z) :
  Permutation l l' -> count r l = count r l'.
Proof.
  intros HP. unfold count. f_equal.
  now apply (Permutation_count_occ Z.eq_dec).
Qed.

Lemma counter_get_add (r k : Z) (cs : list (Z * Z)) :
  counter_get (counter_add r cs) k = counter_get cs k + (if r =? k then 1 else 0).
Proof.
  induction cs as [| [k0 f] cs IH]; simpl.
  - destruct (r =? k); lia.
  - destruct (Z.eqb_spec k0 r) as [-> | Hne]; simpl.
    + destruct (r =? k); lia.
    + destruct (Z.eqb_spec k0 k) as [-> | Hne2]; [| exact IH].
      destruct (Z.eqb_spec r k); [congruence | lia].
Qed.

Lemma counter_add_keys_in (r k : Z) (cs : list (Z * Z)) :
  In k (map fst (counter_add r cs)) <-> k = r \/ In k (map fst cs).
Proof.
  induction cs as [| [k0 f] cs IH]; simpl.
  - intuition.
  - destruct (Z.eqb_spec k0 r) as [-> | Hne]; simpl; [intuition |].
    rewrite IH. intuition.
Qed.

Lemma counter_add_NoDup (r : Z) (cs : list (Z * Z)) :
  NoDup (map fst cs) -> NoDup (map fst (counter_add r cs)).
Proof.
  induction cs as [| [k0 f] cs IH]; simpl; intros H.
  - repeat constructor. intros [].
  - inversion H as [| ? ? Hnin Hnd]; subst.
    destruct (Z.eqb_spec k0 r) as [-> | Hne]; simpl.
    + now constructor.
    + constructor; [| auto].
      rewrite counter_add_keys_in. intuition.
Qed.

Lemma counter_add_sum (r : Z) (cs : list (Z * Z)) :
  sum (map snd (counter_add r cs)) = sum (map snd cs) + 1.
Proof.
  induction cs as [| [k0 f] cs IH]; simpl; [lia |].
  destruct (k0 =? r); simpl; lia.
Qed.

Section CounterFold.
Let step := fun (cs : list (Z * Z)) (r : Z) => counter_add r cs.

Lemma fold_counter_get (l : list Z) (cs : list (Z * Z)) (k : Z) :
  counter_get (fold_left step l cs) k = counter_get cs k + count k l.
Proof.
  revert cs. induction l as [| x l IH]; intros cs; simpl.
  - unfold count. simpl. lia.
  - rewrite IH. subst step; cbv beta. rewrite counter_get_add, count_cons. lia.
Qed.

Lemma fold_counter_keys (l : list Z) (cs : list (Z * Z)) (k : Z) :
  In k (map fst (fold_left step l cs)) <-> In k l \/ In k (map fst cs).
Proof.
  revert cs. induction l as [| x l IH]; intros cs; simpl.
  - intuition.
  - rewrite IH. subst step; cbv beta. rewrite counter_add_keys_in. intuition.
Qed.

Lemma fold_counter_NoDup (l : list Z) (cs : list (Z * Z)) :
  NoDup (map fst cs) -> NoDup (map fst (fold_left step l cs)).
Proof.
  revert cs. induction l as [| x l IH]; intros cs H; simpl; [exact H |].
  apply IH. now apply counter_add_NoDup.
Qed.

Lemma fold_counter_sum (l : list Z) (cs : list (Z * Z)) :
  sum (map snd (fold_left step l cs)) = sum (map snd cs) + Z.of_nat (length l).
Proof.
  revert cs. induction l as [| x l IH]; intros cs; simpl length; simpl fold_left.
  - simpl. lia.
  - rewrite IH. subst step; cbv beta. rewrite counter_add_sum. lia.
Qed.
End CounterFold.

Lemma Counter_get (l : list Z) (k : Z) : counter_get (Counter l) k = count k l.
Proof. unfold Counter. rewrite fold_counter_get. reflexivity. Qed.

Lemma Counter_keys (l : list Z) (k : Z) : In k (map fst (Counter l)) <-> In k l.
Proof. unfold Counter. rewrite fold_counter_keys. simpl. intuition. Qed.

Lemma Counter_NoDup_keys (l : list Z) : NoDup (map fst (Counter l)).
Proof. unfold Counter. apply fold_counter_NoDup. constructor. Qed.

Lemma Counter_sum (l : list Z) : sum (map snd (Counter l)) = Z.of_nat (length l).
Proof. unfold Counter. rewrite fold_counter_sum. reflexivity. Qed.

Lemma counter_get_In (cs : list (Z * Z)) (k f : Z) :
  NoDup (map fst cs) -> In (k, f) cs -> counter_get cs k = f.
Proof.
  induction cs as [| [k0 f0] cs IH]; simpl; intros Hnd Hin; [contradiction |].
  destruct Hin as [Heq | Hin].
  - inversion Heq; subst. now rewrite Z.eqb_refl.
  - inversion Hnd as [| ? ? Hnin Hnd']; subst.
    destruct (Z.eqb_spec k0 k) as [-> | Hne]; [| auto].
    exfalso. apply Hnin. change k with (fst (k, f)). now apply in_map.
Qed.

(** The entries of [Counter l] are exactly the ranks of [l] with their
    number of occurrences. *)
Lemma Counter_In (l : list Z) (k f : Z) :
  In (k, f) (Counter l) <-> In k l /\ f = count k l.
Proof.
  split.
  - intros Hin. split.
    + apply Counter_keys. change k with (fst (k, f)). now apply in_map.
    + rewrite <- Counter_get. symmetry.
      apply counter_get_In; [apply Counter_NoDup_keys | exact Hin].
  - intros [Hin ->]. apply Counter_keys in Hin.
    apply in_map_iff in Hin. destruct Hin as ([k' f'] & Hk & Hin).
    simpl in Hk. subst k'.
    rewrite <- Counter_get.
    rewrite (counter_get_In _ _ _ (Counter_NoDup_keys l) Hin). exact Hin.
Qed.

Lemma Counter_NoDup (l : list Z) : NoDup (Counter l).
Proof. eapply NoDup_map_inv. apply Counter_NoDup_keys. Qed.

Lemma Counter_perm (l l' : list Z) :
  Permutation l l' -> Permutation (Counter l) (Counter l').
Proof.
  intros HP. apply NoDup_Permutation; try apply Counter_NoDup.
  intros [k f]. rewrite !Counter_In, (count_perm k l l' HP).
  split; intros [H ->]; (split; [| reflexivity]).
  - eapply Permutation_in; eauto.
  - eapply Permutation_in; [symmetry |]; eauto.
Qed.

(** ** Invariance under reordering *)

Lemma sorted_perm (l l' : list Z) : Permutation l l' -> sorted l = sorted l'.
Proof. apply sort_perm_eq; [apply Zleb_total | apply Zleb_trans | apply Zleb_antisym]. Qed.

Lemma sorted_rev_perm (l l' : list Z) :
  Permutation l l' -> sorted_rev l = sorted_rev l'.
Proof. apply sort_perm_eq; [apply Zgeb_total | apply Zgeb_trans | apply Zgeb_antisym]. Qed.

Lemma sorted_pairs_rev_perm (l l' : list (Z * Z)) :
  Permutation l l' -> sorted_pairs_rev l = sorted_pairs_rev l'.
Proof.
  apply sort_perm_eq;
    [apply pair_geb_total | apply pair_geb_trans | apply pair_geb_antisym].
Qed.

Lemma nodup_perm {A : Type} (dec : forall x y : A, {x = y} + {x <> y})
  (l l' : list A) :
  Permutation l l' -> Permutation (nodup dec l) (nodup dec l').
Proof.
  intros HP. apply NoDup_Permutation; try apply NoDup_nodup.
  intros x. rewrite !nodup_In.
  split; apply Permutation_in; [| symmetry]; exact HP.
Qed.

Lemma filter_perm {A : Type} (f : A -> bool) (l l' : list A) :
  Permutation l l' -> Permutation (filter f l) (filter f l').
Proof.
  induction 1 as [| x l l' HP IH | x y l | l l' l'' HP1 IH1 HP2 IH2]; simpl.
  - constructor.
  - destruct (f x); [now constructor | exact IH].
  - destruct (f x), (f y); try reflexivity. apply perm_swap.
  - now transitivity (filter f l').
Qed.

Lemma fold_max_perm (l l' : list Z) :
  Permutation l l' -> forall x, fold_left Z.max l x = fold_left Z.max l' x.
Proof.
  induction 1 as [| y l l' HP IH | y z l | l l' l'' HP1 IH1 HP2 IH2];
    intros x; simpl.
  - reflexivity.
  - apply IH.
  - f_equal. lia.
  - now rewrite IH1.
Qed.

Lemma py_max_perm (l l' : list Z) : Permutation l l' -> py_max l = py_max l'.
Proof.
  induction 1 as [| y l l' HP IH | y z l | l l' l'' HP1 IH1 HP2 IH2]; simpl.
  - reflexivity.
  - f_equal. now apply fold_max_perm.
  - do 2 f_equal. lia.
  - congruence.
Qed.

Lemma is_straight_perm (l l' : list Z) :
  Permutation l l' -> is_straight l = is_straight l'.
Proof.
  intros HP. unfold is_straight.
  now rewrite (sorted_perm _ _ (nodup_perm Z.eq_dec _ _ HP)).
Qed.

(** [evaluate_5] depends on its cards only up to their order. *)
Lemma evaluate_5_perm (cards cards' : list Card) :
  Permutation cards cards' -> evaluate_5 cards = evaluate_5 cards'.
Proof.
  intros HP.
  assert (HR : Permutation (map rank cards) (map rank cards'))
    by now apply Permutation_map.
  assert (HS : Permutation (map suit cards) (map suit cards'))
    by now apply Permutation_map.
  pose proof (Counter_perm _ _ HR) as HC.
  unfold evaluate_5.
  rewrite (is_straight_perm _ _ HR).
  rewrite (Permutation_length (nodup_perm Suit_eq_dec _ _ HS)).
  rewrite (sorted_rev_perm _ _ (Permutation_map snd HC)).
  rewrite (sorted_pairs_rev_perm _ _
             (Permutation_map (fun rf => (snd rf, fst rf)) HC)).
  rewrite (sorted_rev_perm _ _ HR).
  rewrite (sorted_rev_perm _ _
             (Permutation_map fst (filter_perm (fun rf => snd rf =? 2) _ _ HC))).
  assert (HK : py_max (filter (fun r => counter_get (Counter (map rank cards)) r =? 1)
                         (map rank cards))
               = py_max (filter (fun r => counter_get (Counter (map rank cards')) r =? 1)
                           (map rank cards'))).
  { rewrite (filter_ext _ (fun r => count r (map rank cards') =? 1)).
    2: { intros r. now rewrite Counter_get, (count_perm r _ _ HR). }
    rewrite (filter_ext (fun r => counter_get (Counter (map rank cards')) r =? 1)
               (fun r => count r (map rank cards') =? 1)).
    2: { intros r. now rewrite Counter_get. }
    apply py_max_perm, filter_perm, HR. }
  rewrite HK.
  destruct (is_straight (map rank cards')) as [straight top_straight].
  destruct ((length (nodup Suit_eq_dec (map suit cards')) =? 1)%nat && straight);
    [reflexivity |].
  destruct (index (sorted_rev (map snd (Counter (map rank cards')))) 0)
    as [f0 | e]; simpl; [| reflexivity].
  destruct (index (sorted_pairs_rev
                     (map (fun rf => (snd rf, fst rf)) (Counter (map rank cards')))) 0)
    as [c0 | e]; simpl.
  - rewrite (py_max_perm _ _ (filter_perm (fun r => negb (r =? snd c0)) _ _ HR)).
    rewrite (sorted_rev_perm _ _ (filter_perm (fun r => negb (r =? snd c0)) _ _ HR)).
    reflexivity.
  - reflexivity.
Qed.

(** ** The frequency profile of a hand *)

Lemma by_freq_perm (ranks : list Z) :
  Permutation (by_freq ranks) (map swap (Counter ranks)).
Proof. apply sort_perm. Qed.

Lemma by_freq_In (ranks : list Z) (f r : Z) :
  In (f, r) (by_freq ranks) <-> In r ranks /\ f = count r ranks.
Proof.
  rewrite <- Counter_In. split; intros H.
  - apply (Permutation_in _ (by_freq_perm ranks)) in H.
    apply in_map_iff in H. destruct H as ([r' f'] & Heq & Hin).
    inversion Heq; subst. exact Hin.
  - apply (Permutation_in _ (Permutation_sym (by_freq_perm ranks))).
    apply in_map_iff. exists (r, f). auto.
Qed.

Lemma sum_perm (l l' : list Z) : Permutation l l' -> sum l = sum l'.
Proof.
  induction 1; simpl; lia.
Qed.

Lemma by_freq_sum (ranks : list Z) :
  sum (map fst (by_freq ranks)) = Z.of_nat (length ranks).
Proof.
  rewrite (sum_perm _ _ (Permutation_map fst (by_freq_perm ranks))).
  rewrite map_map. simpl. apply Counter_sum.
Qed.

Lemma by_freq_sorted (ranks : list Z) :
  StronglySorted (lebP pair_geb) (by_freq ranks).
Proof. apply sort_sorted; [apply pair_geb_total | apply pair_geb_trans]. Qed.

Lemma map_fst_sorted (l : list (Z * Z)) :
  StronglySorted (lebP pair_geb) l -> StronglySorted (lebP Z.geb) (map fst l).
Proof.
  induction 1 as [| a l Hs IH Ha]; simpl; constructor; [exact IH |].
  apply Forall_forall. intros f Hf. apply in_map_iff in Hf.
  destruct Hf as (b & <- & Hb).
  rewrite Forall_forall in Ha. specialize (Ha b Hb).
  unfold lebP, pair_geb in *. lia.
Qed.

(** [freqs] of [evaluate_5] is the list of first components of
    [counts_by_freq]. *)
Lemma freqs_by_freq (ranks : list Z) :
  sorted_rev (map snd (Counter ranks)) = map fst (by_freq ranks).
Proof.
  apply (sorted_perm_eq Z.geb Zgeb_antisym).
  - apply sort_sorted; [apply Zgeb_total | apply Zgeb_trans].
  - apply map_fst_sorted, by_freq_sorted.
  - unfold sorted_rev. rewrite sort_perm.
    rewrite (Permutation_map fst (by_freq_perm ranks)).
    rewrite map_map. reflexivity.
Qed.

Lemma filter_ne_length (k : Z) (l : list Z) :
  Z.of_nat (length (filter (fun r => negb (r =? k)) l))
  = Z.of_nat (length l) - count k l.
Proof.
  induction l as [| x l IH]; simpl length; simpl filter.
  - unfold count. simpl. lia.
  - rewrite count_cons. destruct (x =? k); simpl negb; cbv iota; simpl length; lia.
Qed.

Lemma py_max_ok (l : list Z) : l <> [] -> exists k, py_max l = Ok k.
Proof. destruct l; [congruence | simpl; eauto]. Qed.

Lemma filter_swap_length (g : Z -> bool) (cs : list (Z * Z)) :
  length (filter (fun rf => g (snd rf)) cs)
  = length (filter (fun fr => g (fst fr)) (map swap cs)).
Proof.
  induction cs as [| [r f] cs IH]; simpl; [reflexivity |].
  destruct (g f); simpl; congruence.
Qed.

(** The two results of [is_straight]. *)
Lemma is_straight_cases (ranks : list Z) :
  is_straight ranks = (false, None) \/ exists top, is_straight ranks = (true, Some top).
Proof.
  unfold is_straight.
  destruct (length (sorted (nodup Z.eq_dec ranks)) <? 5)%nat; [now left |].
  destruct (find _ _); [right; eauto |].
  destruct (issubset _ _); [right; eauto | now left].
Qed.

(** ** Shape of the scores of [evaluate_5] *)

Lemma by_freq_entries (ranks : list Z) :
  Forall (fun fr => In (snd fr) ranks /\ fst fr = count (snd fr) ranks /\ 1 <= fst fr)
    (by_freq ranks).
Proof.
  apply Forall_forall. intros [f r] Hin. apply by_freq_In in Hin.
  destruct Hin as [Hin ->]. simpl. repeat split; auto.
  now apply count_pos_iff.
Qed.

Lemma sorted_rev_length (l : list Z) : length (sorted_rev l) = length l.
Proof. apply sort_length. Qed.

Lemma evaluate_5_shape (cards : list Card) :
  length cards = 5%nat -> exists s, evaluate_5 cards = Ok s /\ score_shape s.
Proof.
  intros H5. unfold evaluate_5.
  set (ranks := map rank cards).
  assert (HL : length ranks = 5%nat) by (unfold ranks; now rewrite length_map).
  rewrite freqs_by_freq. fold (by_freq ranks).
  pose proof (by_freq_entries ranks) as HE.
  pose proof (by_freq_sum ranks) as HS. rewrite HL in HS.
  pose proof (by_freq_sorted ranks) as HSo.
  pose proof (by_freq_perm ranks) as HP.
  set (flush := (length (nodup Suit_eq_dec (map suit cards)) =? 1)%nat).
  destruct (by_freq ranks) as [| [f0 r0] rest]; [cbn [sum map fst fold_right] in HS; lia |].
  inversion HE as [| ? ? (Hr0 & Hf0 & Hp0) HE']; subst; simpl in Hr0, Hf0, Hp0.
  cbn [sum map fst fold_right] in HS.
  pose proof (filter_ne_length r0 ranks) as HK. rewrite HL, <- Hf0 in HK.
  assert (HSL : length (sorted_rev ranks) = 5%nat) by now rewrite sorted_rev_length.
  assert (Hrest : f0 < 5 -> exists f1 r1 rest', rest = (f1, r1) :: rest').
  { intros Hlt. destruct rest as [| [f1 r1] rest']; [cbn [sum map fst fold_right] in HS; lia | eauto]. }
  assert (Hkick : forall n, f0 = 5 - Z.of_nat n ->
            length (sorted_rev (filter (fun r => negb (r =? r0)) ranks)) = n).
  { intros n Hn. rewrite sorted_rev_length. lia. }
  assert (Hfour : f0 = 4 ->
            exists k, py_max (filter (fun r => negb (r =? r0)) ranks) = Ok k).
  { intros ->. apply py_max_ok. intros Hnil. rewrite Hnil in HK. simpl in HK. lia. }
  assert (Htwo : forall r1 rest', f0 = 2 -> rest = (2, r1) :: rest' ->
            (exists k, py_max (filter (fun r => counter_get (Counter ranks) r =? 1)
                                 ranks) = Ok k)
            /\ exists p0 p1 tl,
                sorted_rev (map fst (filter (fun rf => snd rf =? 2) (Counter ranks)))
                = p0 :: p1 :: tl).
  { intros r1 rest' -> ->. split.
    - apply py_max_ok.
      inversion HE' as [| ? ? _ HE'']; subst. cbn [sum map fst fold_right] in HS.
      destruct rest' as [| [f2 r2] rest'']; [cbn [sum map fst fold_right] in HS; lia |].
      inversion HE'' as [| ? ? (Hr2 & Hf2 & Hp2) HE3]; subst.
      simpl in Hr2, Hf2, Hp2. cbn [sum map fst fold_right] in HS.
      assert (0 <= sum (map fst rest'')).
      { clear - HE3. induction HE3 as [| a l (_ & _ & Ha) _ IH]; simpl; lia. }
      assert (Hin : In r2 (filter (fun r => counter_get (Counter ranks) r =? 1)
                             ranks)).
      { apply filter_In. split; [exact Hr2 |]. rewrite Counter_get.
        unfold sum in *. lia. }
      intros Hnil. rewrite Hnil in Hin. exact Hin.
    - remember (sorted_rev (map fst (filter (fun rf => snd rf =? 2) (Counter ranks))))
        as pr eqn:Epr.
      assert (Hlen : (2 <= length pr)%nat).
      { rewrite Epr, sorted_rev_length, length_map.
        rewrite (filter_swap_length (fun f => f =? 2)).
        rewrite <- (Permutation_length (filter_perm _ _ _ HP)). simpl. lia. }
      destruct pr as [| p0 [| p1 tl]]; simpl in Hlen; try lia.
      eauto. }
  destruct (is_straight_cases ranks) as [-> | [top ->]];
    cbn [index nth_error map fst snd bind];
    [rewrite andb_false_r | rewrite andb_true_r; destruct flush eqn:Efl;
       [eexists; split; [reflexivity | constructor] |]].
  - destruct (Z.eqb_spec f0 4) as [E4 | N4].
    + destruct (Hfour E4) as [k ->]. cbn [bind]. shape_done.
    + destruct (Z.eqb_spec f0 3) as [E3 | N3].
      * destruct Hrest as (f1 & r1 & rest' & ->); [lia |].
        cbn [index nth_error map fst snd bind].
        destruct (f1 =? 2); [shape_done |].
        destruct flush; shape_done. apply Hkick. lia.
      * cbn [bind]. destruct flush; [shape_done; exact HSL |].
        destruct (Z.eqb_spec f0 2) as [E2 | N2].
        -- destruct Hrest as (f1 & r1 & rest' & ->); [lia |].
           cbn [index nth_error map fst snd bind].
           destruct (Z.eqb_spec f1 2) as [-> | N12].
           ++ destruct (Htwo r1 rest' E2 eq_refl)
                as ((k & ->) & p0 & p1 & tl & ->).
              cbn [index nth_error bind]. shape_done.
           ++ shape_done. apply Hkick. lia.
        -- cbn [bind]. shape_done.
  - destruct (Z.eqb_spec f0 4) as [E4 | N4].
    + destruct (Hfour E4) as [k ->]. cbn [bind]. shape_done.
    + destruct (Z.eqb_spec f0 3) as [E3 | N3].
      * destruct Hrest as (f1 & r1 & rest' & ->); [lia |].
        cbn [index nth_error map fst snd bind of_option].
        destruct (f1 =? 2); shape_done.
      * cbn [bind of_option]. shape_done.
Qed.

Lemma score_shape_category (s : HandScore) :
  score_shape s -> exists cat, category s = Some cat /\ 1 <= cat <= 9.
Proof. destruct 1; simpl; eexists; (split; [reflexivity | lia]). Qed.

(** Scores of different categories are ordered by category, whatever follows. *)
Lemma tuple_cmp_category (c1 c2 : Z) (r1 r2 : list pyval) :
  c1 <> c2 -> tuple_cmp (VInt c1 :: r1) (VInt c2 :: r2) = Ok (c1 ?= c2).
Proof.
  intros Hne. simpl. destruct (Z.eqb_spec c1 c2); [contradiction | reflexivity].
Qed.

(** Two scores of the shapes above always compare without a type error. *)
Lemma score_shape_comparable (a b : HandScore) :
  score_shape a -> score_shape b -> exists r, tuple_cmp a b = Ok r.
Proof.
  destruct 1, 1; cbn [tuple_cmp val_eqb val_cmp Z.eqb Pos.eqb];
    repeat match goal with
      | |- context [if ?b then _ else _] => destruct b
      end; cbn [val_cmp]; eauto.
Qed.

Lemma score_shape_total (a b : HandScore) :
  score_shape a -> score_shape b -> score_ge a b \/ score_ge b a.
Proof.
  intros Ha Hb. destruct (score_shape_comparable a b Ha Hb) as [r Hr].
  destruct r.
  - left. apply score_ge_cmp. eexists; split; [exact Hr | discriminate].
  - right. apply tuple_cmp_flip in Hr. apply score_ge_cmp.
    eexists; split; [exact Hr | discriminate].
  - left. apply score_ge_cmp. eexists; split; [exact Hr | discriminate].
Qed.

Lemma score_shape_gt (a b : HandScore) :
  score_shape a -> score_shape b -> exists g, tuple_gt a b = Ok g.
Proof.
  intros Ha Hb. destruct (score_shape_comparable a b Ha Hb) as [r Hr].
  unfold tuple_gt. rewrite Hr. simpl. eauto.
Qed.

(** ** [combinations] *)

Lemma subseq_nil_l {A : Type} (l : list A) : subseq [] l.
Proof. induction l; constructor; auto. Qed.

Lemma subseq_incl {A : Type} (c l : list A) : subseq c l -> incl c l.
Proof.
  induction 1 as [| x c l _ IH | x c l _ IH]; intros y Hy.
  - exact Hy.
  - right. auto.
  - destruct Hy as [-> | Hy]; [now left | right; auto].
Qed.

Lemma subseq_NoDup {A : Type} (c l : list A) : subseq c l -> NoDup l -> NoDup c.
Proof.
  induction 1 as [| x c l _ IH | x c l Hs IH]; intros Hnd.
  - exact Hnd.
  - inversion Hnd; auto.
  - inversion Hnd as [| ? ? Hnin Hnd']; subst. constructor; [| auto].
    intros Hin. apply Hnin. eapply subseq_incl; eauto.
Qed.

Lemma combinations_In {A : Type} (l c : list A) (k : nat) :
  In c (combinations l k) -> subseq c l /\ length c = k.
Proof.
  revert c k. induction l as [| x l IH]; intros c [| k]; simpl.
  - intros [<- | []]. split; [constructor | reflexivity].
  - intros [].
  - intros [<- | []]. split; [apply subseq_nil_l | reflexivity].
  - rewrite in_app_iff, in_map_iff. intros [(c' & <- & Hc') | Hc].
    + apply IH in Hc'. destruct Hc' as [Hs Hl].
      split; [now constructor | simpl; now f_equal].
    + apply IH in Hc. destruct Hc as [Hs Hl]. split; [now constructor | exact Hl].
Qed.

Lemma subseq_combinations {A : Type} (l c : list A) :
  subseq c l -> In c (combinations l (length c)).
Proof.
  induction 1 as [| x c l _ IH | x c l _ IH]; simpl.
  - now left.
  - destruct c as [| y c]; simpl in *.
    + now left.
    + apply in_app_iff. now right.
  - apply in_app_iff. left. now apply in_map.
Qed.

Lemma combinations_short {A : Type} (l : list A) (k : nat) :
  (length l < k)%nat -> combinations l k = [].
Proof.
  revert k. induction l as [| x l IH]; intros [| k] Hk; simpl in *; try lia.
  - reflexivity.
  - rewrite !IH by lia. reflexivity.
Qed.

Lemma combinations_nonempty {A : Type} (l : list A) (k : nat) :
  (k <= length l)%nat -> combinations l k <> [].
Proof.
  intros Hk Hnil.
  assert (Hs : subseq (firstn k l) l).
  { clear. revert k. induction l as [| x l IH]; intros [| k]; simpl.
    - constructor.
    - constructor.
    - apply subseq_nil_l.
    - apply subseq_keep, IH. }
  apply subseq_combinations in Hs.
  rewrite length_firstn, Nat.min_l, Hnil in Hs by exact Hk. exact Hs.
Qed.

(** Every selection of [k] distinct elements of [l] is, up to order, one of
    the combinations. *)
Lemma combinations_cover {A : Type} (l c : list A) :
  NoDup c -> incl c l ->
  exists c', In c' (combinations l (length c)) /\ Permutation c c'.
Proof.
  revert c. induction l as [| x l IH]; intros c Hnd Hincl.
  - destruct c as [| y c]; [| destruct (Hincl y); now left].
    exists []. split; [now left | constructor].
  - destruct c as [| y c0] eqn:Ec.
    { exists []. split; [now left | constructor]. }
    rewrite <- Ec in *. clear y c0 Ec.
    assert (Hdec : In x c \/ incl c l).
    { clear - Hnd Hincl. induction c as [| y c IH]; [right; intros ? [] |].
      inversion Hnd as [| ? ? Hnin Hnd']; subst.
      destruct IH as [Hin | Hi]; auto.
      - intros z Hz. apply Hincl. now right.
      - left. now right.
      - destruct (Hincl y (or_introl eq_refl)) as [-> | Hy]; [left; now left |].
        right. intros z [-> | Hz]; auto. }
    destruct Hdec as [Hin | Hi].
    + apply in_split in Hin. destruct Hin as (c1 & c2 & ->).
      assert (HP : Permutation (c1 ++ x :: c2) (x :: c1 ++ c2))
        by (symmetry; apply Permutation_middle).
      assert (Hnd2 : NoDup (x :: c1 ++ c2)) by (eapply Permutation_NoDup; eauto).
      inversion Hnd2 as [| ? ? Hnin Hnd']; subst.
      destruct (IH (c1 ++ c2) Hnd') as (c' & Hc' & HPc).
      { intros z Hz. assert (Hz' : In z (c1 ++ x :: c2)).
        { apply in_app_iff in Hz. apply in_app_iff.
          destruct Hz; [now left | right; now right]. }
        destruct (Hincl z Hz') as [-> | ?]; [contradiction | assumption]. }
      exists (x :: c'). split.
      * rewrite (Permutation_length HP). simpl. apply in_app_iff. left.
        now apply in_map.
      * rewrite HP. now constructor.
    + destruct (IH c Hnd Hi) as (c' & Hc' & HPc).
      exists c'. split; [| exact HPc].
      destruct c as [| y c0]; [destruct l; exact Hc' |].
      simpl. apply in_app_iff. now right.
Qed.

(** ** The loop of [best_hand] *)

Lemma best_step_inv (seen : list (list Card)) (st : best_state) (combo : list Card) :
  length combo = 5%nat -> best_inv seen st ->
  exists st', best_step st combo = Ok st' /\ best_inv (seen ++ [combo]) st'.
Proof.
  intros H5 Hinv. unfold best_step.
  destruct (evaluate_5_shape combo H5) as (val & Hval & Hshape).
  rewrite Hval. cbn [bind].
  destruct st as [[best |] [bc |]]; simpl in Hinv; try contradiction; cbn [fst].
  - destruct Hinv as (Hin & Hev & Hsh & Hmax).
    destruct (score_shape_gt val best Hshape Hsh) as [g Hg]. rewrite Hg. cbn [bind].
    destruct g.
    + eexists. split; [reflexivity |]. simpl. repeat split; auto.
      * apply in_app_iff. right. now left.
      * intros c0 Hc0. apply in_app_iff in Hc0. destruct Hc0 as [Hc0 | [<- | []]].
        -- destruct (Hmax c0 Hc0) as (v & Hv & Hge). exists v. split; [exact Hv |].
           eapply score_ge_trans; [apply tuple_gt_true_ge, Hg | exact Hge].
        -- exists val. split; [exact Hval | apply score_ge_refl].
    + eexists. split; [reflexivity |]. simpl. repeat split; auto.
      * apply in_app_iff. now left.
      * intros c0 Hc0. apply in_app_iff in Hc0. destruct Hc0 as [Hc0 | [<- | []]].
        -- auto.
        -- exists val. split; [exact Hval | apply tuple_gt_false_ge, Hg].
  - subst seen. eexists. split; [reflexivity |]. simpl. repeat split; auto.
    intros c0 [<- | []]. exists val. split; [exact Hval | apply score_ge_refl].
Qed.

Lemma best_loop_inv (rest seen : list (list Card)) (st : best_state) :
  (forall c, In c rest -> length c = 5%nat) -> best_inv seen st ->
  exists st', best_loop rest st = Ok st' /\ best_inv (seen ++ rest) st'.
Proof.
  revert seen st. induction rest as [| combo rest IH]; intros seen st H5 Hinv; simpl.
  - exists st. rewrite app_nil_r. auto.
  - destruct (best_step_inv seen st combo) as (st1 & Hst1 & Hinv1); auto.
    { apply H5. now left. }
    rewrite Hst1. cbn [bind].
    destruct (IH (seen ++ [combo]) st1) as (st' & Hst' & Hinv'); auto.
    { intros c0 Hc0. apply H5. now right. }
    exists st'. split; [exact Hst' |]. now rewrite <- app_assoc in Hinv'.
Qed.

(** What [best_hand] returns on a pool of at least five cards. *)
Lemma best_hand_spec (pool : list Card) :
  (5 <= length pool)%nat ->
  exists best combo,
    best_hand pool = Ok (Some best, Some combo) /\
    In combo (combinations pool 5) /\
    evaluate_5 combo = Ok best /\ score_shape best /\
    forall c, In c (combinations pool 5) ->
              exists v, evaluate_5 c = Ok v /\ score_ge best v.
Proof.
  intros Hlen. unfold best_hand.
  destruct (best_loop_inv (combinations pool 5) [] (None, None))
    as (st & Hst & Hinv).
  { intros c0 Hc0. now apply combinations_In in Hc0. }
  { reflexivity. }
  simpl in Hinv.
  destruct st as [[best |] [combo |]]; simpl in Hinv; try contradiction.
  - exists best, combo. split; [exact Hst | exact Hinv].
  - exfalso. eapply combinations_nonempty; eauto.
Qed.

(** A score returned by [best_hand] has one of the shapes of [evaluate_5]. *)
Lemma best_hand_score_shape (pool : list Card) (s : HandScore)
  (o : option (list Card)) :
  best_hand pool = Ok (Some s, o) -> score_shape s.
Proof.
  intros Hb. destruct (Nat.le_gt_cases 5 (length pool)) as [Hge | Hlt].
  - destruct (best_hand_spec pool Hge) as (best & combo & Hb' & _ & _ & Hsh & _).
    rewrite Hb' in Hb. inversion Hb; subst. exact Hsh.
  - unfold best_hand in Hb. rewrite combinations_short in Hb by lia.
    simpl in Hb. discriminate.
Qed.

(** ** Winner selection *)

Lemma max_loop_spec (l : list HandScore) (m : HandScore) :
  score_shape m -> Forall score_shape l ->
  exists best, max_loop l m = Ok best /\ In best (m :: l) /\
               forall x, In x (m :: l) -> score_ge best x.
Proof.
  revert m. induction l as [| x l IH]; intros m Hm Hl; simpl.
  - exists m. split; [reflexivity |]. split; [now left |].
    intros x [<- | []]. apply score_ge_refl.
  - inversion Hl as [| ? ? Hx Hl']; subst.
    destruct (score_shape_gt x m Hx Hm) as [g Hg]. rewrite Hg. cbn [bind].
    destruct g.
    + destruct (IH x Hx Hl') as (best & Hb & Hin & Hmax).
      exists best. split; [exact Hb |]. split.
      * destruct Hin as [<- | Hin]; [right; now left | right; now right].
      * intros y [<- | [<- | Hy]].
        -- eapply score_ge_trans; [apply Hmax; now left |].
           apply tuple_gt_true_ge, Hg.
        -- apply Hmax. now left.
        -- apply Hmax. now right.
    + destruct (IH m Hm Hl') as (best & Hb & Hin & Hmax).
      exists best. split; [exact Hb |]. split.
      * destruct Hin as [<- | Hin]; [now left | right; now right].
      * intros y [<- | [<- | Hy]].
        -- apply Hmax. now left.
        -- eapply score_ge_trans; [apply Hmax; now left |].
           apply tuple_gt_false_ge, Hg.
        -- apply Hmax. now right.
Qed.

Lemma max_score_spec (l : list HandScore) :
  l <> [] -> Forall score_shape l ->
  exists best, max_score l = Ok best /\ In best l /\
               forall x, In x l -> score_ge best x.
Proof.
  destruct l as [| m l]; [congruence |]. intros _ Hl.
  inversion Hl; subst. now apply max_loop_spec.
Qed.

Lemma subseq_map_filter {A B : Type} (f : A -> B) (p : A -> bool) (l : list A) :
  subseq (map f (filter p l)) (map f l).
Proof.
  induction l as [| x l IH]; simpl; [constructor |].
  destruct (p x); simpl; now constructor.
Qed.

(** ** The scan of [is_straight] *)

Lemma last_nth_pred (l : list Z) (d : Z) : last l d = nth (pred (length l)) l d.
Proof.
  induction l as [| x [| y l] IH]; try reflexivity.
  change (last (x :: y :: l) d) with (last (y :: l) d). rewrite IH. reflexivity.
Qed.

Lemma window_length (s : list Z) (i : nat) :
  (i + 5 <= length s)%nat -> length (window s i) = 5%nat.
Proof.
  intros H. unfold window. rewrite length_firstn, length_skipn. lia.
Qed.

Lemma window_last (s : list Z) (i : nat) :
  (i + 5 <= length s)%nat -> last (window s i) 0 = nth (i + 4) s 0.
Proof.
  intros H. rewrite last_nth_pred, window_length by exact H.
  unfold window. rewrite nth_firstn. simpl Nat.ltb. cbv iota.
  now rewrite nth_skipn.
Qed.

Lemma sorted_nth_le (s : list Z) (i j : nat) :
  StronglySorted (lebP Z.leb) s -> (i <= j)%nat -> (j < length s)%nat ->
  nth i s 0 <= nth j s 0.
Proof.
  intros Hs. revert i j. induction Hs as [| x s Hs IH Hx]; intros i j Hij Hj.
  - simpl in Hj. lia.
  - destruct i as [| i], j as [| j]; simpl in *; try lia.
    + rewrite Forall_forall in Hx.
      assert (Hin : In (nth j s 0) s) by (apply nth_In; lia).
      specialize (Hx _ Hin). unfold lebP in Hx. lia.
    + apply IH; lia.
Qed.

Lemma find_seq_first (f : nat -> bool) (a n i0 : nat) :
  find f (seq a n) = Some i0 ->
  (a <= i0 < a + n)%nat /\ f i0 = true /\
  forall j, (a <= j < i0)%nat -> f j = false.
Proof.
  revert a. induction n as [| n IH]; intros a; simpl; [discriminate |].
  destruct (f a) eqn:Ea.
  - intros H. inversion H; subst. repeat split; auto; lia.
  - intros H. apply IH in H. destruct H as (Hr & Hf & Hmin).
    repeat split; auto; try lia.
    intros j Hj. destruct (Nat.eq_dec j a) as [-> | Hne]; [exact Ea |].
    apply Hmin. lia.
Qed.

(** When the sorted distinct ranks have a window of five consecutive values,
    [is_straight] returns the top of the first such window of the ascending
    scan, which is the lowest of the tops of all such windows. *)
Lemma is_straight_first_window (ranks : list Z) (i : nat) :
  let s := sorted (nodup Z.eq_dec ranks) in
  (i + 5 <= length s)%nat -> window_ok s i = true ->
  exists i0,
    (i0 <= i)%nat /\ window_ok s i0 = true /\
    (forall j, (j < i0)%nat -> window_ok s j = false) /\
    is_straight ranks = (true, Some (last (window s i0) 0)) /\
    last (window s i0) 0 <= last (window s i) 0.
Proof.
  intros s Hi Hok. unfold is_straight. fold s.
  destruct (Nat.ltb_spec (length s) 5) as [Hlt | Hge]; [lia |].
  destruct (find (window_ok s) (seq 0 (length s - 4))) as [i0 |] eqn:Ef.
  - apply find_seq_first in Ef. destruct Ef as (Hr & Hf & Hmin).
    assert (Hle : (i0 <= i)%nat).
    { destruct (Nat.le_gt_cases i0 i) as [H | H]; [exact H |].
      rewrite Hmin in Hok by lia. discriminate. }
    exists i0. repeat split; auto.
    + intros j Hj. apply Hmin. lia.
    + rewrite !window_last by lia.
      apply sorted_nth_le; try lia.
      apply sort_sorted; [apply Zleb_total | apply Zleb_trans].
  - exfalso. pose proof (find_none _ _ Ef i) as Hn.
    rewrite Hn in Hok; [discriminate |]. apply in_seq. lia.
Qed.

(** The wheel is looked for only when no window of five consecutive values
    exists. *)
Lemma is_straight_no_window (ranks : list Z) :
  let s := sorted (nodup Z.eq_dec ranks) in
  (5 <= length s)%nat ->
  (forall i, (i + 5 <= length s)%nat -> window_ok s i = false) ->
  is_straight ranks
  = if issubset [14; 2; 3; 4; 5] s then (true, Some 5) else (false, None).
Proof.
  intros s Hlen Hno. unfold is_straight. fold s.
  destruct (Nat.ltb_spec (length s) 5) as [Hlt | Hge]; [lia |].
  destruct (find (window_ok s) (seq 0 (length s - 4))) as [i0 |] eqn:Ef;
    [| reflexivity].
  apply find_seq_first in Ef. destruct Ef as (Hr & Hf & _).
  rewrite Hno in Hf by lia. discriminate.
Qed.

(** * The claims of the specification *)

(** ** Straight detection *)

(** C5. [is_straight] on the wheel ranks {14,2,3,4,5} is a straight with top
    5; on {10,11,12,13,14} it is a straight with top 14; on 2,2,3,4,5, which
    has only four distinct ranks, it is no straight. *)
Theorem is_straight_examples :
  is_straight [14; 2; 3; 4; 5] = (true, Some 5) /\
  is_straight [10; 11; 12; 13; 14] = (true, Some 14) /\
  is_straight [2; 2; 3; 4; 5] = (false, None).
Proof. repeat split; reflexivity. Qed.

(** C1. On the six distinct ranks 2..7 the sorted distinct ranks have two
    windows of five consecutive values, with tops 6 (index 0) and 7 (index 1).
    The ascending scan of [is_straight] returns at the first one: the result
    is the top 6, not the highest top 7. *)
Theorem is_straight_returns_first_window :
  let ranks := [2; 3; 4; 5; 6; 7] in
  let s := sorted (nodup Z.eq_dec ranks) in
  (5 < length s)%nat /\
  window_ok s 0 = true /\ last (window s 0) 0 = 6 /\
  window_ok s 1 = true /\ last (window s 1) 0 = 7 /\
  is_straight ranks = (true, Some 6).
Proof. cbv zeta. repeat split; vm_compute; reflexivity. Qed.

(** ** Inputs of the wrong size *)

(** C2, as stated, fails: a single card is other than five cards, and
    [evaluate_5] returns the score (6, [14]) for it; the empty pool has fewer
    than five cards, and [best_hand] returns (None, None) for it.  Neither
    call raises. *)
Lemma wrong_size_not_rejected :
  length [card 14 Spades] <> 5%nat /\
  evaluate_5 [card 14 Spades] = Ok [VInt 6; VList [14]] /\
  (length (@nil Card) < 5)%nat /\
  best_hand [] = Ok (None, None).
Proof. repeat split; try reflexivity; simpl; lia. Qed.

(** C2, amended.  Neither function checks the number of cards.  [best_hand]
    on fewer than five cards has no combination to look at and returns
    (None, None) without raising.  [evaluate_5] computes on whatever it is
    given: on one card it returns the score (6, [rank]); on no card at all
    [freqs[0]] raises IndexError. *)
Theorem no_card_count_check (pool : list Card) (c : Card) :
  (length pool < 5)%nat ->
  best_hand pool = Ok (None, None) /\
  evaluate_5 [c] = Ok [VInt 6; VList [rank c]] /\
  evaluate_5 [] = Raise IndexError.
Proof.
  intros Hlen. split; [| split].
  - unfold best_hand. now rewrite combinations_short.
  - destruct c as [r s]. unfold evaluate_5. simpl map.
    unfold is_straight. simpl nodup. cbn. reflexivity.
  - reflexivity.
Qed.

Lemma no_card_count_check_witness :
  best_hand [card 14 Spades; card 13 Hearts] = Ok (None, None) /\
  evaluate_5 [card 9 Clubs] = Ok [VInt 6; VList [rank (card 9 Clubs)]] /\
  evaluate_5 [] = Raise IndexError.
Proof.
  apply (no_card_count_check [card 14 Spades; card 13 Hearts] (card 9 Clubs)).
  simpl. lia.
Defined.

(** ** The five-card evaluator *)

(** C6. On five distinct cards [evaluate_5] returns a score whose category
    is one of 1..9, and every reordering of the same cards gives the same
    score. *)
Theorem evaluate_5_category_order_independent (cards : list Card) :
  length cards = 5%nat -> NoDup cards ->
  exists s cat,
    evaluate_5 cards = Ok s /\ category s = Some cat /\ 1 <= cat <= 9 /\
    forall cards', Permutation cards cards' -> evaluate_5 cards' = Ok s.
Proof.
  intros H5 _.
  destruct (evaluate_5_shape cards H5) as (s & Hs & Hshape).
  destruct (score_shape_category s Hshape) as (cat & Hcat & Hrange).
  exists s, cat. repeat split; try assumption; try lia.
  intros cards' HP. now rewrite <- (evaluate_5_perm _ _ HP).
Qed.

(** C10. The score of five cards has one of the nine shapes of
    [score_shape], which its category determines: two scores of the same
    category have the same length and the same kinds of components, and any
    two scores compare without a type error. *)
Theorem evaluate_5_fixed_shape (h1 h2 : list Card) :
  length h1 = 5%nat -> length h2 = 5%nat ->
  exists s1 s2,
    evaluate_5 h1 = Ok s1 /\ evaluate_5 h2 = Ok s2 /\
    score_shape s1 /\ score_shape s2 /\
    (category s1 = category s2 -> map kind_of s1 = map kind_of s2) /\
    (exists r, tuple_cmp s1 s2 = Ok r) /\
    (score_ge s1 s2 \/ score_ge s2 s1).
Proof.
  intros H1 H2.
  destruct (evaluate_5_shape h1 H1) as (s1 & E1 & Sh1).
  destruct (evaluate_5_shape h2 H2) as (s2 & E2 & Sh2).
  exists s1, s2. repeat split; try assumption.
  - destruct Sh1, Sh2; simpl; intros Hc; try discriminate; congruence.
  - now apply score_shape_comparable.
  - now apply score_shape_total.
Qed.

(** C8. Any two scores of five-card hands are comparable, in one direction
    at least, and the comparison follows the category: the score of the higher
    category is strictly greater, whatever the ranks.  So a Full House (7)
    beats a Flush (6), and any Straight Flush (9), the wheel straight flush
    (9, 5) included, beats any Four of a Kind (8). *)
Theorem category_order_respected (h1 h2 : list Card) :
  length h1 = 5%nat -> length h2 = 5%nat ->
  exists s1 s2,
    evaluate_5 h1 = Ok s1 /\ evaluate_5 h2 = Ok s2 /\
    (score_ge s1 s2 \/ score_ge s2 s1) /\
    (score_ge s1 s2 -> score_ge s2 s1 -> s1 = s2) /\
    (forall s3, score_ge s1 s2 -> score_ge s2 s3 -> score_ge s1 s3) /\
    (forall c1 c2, category s1 = Some c1 -> category s2 = Some c2 -> c2 < c1 ->
                   tuple_gt s1 s2 = Ok true) /\
    (category s1 = Some 7 -> category s2 = Some 6 -> tuple_gt s1 s2 = Ok true) /\
    (category s1 = Some 9 -> category s2 = Some 8 -> tuple_gt s1 s2 = Ok true) /\
    (category s2 = Some 8 -> tuple_gt [VInt 9; VInt 5] s2 = Ok true) /\
    evaluate_5 [card 14 Spades; card 2 Spades; card 3 Spades; card 4 Spades;
                card 5 Spades] = Ok [VInt 9; VInt 5].
Proof.
  intros H1 H2.
  destruct (evaluate_5_shape h1 H1) as (s1 & E1 & Sh1).
  destruct (evaluate_5_shape h2 H2) as (s2 & E2 & Sh2).
  assert (Hcat : forall a b c1 c2, category a = Some c1 -> category b = Some c2 ->
                                   c2 < c1 -> tuple_gt a b = Ok true).
  { intros [| [x | |] a] [| [y | |] b] c1 c2 Ha Hb Hlt; simpl in Ha, Hb;
      try discriminate.
    inversion Ha; inversion Hb; subst.
    unfold tuple_gt. rewrite tuple_cmp_category by lia.
    cbn [bind]. now rewrite (proj2 (Z.compare_gt_iff c1 c2)) by lia. }
  exists s1, s2. repeat split; try assumption.
  - now apply score_shape_total.
  - apply score_ge_antisym.
  - intros s3. apply score_ge_trans.
  - apply Hcat.
  - intros Ha Hb. apply (Hcat _ _ 7 6 Ha Hb). lia.
  - intros Ha Hb. apply (Hcat _ _ 9 8 Ha Hb). lia.
  - intros Hb. apply (Hcat [VInt 9; VInt 5] s2 9 8 eq_refl Hb). lia.
Qed.

Lemma evaluate_5_category_order_independent_witness :
  exists s cat,
    evaluate_5 pair_hand = Ok s /\ category s = Some cat /\ 1 <= cat <= 9 /\
    forall cards', Permutation pair_hand cards' -> evaluate_5 cards' = Ok s.
Proof.
  apply (evaluate_5_category_order_independent pair_hand).
  - reflexivity.
  - unfold pair_hand. distinct_cards.
Defined.

Lemma evaluate_5_fixed_shape_witness :
  exists s1 s2,
    evaluate_5 royal_hand = Ok s1 /\ evaluate_5 pair_hand = Ok s2 /\
    score_shape s1 /\ score_shape s2 /\
    (category s1 = category s2 -> map kind_of s1 = map kind_of s2) /\
    (exists r, tuple_cmp s1 s2 = Ok r) /\
    (score_ge s1 s2 \/ score_ge s2 s1).
Proof.
  apply (evaluate_5_fixed_shape royal_hand pair_hand); reflexivity.
Defined.

Lemma category_order_respected_witness :
  exists s1 s2,
    evaluate_5 royal_hand = Ok s1 /\ evaluate_5 pair_hand = Ok s2 /\
    (score_ge s1 s2 \/ score_ge s2 s1) /\
    (score_ge s1 s2 -> score_ge s2 s1 -> s1 = s2) /\
    (forall s3, score_ge s1 s2 -> score_ge s2 s3 -> score_ge s1 s3) /\
    (forall c1 c2, category s1 = Some c1 -> category s2 = Some c2 -> c2 < c1 ->
                   tuple_gt s1 s2 = Ok true) /\
    (category s1 = Some 7 -> category s2 = Some 6 -> tuple_gt s1 s2 = Ok true) /\
    (category s1 = Some 9 -> category s2 = Some 8 -> tuple_gt s1 s2 = Ok true) /\
    (category s2 = Some 8 -> tuple_gt [VInt 9; VInt 5] s2 = Ok true) /\
    evaluate_5 [card 14 Spades; card 2 Spades; card 3 Spades; card 4 Spades;
                card 5 Spades] = Ok [VInt 9; VInt 5].
Proof.
  apply (category_order_respected royal_hand pair_hand); reflexivity.
Defined.

(** ** The best-hand selector *)

(** C7. Hole cards A-spades, A-hearts with community A-diamonds, K-clubs,
    K-hearts, 2-spades, 3-diamonds: the best hand is the Full House
    (7, 14, 13), Aces over Kings. *)
Theorem best_hand_aces_full :
  best_hand aces_full_pool
  = Ok (Some [VInt 7; VInt 14; VInt 13],
        Some [card 14 Spades; card 14 Hearts; card 14 Diamonds;
              card 13 Clubs; card 13 Hearts]).
Proof. vm_compute. reflexivity. Qed.

(** C9. On a pool of at least five cards [best_hand] returns a score together
    with a combination of five cards taken from the pool, in the order of
    the pool, and the score is the evaluation of that combination. *)
Theorem best_hand_consistent (pool : list Card) :
  (5 <= length pool)%nat ->
  exists score combo,
    best_hand pool = Ok (Some score, Some combo) /\
    length combo = 5%nat /\ subseq combo pool /\ incl combo pool /\
    evaluate_5 combo = Ok score.
Proof.
  intros Hlen.
  destruct (best_hand_spec pool Hlen) as (best & combo & Hb & Hin & Hev & _ & _).
  apply combinations_In in Hin. destruct Hin as [Hsub Hl].
  exists best, combo. repeat split; auto using subseq_incl.
Qed.

Lemma best_hand_consistent_witness :
  exists score combo,
    best_hand aces_full_pool = Ok (Some score, Some combo) /\
    length combo = 5%nat /\ subseq combo aces_full_pool /\
    incl combo aces_full_pool /\
    evaluate_5 combo = Ok score.
Proof.
  apply (best_hand_consistent aces_full_pool). simpl. lia.
Defined.

(** C3. On seven distinct cards [best_hand] returns the maximum over the 21
    combinations that the loop enumerates: the score returned is the
    evaluation of one of them, the combination returned, and it is greater
    than or equal to the evaluation of each of the 21.  It is also greater
    than or equal to the evaluation of every selection of five distinct
    cards of the pool, in whatever order the five are given. *)
Theorem best_hand_maximal (pool c : list Card) :
  length pool = 7%nat -> NoDup pool ->
  length c = 5%nat -> NoDup c -> incl c pool ->
  exists best combo v,
    best_hand pool = Ok (Some best, Some combo) /\
    length (combinations pool 5) = 21%nat /\
    In combo (combinations pool 5) /\
    evaluate_5 combo = Ok best /\
    (forall c', In c' (combinations pool 5) ->
                exists v', evaluate_5 c' = Ok v' /\ tuple_ge best v' = Ok true) /\
    evaluate_5 c = Ok v /\ tuple_ge best v = Ok true.
Proof.
  intros H7 _ H5 Hnd Hincl.
  destruct (best_hand_spec pool) as (best & combo & Hb & Hin & Hev & _ & Hmax);
    [lia |].
  destruct (combinations_cover pool c Hnd Hincl) as (c' & Hc' & HP).
  rewrite H5 in Hc'. destruct (Hmax c' Hc') as (v & Hv & Hge).
  exists best, combo, v.
  split; [exact Hb |]. split; [| split; [exact Hin | split; [exact Hev |]]].
  - do 8 (destruct pool as [| ? pool]; try discriminate). reflexivity.
  - split; [exact Hmax |]. split; [| exact Hge].
    now rewrite (evaluate_5_perm _ _ HP).
Qed.

Lemma best_hand_maximal_witness :
  exists best combo v,
    best_hand aces_full_pool = Ok (Some best, Some combo) /\
    length (combinations aces_full_pool 5) = 21%nat /\
    In combo (combinations aces_full_pool 5) /\
    evaluate_5 combo = Ok best /\
    (forall c', In c' (combinations aces_full_pool 5) ->
                exists v', evaluate_5 c' = Ok v' /\ tuple_ge best v' = Ok true) /\
    evaluate_5 [card 3 Diamonds; card 13 Hearts; card 14 Spades; card 2 Spades;
                card 13 Clubs] = Ok v /\
    tuple_ge best v = Ok true.
Proof.
  apply (best_hand_maximal aces_full_pool).
  - reflexivity.
  - unfold aces_full_pool. distinct_cards.
  - reflexivity.
  - distinct_cards.
  - unfold aces_full_pool. intros x Hx. simpl in *. intuition.
Defined.

(** ** The showdown *)

(** C4. Given every player's score, the winners are exactly the players whose
    score is the maximum over all players; all the players tied at the
    maximum are reported, and they appear in the insertion order of
    [results]. *)
Theorem winners_are_the_maximal_players (results : results_t) :
  results <> [] ->
  (forall p s combo, In (p, (s, combo)) results -> score_shape s) ->
  exists ws best,
    winners results = Ok ws /\
    max_score (map (fun e => fst (snd e)) results) = Ok best /\
    (exists p combo, In (p, (best, combo)) results) /\
    is_max_score results best /\
    (forall p, In p ws <->
               exists s combo, In (p, (s, combo)) results /\ is_max_score results s) /\
    (forall p, In p ws <-> exists combo, In (p, (best, combo)) results) /\
    ws = map fst (filter (fun e => tuple_eqb (fst (snd e)) best) results) /\
    subseq ws (map fst results) /\
    (NoDup (map fst results) -> NoDup ws).
Proof.
  intros Hne Hshape.
  set (scores := map (fun e : string * (HandScore * list Card) => fst (snd e)) results).
  assert (Hsh : Forall score_shape scores).
  { apply Forall_forall. intros s Hs. apply in_map_iff in Hs.
    destruct Hs as ([p [s' combo]] & <- & Hin). simpl. eauto. }
  assert (Hne' : scores <> []).
  { unfold scores. destruct results; [congruence | discriminate]. }
  destruct (max_score_spec scores Hne' Hsh) as (best & Hbest & Hin & Hmax).
  assert (Hismax : is_max_score results best).
  { intros q s' combo' Hq. apply Hmax. unfold scores.
    apply in_map_iff. exists (q, (s', combo')). auto. }
  assert (Hbin : exists p combo, In (p, (best, combo)) results).
  { apply in_map_iff in Hin. destruct Hin as ([p [s combo]] & Heq & Hin).
    simpl in Heq. subst s. eauto. }
  assert (Hws : forall p,
             In p (map fst (filter (fun e => tuple_eqb (fst (snd e)) best) results))
             <-> exists combo, In (p, (best, combo)) results).
  { intros p. rewrite in_map_iff. split.
    - intros ([p' [s combo]] & Hp & He). simpl in Hp. subst p'.
      apply filter_In in He. destruct He as [He Heq]. simpl in Heq.
      apply tuple_eqb_eq in Heq. subst s. eauto.
    - intros (combo & He). exists (p, (best, combo)). split; [reflexivity |].
      apply filter_In. split; [exact He |]. simpl. now apply tuple_eqb_eq. }
  exists (map fst (filter (fun e => tuple_eqb (fst (snd e)) best) results)), best.
  split; [| split; [| split; [| split; [| split; [| split; [| split; [| split]]]]]]].
  - unfold winners. fold scores. rewrite Hbest. reflexivity.
  - exact Hbest.
  - exact Hbin.
  - exact Hismax.
  - intros p. rewrite Hws. split.
    + intros (combo & He). exists best, combo. auto.
    + intros (s & combo & He & Hs). exists combo.
      replace best with s; [exact He |].
      destruct Hbin as (q & combo' & Hq).
      apply score_ge_antisym; [eapply Hs; eauto | eapply Hismax; eauto].
  - exact Hws.
  - reflexivity.
  - apply subseq_map_filter.
  - intros Hnd. eapply subseq_NoDup; [apply subseq_map_filter | exact Hnd].
Qed.

Lemma winners_are_the_maximal_players_witness :
  exists ws best,
    winners tied_results = Ok ws /\
    max_score (map (fun e => fst (snd e)) tied_results) = Ok best /\
    (exists p combo, In (p, (best, combo)) tied_results) /\
    is_max_score tied_results best /\
    (forall p, In p ws <->
               exists s combo, In (p, (s, combo)) tied_results
                               /\ is_max_score tied_results s) /\
    (forall p, In p ws <-> exists combo, In (p, (best, combo)) tied_results) /\
    ws = map fst (filter (fun e => tuple_eqb (fst (snd e)) best) tied_results) /\
    subseq ws (map fst tied_results) /\
    (NoDup (map fst tied_results) -> NoDup ws).
Proof.
  apply (winners_are_the_maximal_players tied_results).
  - discriminate.
  - intros p s combo Hin. simpl in Hin.
    destruct Hin as [H | [H | [H | []]]]; inversion H; subst; constructor; reflexivity.
Defined.

(** The scores of [tied_results] are those of its hands, and the two tied
    players are both reported, in insertion order. *)
Example winners_tied_results :
  Forall (fun e => evaluate_5 (snd (snd e)) = Ok (fst (snd e))) tied_results /\
  winners tied_results = Ok ["P2"%string; "P3"%string].
Proof. split; [repeat constructor | reflexivity]. Qed.

(** * Further properties of the program *)

(** ** What [is_straight] computes *)

Lemma sorted_distinct_In (ranks : list Z) (x : Z) :
  In x (sorted (nodup Z.eq_dec ranks)) <-> In x ranks.
Proof.
  unfold sorted. split; intros H.
  - apply (nodup_In Z.eq_dec). eapply Permutation_in; [apply sort_perm | exact H].
  - eapply Permutation_in; [symmetry; apply sort_perm |].
    now apply nodup_In.
Qed.

Lemma sorted_distinct_NoDup (ranks : list Z) :
  NoDup (sorted (nodup Z.eq_dec ranks)).
Proof.
  unfold sorted. eapply Permutation_NoDup; [symmetry; apply sort_perm |].
  apply NoDup_nodup.
Qed.

Lemma sorted_distinct_lt (ranks : list Z) (i j : nat) :
  let s := sorted (nodup Z.eq_dec ranks) in
  (i < j)%nat -> (j < length s)%nat -> nth i s 0 < nth j s 0.
Proof.
  intros s Hij Hj.
  assert (Hle : nth i s 0 <= nth j s 0).
  { apply sorted_nth_le; try lia.
    apply sort_sorted; [apply Zleb_total | apply Zleb_trans]. }
  assert (Hne : nth i s 0 <> nth j s 0).
  { intros Heq.
    apply (proj1 (NoDup_nth s 0) (sorted_distinct_NoDup ranks)) in Heq; lia. }
  lia.
Qed.

(** In the sorted distinct ranks, the successor of a value, when present,
    is the next element. *)
Lemma sorted_distinct_next (ranks : list Z) (i : nat) :
  let s := sorted (nodup Z.eq_dec ranks) in
  (i < length s)%nat -> In (nth i s 0 + 1) s ->
  (S i < length s)%nat /\ nth (S i) s 0 = nth i s 0 + 1.
Proof.
  cbv zeta. intros Hi Hin.
  pose proof (sorted_distinct_lt ranks) as Hlt. cbv zeta in Hlt.
  set (s := sorted (nodup Z.eq_dec ranks)) in *.
  destruct (In_nth _ _ 0 Hin) as (j & Hj & Ej).
  assert (Hij : (i < j)%nat).
  { destruct (Nat.lt_ge_cases i j) as [H | H]; [exact H | exfalso].
    destruct (Nat.eq_dec j i) as [-> | Hne]; [lia |].
    specialize (Hlt j i). lia. }
  split; [lia |].
  destruct (Nat.eq_dec (S i) j) as [<- | Hne]; [exact Ej |].
  pose proof (Hlt i (S i)) as H1. pose proof (Hlt (S i) j) as H2. lia.
Qed.

Lemma window_hd (s : list Z) (i : nat) :
  (i + 5 <= length s)%nat -> hd 0 (window s i) = nth i s 0.
Proof.
  intros H. unfold window.
  rewrite <- (Nat.add_0_r i) at 2. rewrite <- nth_skipn.
  assert (Hl : (5 <= length (skipn i s))%nat) by (rewrite length_skipn; lia).
  destruct (skipn i s); [simpl in Hl; lia | reflexivity].
Qed.

Lemma window_ok_nth (s : list Z) (i : nat) :
  (i + 5 <= length s)%nat ->
  window_ok s i = (nth (i + 4) s 0 - nth i s 0 =? 4).
Proof.
  intros H. unfold window_ok. now rewrite window_last, window_hd.
Qed.

(** A window of the scan that passes the test holds five consecutive
    ranks. *)
Lemma window_run (ranks : list Z) (i : nat) :
  let s := sorted (nodup Z.eq_dec ranks) in
  (i + 5 <= length s)%nat -> window_ok s i = true ->
  run_at ranks (nth (i + 4) s 0).
Proof.
  cbv zeta. intros Hi Hok. rewrite window_ok_nth in Hok by exact Hi.
  pose proof (sorted_distinct_lt ranks) as Hlt. cbv zeta in Hlt.
  intros k Hk. apply sorted_distinct_In.
  set (s := sorted (nodup Z.eq_dec ranks)) in *.
  pose proof (Hlt i (i + 1)%nat) as H1.
  pose proof (Hlt (i + 1)%nat (i + 2)%nat) as H2.
  pose proof (Hlt (i + 2)%nat (i + 3)%nat) as H3.
  pose proof (Hlt (i + 3)%nat (i + 4)%nat) as H4.
  assert (Hc : k = 0 \/ k = 1 \/ k = 2 \/ k = 3 \/ k = 4) by lia.
  destruct Hc as [-> | [-> | [-> | [-> | ->]]]].
  - replace (nth (i + 4) s 0 - 0) with (nth (i + 4) s 0) by lia.
    apply nth_In; lia.
  - replace (nth (i + 4) s 0 - 1) with (nth (i + 3) s 0) by lia.
    apply nth_In; lia.
  - replace (nth (i + 4) s 0 - 2) with (nth (i + 2) s 0) by lia.
    apply nth_In; lia.
  - replace (nth (i + 4) s 0 - 3) with (nth (i + 1) s 0) by lia.
    apply nth_In; lia.
  - replace (nth (i + 4) s 0 - 4) with (nth i s 0) by lia.
    apply nth_In; lia.
Qed.

(** Five consecutive ranks present in the input fill a window of the scan. *)
Lemma run_window (ranks : list Z) (t : Z) :
  let s := sorted (nodup Z.eq_dec ranks) in
  run_at ranks t ->
  exists i, (i + 5 <= length s)%nat /\ window_ok s i = true /\ nth (i + 4) s 0 = t.
Proof.
  cbv zeta. intros Hrun.
  pose proof (sorted_distinct_next ranks) as Hnext. cbv zeta in Hnext.
  assert (Hin : forall k, 0 <= k <= 4 -> In (t - k) (sorted (nodup Z.eq_dec ranks))).
  { intros k Hk. apply sorted_distinct_In, Hrun, Hk. }
  set (s := sorted (nodup Z.eq_dec ranks)) in *.
  destruct (In_nth _ _ 0 (Hin 4 ltac:(lia))) as (i & Hi & Ei).
  destruct (Hnext i Hi) as (L1 & E1).
  { rewrite Ei. replace (t - 4 + 1) with (t - 3) by lia. apply Hin; lia. }
  destruct (Hnext (S i) L1) as (L2 & E2).
  { rewrite E1, Ei. replace (t - 4 + 1 + 1) with (t - 2) by lia.
    apply Hin; lia. }
  destruct (Hnext (S (S i)) L2) as (L3 & E3).
  { rewrite E2, E1, Ei. replace (t - 4 + 1 + 1 + 1) with (t - 1) by lia.
    apply Hin; lia. }
  destruct (Hnext (S (S (S i))) L3) as (L4 & E4).
  { rewrite E3, E2, E1, Ei.
    replace (t - 4 + 1 + 1 + 1 + 1) with (t - 0) by lia. apply Hin; lia. }
  assert (E : nth (i + 4) s 0 = t).
  { replace (i + 4)%nat with (S (S (S (S i)))) by lia. lia. }
  exists i. split; [lia |]. split; [| exact E].
  rewrite window_ok_nth by lia. lia.
Qed.

Lemma issubset_wheel (ranks : list Z) :
  issubset [14; 2; 3; 4; 5] (sorted (nodup Z.eq_dec ranks)) = true <-> wheel ranks.
Proof.
  unfold issubset, wheel. cbn [forallb].
  rewrite !andb_true_iff, !existsb_exists.
  assert (H : forall x,
             (exists y, In y (sorted (nodup Z.eq_dec ranks)) /\ (x =? y) = true)
             <-> In x ranks).
  { intros x. rewrite <- sorted_distinct_In. split.
    - intros (y & Hy & E). apply Z.eqb_eq in E. now subst.
    - intros Hx. exists x. split; [exact Hx | apply Z.eqb_refl]. }
  rewrite !H. tauto.
Qed.

Lemma wheel_length (ranks : list Z) :
  wheel ranks -> (5 <= length (sorted (nodup Z.eq_dec ranks)))%nat.
Proof.
  intros (H14 & H2 & H3 & H4 & H5).
  change 5%nat with (length [14; 2; 3; 4; 5]).
  apply NoDup_incl_length.
  - repeat constructor; simpl; intuition lia.
  - intros x Hx. apply sorted_distinct_In.
    simpl in Hx. intuition (subst; assumption).
Qed.

(** A straight is reported exactly when five consecutive ranks or the wheel
    are present. *)
Lemma is_straight_fst_iff (ranks : list Z) :
  fst (is_straight ranks) = true <-> straight ranks.
Proof.
  pose proof (window_run ranks) as Hwr. pose proof (run_window ranks) as Hrw.
  pose proof (issubset_wheel ranks) as Hiw. pose proof (wheel_length ranks) as Hwl.
  cbv zeta in Hwr, Hrw. unfold straight, is_straight.
  set (s := sorted (nodup Z.eq_dec ranks)) in *.
  destruct (Nat.ltb_spec (length s) 5) as [Hlt | Hge].
  - split; [discriminate |].
    intros [(t & Hrun) | Hw].
    + destruct (Hrw t Hrun) as (i & Hi & _). lia.
    + apply Hwl in Hw. lia.
  - destruct (find (window_ok s) (seq 0 (length s - 4))) as [i0 |] eqn:Ef.
    + split; [intros _ | reflexivity].
      left. apply find_seq_first in Ef. destruct Ef as (Hr & Hf & _).
      exists (nth (i0 + 4) s 0). apply Hwr; [lia | exact Hf].
    + destruct (issubset [14; 2; 3; 4; 5] s) eqn:Ew.
      * split; [intros _ | reflexivity]. right. now apply Hiw.
      * split; [discriminate |].
        intros [(t & Hrun) | Hw].
        -- destruct (Hrw t Hrun) as (i & Hi & Hok & _).
           rewrite (find_none _ _ Ef i) in Hok; [discriminate |]. apply in_seq. lia.
        -- apply Hiw in Hw. discriminate.
Qed.

(** The top that is reported is the top of a run of five consecutive ranks,
    or the 5 of the wheel. *)
Lemma is_straight_top_sound (ranks : list Z) (t : Z) :
  is_straight ranks = (true, Some t) -> run_at ranks t \/ (wheel ranks /\ t = 5).
Proof.
  pose proof (window_run ranks) as Hwr. pose proof (issubset_wheel ranks) as Hiw.
  cbv zeta in Hwr. unfold is_straight.
  set (s := sorted (nodup Z.eq_dec ranks)) in *.
  destruct (Nat.ltb_spec (length s) 5) as [Hlt | Hge]; [discriminate |].
  destruct (find (window_ok s) (seq 0 (length s - 4))) as [i0 |] eqn:Ef.
  - apply find_seq_first in Ef. destruct Ef as (Hr & Hf & _).
    rewrite window_last by lia. intros E. inversion E; subst t.
    left. apply Hwr; [lia | exact Hf].
  - destruct (issubset [14; 2; 3; 4; 5] s) eqn:Ew; [| discriminate].
    intros E. inversion E; subst t. right. split; [now apply Hiw | reflexivity].
Qed.

(** X1. [is_straight] returns a straight with a top exactly when five
    consecutive ranks, or the wheel ace-2-3-4-5, occur among its argument,
    and [(False, None)] exactly when neither does, whatever the number of
    ranks and their repetitions. *)
Theorem is_straight_decides (ranks : list Z) :
  ((exists t, is_straight ranks = (true, Some t))
   <-> (exists t, run_at ranks t) \/ wheel ranks) /\
  (is_straight ranks = (false, None)
   <-> ~ ((exists t, run_at ranks t) \/ wheel ranks)).
Proof.
  pose proof (is_straight_fst_iff ranks) as Hiff. unfold straight in Hiff.
  destruct (is_straight_cases ranks) as [E | (t & E)]; rewrite E in *;
    simpl in Hiff.
  - assert (Hno : ~ ((exists t, run_at ranks t) \/ wheel ranks)).
    { intros H. apply Hiff in H. discriminate. }
    split; split; try tauto. intros (t & Et). discriminate.
  - assert (Hyes : (exists t, run_at ranks t) \/ wheel ranks) by now apply Hiff.
    split; split; try tauto; try discriminate. intros _. eauto.
Qed.

(** X2. The top reported by [is_straight]: [t] is returned exactly when [t]
    is the lowest top of a run of five consecutive ranks of the argument, or
    when there is no such run, the wheel is present and [t] is 5. *)
Theorem is_straight_top_iff (ranks : list Z) (t : Z) :
  is_straight ranks = (true, Some t) <->
  (run_at ranks t /\ forall u, run_at ranks u -> t <= u) \/
  ((forall u, ~ run_at ranks u) /\ wheel ranks /\ t = 5).
Proof.
  pose proof (window_run ranks) as Hwr. pose proof (run_window ranks) as Hrw.
  pose proof (issubset_wheel ranks) as Hiw. pose proof (wheel_length ranks) as Hwl.
  assert (Hss : StronglySorted (lebP Z.leb) (sorted (nodup Z.eq_dec ranks)))
    by (apply sort_sorted; [apply Zleb_total | apply Zleb_trans]).
  cbv zeta in Hwr, Hrw. unfold is_straight.
  set (s := sorted (nodup Z.eq_dec ranks)) in *.
  destruct (Nat.ltb_spec (length s) 5) as [Hlt | Hge].
  - split; [discriminate |].
    intros [(Hrun & _) | (_ & Hw & _)].
    + destruct (Hrw t Hrun) as (i & Hi & _). lia.
    + apply Hwl in Hw. lia.
  - destruct (find (window_ok s) (seq 0 (length s - 4))) as [i0 |] eqn:Ef.
    + apply find_seq_first in Ef. destruct Ef as (Hr & Hf & Hmin).
      rewrite window_last by lia.
      assert (Hrun0 : run_at ranks (nth (i0 + 4) s 0)) by (apply Hwr; [lia | exact Hf]).
      assert (Hlow : forall u, run_at ranks u -> nth (i0 + 4) s 0 <= u).
      { intros u Hu. destruct (Hrw u Hu) as (j & Hj & Hok & <-).
        assert (Hle : (i0 <= j)%nat).
        { destruct (Nat.le_gt_cases i0 j) as [H | H]; [exact H |].
          rewrite Hmin in Hok by lia. discriminate. }
        apply sorted_nth_le; [exact Hss | lia | lia]. }
      split.
      * intros E. inversion E; subst t. left. split; assumption.
      * intros [(Hrun & Hmin') | (Hno & _)].
        -- do 2 f_equal. apply Hlow in Hrun. apply Hmin' in Hrun0. lia.
        -- exfalso. eapply Hno, Hrun0.
    + assert (Hno : forall u, ~ run_at ranks u).
      { intros u Hu. destruct (Hrw u Hu) as (j & Hj & Hok & _).
        rewrite (find_none _ _ Ef j) in Hok; [discriminate |]. apply in_seq. lia. }
      destruct (issubset [14; 2; 3; 4; 5] s) eqn:Ew.
      * split.
        -- intros E. inversion E; subst t. right.
           split; [exact Hno |]. split; [now apply Hiw | reflexivity].
        -- intros [(Hrun & _) | (_ & _ & ->)]; [| reflexivity].
           exfalso. eapply Hno, Hrun.
      * split; [discriminate |].
        intros [(Hrun & _) | (_ & Hw & _)].
        -- exfalso. eapply Hno, Hrun.
        -- apply Hiw in Hw. discriminate.
Qed.

(** X3. The result of [is_straight] depends only on which ranks occur in its
    argument, not on their order or on how often each occurs. *)
Theorem is_straight_same_ranks (l l' : list Z) :
  (forall x, In x l <-> In x l') -> is_straight l = is_straight l'.
Proof.
  intros H.
  assert (E : sorted (nodup Z.eq_dec l) = sorted (nodup Z.eq_dec l')).
  { apply sort_perm_eq;
      [apply Zleb_total | apply Zleb_trans | apply Zleb_antisym |].
    apply NoDup_Permutation; try apply NoDup_nodup.
    intros x. rewrite !nodup_In. apply H. }
  unfold is_straight. now rewrite E.
Qed.

Lemma is_straight_same_ranks_witness :
  is_straight [5; 3; 4; 2; 14; 14; 3] = is_straight [14; 2; 3; 4; 5].
Proof.
  apply (is_straight_same_ranks [5; 3; 4; 2; 14; 14; 3] [14; 2; 3; 4; 5]).
  intros x. simpl. intuition.
Defined.

(** ** The repetitions of five ranks *)

Lemma sort_rev_descending (l : list Z) : descending (sorted_rev l).
Proof.
  unfold descending, sorted_rev.
  pose proof (sort_sorted Z.geb Zgeb_total Zgeb_trans l) as H.
  induction H as [| a s Hs IH Ha]; constructor; [exact IH |].
  eapply Forall_impl; [| exact Ha]. unfold lebP. intros; lia.
Qed.

Lemma sorted_rev_five (ranks : list Z) :
  length ranks = 5%nat ->
  exists x1 x2 x3 x4 x5,
    sorted_rev ranks = [x1; x2; x3; x4; x5] /\
    x1 >= x2 /\ x2 >= x3 /\ x3 >= x4 /\ x4 >= x5.
Proof.
  intros H5. pose proof (sort_rev_descending ranks) as Hd.
  pose proof (sorted_rev_length ranks) as HL. rewrite H5 in HL.
  destruct (sorted_rev ranks) as [| x1 [| x2 [| x3 [| x4 [| x5 [| ? ?]]]]]];
    try discriminate.
  exists x1, x2, x3, x4, x5. split; [reflexivity |].
  unfold descending in Hd.
  repeat match goal with
         | H : StronglySorted _ (_ :: _) |- _ => inversion H; clear H; subst
         | H : Forall _ (_ :: _) |- _ => inversion H; clear H; subst
         end.
  lia.
Qed.

(** Five ranks repeat in one of seven ways. *)
Lemma rank_profile_five (ranks : list Z) :
  length ranks = 5%nat -> rank_profile ranks.
Proof.
  intros H5. destruct (sorted_rev_five ranks H5)
    as (x1 & x2 & x3 & x4 & x5 & E & H12 & H23 & H34 & H45).
  assert (HP : Permutation ranks [x1; x2; x3; x4; x5]).
  { rewrite <- E. symmetry. apply sort_perm. }
  destruct (Z.eq_dec x1 x2) as [E12 | N12], (Z.eq_dec x2 x3) as [E23 | N23],
    (Z.eq_dec x3 x4) as [E34 | N34], (Z.eq_dec x4 x5) as [E45 | N45]; subst.
  - apply (profile_five _ x5); exact HP.
  - apply (profile_four _ x4 x5); [lia | exact HP].
  - apply (profile_full _ x3 x5); [lia | exact HP].
  - apply (profile_three _ x3 x4 x5); try lia; exact HP.
  - apply (profile_full _ x5 x2); [lia |]. rewrite HP. perm_count.
  - apply (profile_two_pair _ x2 x4 x5); try lia. exact HP.
  - apply (profile_two_pair _ x2 x5 x3); try lia. rewrite HP. perm_count.
  - apply (profile_pair _ x2 x3 x4 x5); try lia. exact HP.
  - apply (profile_four _ x5 x1); [lia |]. rewrite HP. perm_count.
  - apply (profile_three _ x4 x1 x5); try lia. rewrite HP. perm_count.
  - apply (profile_two_pair _ x3 x5 x1); try lia. rewrite HP. perm_count.
  - apply (profile_pair _ x3 x1 x4 x5); try lia. rewrite HP. perm_count.
  - apply (profile_three _ x5 x1 x2); try lia. rewrite HP. perm_count.
  - apply (profile_pair _ x4 x1 x2 x5); try lia. rewrite HP. perm_count.
  - apply (profile_pair _ x5 x1 x2 x3); try lia. rewrite HP. perm_count.
  - apply (profile_distinct _ x1 x2 x3 x4 x5); try lia. exact HP.
Qed.

(** ** The score of each profile *)

Lemma nodup_length_le (l : list Z) : (length (nodup Z.eq_dec l) <= length l)%nat.
Proof.
  induction l as [| a l IH]; simpl; [lia |].
  destruct (in_dec Z.eq_dec a l); simpl; lia.
Qed.

Lemma nodup_length_lt (l : list Z) :
  ~ NoDup l -> (length (nodup Z.eq_dec l) < length l)%nat.
Proof.
  induction l as [| a l IH]; intros Hn.
  - exfalso. apply Hn. constructor.
  - simpl. destruct (in_dec Z.eq_dec a l) as [Hin | Hnin].
    + pose proof (nodup_length_le l). lia.
    + simpl. apply -> Nat.succ_lt_mono. apply IH.
      intros Hnd. apply Hn. now constructor.
Qed.

(** At most five ranks with a repetition hold no straight. *)
Lemma is_straight_dup (ranks : list Z) :
  (length ranks <= 5)%nat -> ~ NoDup ranks -> is_straight ranks = (false, None).
Proof.
  intros H5 Hn. unfold is_straight.
  assert (Hl : (length (sorted (nodup Z.eq_dec ranks)) < 5)%nat).
  { unfold sorted. rewrite sort_length. pose proof (nodup_length_lt ranks Hn). lia. }
  apply Nat.ltb_lt in Hl. now rewrite Hl.
Qed.

Lemma not_NoDup_head (a : Z) (l : list Z) : ~ NoDup (a :: a :: l).
Proof.
  intros H. inversion H as [| ? ? Hnin _]; subst. apply Hnin. now left.
Qed.

Lemma evaluate_5_five_rep (c1 c2 c3 c4 c5 : Card) (a : Z) :
  let cs := [c1; c2; c3; c4; c5] in
  map rank cs = [a; a; a; a; a] ->
  evaluate_5 cs = Ok [VInt (if is_flush cs then 6 else 1); VList [a; a; a; a; a]].
Proof.
  intros cs E. subst cs. start5 E.
  rewrite is_straight_dup by (simpl; try lia; apply not_NoDup_head).
  rewrite andb_false_r. destruct fl; eval5; reflexivity.
Qed.

Lemma evaluate_5_four_rep (c1 c2 c3 c4 c5 : Card) (a b : Z) :
  let cs := [c1; c2; c3; c4; c5] in
  map rank cs = [a; a; a; a; b] -> a <> b ->
  evaluate_5 cs = Ok [VInt 8; VInt a; VInt b].
Proof.
  intros cs E Hab. subst cs. start5 E.
  rewrite is_straight_dup by (simpl; try lia; apply not_NoDup_head).
  rewrite andb_false_r. eval5. reflexivity.
Qed.

Lemma evaluate_5_full_rep (c1 c2 c3 c4 c5 : Card) (a b : Z) :
  let cs := [c1; c2; c3; c4; c5] in
  map rank cs = [a; a; a; b; b] -> a <> b ->
  evaluate_5 cs = Ok [VInt 7; VInt a; VInt b].
Proof.
  intros cs E Hab. subst cs. start5 E.
  rewrite is_straight_dup by (simpl; try lia; apply not_NoDup_head).
  rewrite andb_false_r. eval5. reflexivity.
Qed.

Lemma evaluate_5_three_rep (c1 c2 c3 c4 c5 : Card) (a b c : Z) :
  let cs := [c1; c2; c3; c4; c5] in
  map rank cs = [a; a; a; b; c] -> a <> b -> a <> c -> b > c ->
  evaluate_5 cs
  = Ok (if is_flush cs then [VInt 6; VList (sorted_rev (map rank cs))]
        else [VInt 4; VInt a; VList [b; c]]).
Proof.
  intros cs E Hab Hac Hbc. subst cs. start5 E.
  rewrite is_straight_dup by (simpl; try lia; apply not_NoDup_head).
  rewrite andb_false_r.
  remember (sorted_rev [a; a; a; b; c]) as sr.
  destruct fl; eval5; reflexivity.
Qed.

Lemma evaluate_5_two_pair_rep (c1 c2 c3 c4 c5 : Card) (a b c : Z) :
  let cs := [c1; c2; c3; c4; c5] in
  map rank cs = [a; a; b; b; c] -> a > b -> c <> a -> c <> b ->
  evaluate_5 cs
  = Ok (if is_flush cs then [VInt 6; VList (sorted_rev (map rank cs))]
        else [VInt 3; VInt a; VInt b; VInt c]).
Proof.
  intros cs E Hab Hca Hcb. subst cs. start5 E.
  rewrite is_straight_dup by (simpl; try lia; apply not_NoDup_head).
  rewrite andb_false_r.
  remember (sorted_rev [a; a; b; b; c]) as sr.
  destruct fl; eval5; reflexivity.
Qed.

Lemma evaluate_5_pair_rep (c1 c2 c3 c4 c5 : Card) (a b c d : Z) :
  let cs := [c1; c2; c3; c4; c5] in
  map rank cs = [a; a; b; c; d] -> a <> b -> a <> c -> a <> d -> b > c -> c > d ->
  evaluate_5 cs
  = Ok (if is_flush cs then [VInt 6; VList (sorted_rev (map rank cs))]
        else [VInt 2; VInt a; VList [b; c; d]]).
Proof.
  intros cs E Hab Hac Had Hbc Hcd. subst cs. start5 E.
  rewrite is_straight_dup by (simpl; try lia; apply not_NoDup_head).
  rewrite andb_false_r.
  remember (sorted_rev [a; a; b; c; d]) as sr.
  destruct fl; eval5; reflexivity.
Qed.

Lemma evaluate_5_distinct_rep (c1 c2 c3 c4 c5 : Card) (a b c d e : Z) :
  let cs := [c1; c2; c3; c4; c5] in
  map rank cs = [a; b; c; d; e] -> a > b -> b > c -> c > d -> d > e ->
  evaluate_5 cs
  = Ok (match is_straight (map rank cs) with
        | (true, top) => [VInt (if is_flush cs then 9 else 5); of_option top]
        | (false, _) => [VInt (if is_flush cs then 6 else 1); VList [a; b; c; d; e]]
        end).
Proof.
  intros cs E Hab Hbc Hcd Hde. subst cs. start5 E.
  destruct (is_straight [a; b; c; d; e]) as [[|] top];
    [rewrite andb_true_r | rewrite andb_false_r]; destruct fl; eval5; reflexivity.
Qed.

Lemma is_flush_perm (cards cards' : list Card) :
  Permutation cards cards' -> is_flush cards = is_flush cards'.
Proof.
  intros HP. unfold is_flush. f_equal. apply Permutation_length.
  apply nodup_perm. now apply Permutation_map.
Qed.

Lemma five_cards (cards : list Card) :
  length cards = 5%nat -> exists c1 c2 c3 c4 c5, cards = [c1; c2; c3; c4; c5].
Proof.
  intros H. destruct cards as [| c1 [| c2 [| c3 [| c4 [| c5 [| ? ?]]]]]];
    try discriminate. eauto 6.
Qed.

(** Five cards with the ranks [L], up to their order, can be put in the order
    of [L]. *)
Lemma cards_in_order (cards : list Card) (L : list Z) :
  Permutation (map rank cards) L ->
  exists cards', Permutation cards cards' /\ map rank cards' = L.
Proof.
  intros HP. symmetry in HP. apply Permutation_map_inv in HP.
  destruct HP as (cards' & E & HP). exists cards'. split; [exact HP | now symmetry].
Qed.

(** The score of five cards, profile by profile. *)
Lemma evaluate_5_cases (cards : list Card) : length cards = 5%nat -> eval_case cards.
Proof.
  intros H5.
  assert (HL : length (map rank cards) = 5%nat) by now rewrite length_map.
  destruct (rank_profile_five _ HL) as
    [a HP | a b Hab HP | a b Hab HP | a b c Hab Hac Hbc HP | a b c Hab Hca Hcb HP
    | a b c d Hab Hac Had Hbc Hcd HP | a b c d e Hab Hbc Hcd Hde HP];
    destruct (cards_in_order _ _ HP) as (cs & HPc & E);
    assert (H5' : length cs = 5%nat)
      by (rewrite <- (Permutation_length HPc); exact H5);
    destruct (five_cards cs H5') as (c1 & c2 & c3 & c4 & c5 & ->);
    pose proof (evaluate_5_perm _ _ HPc) as Eev;
    pose proof (is_flush_perm _ _ HPc) as Efl;
    pose proof (Permutation_map rank HPc) as HPr.
  - eapply case_five; [exact HP |].
    rewrite Eev, Efl. now apply evaluate_5_five_rep.
  - eapply case_four; [exact Hab | exact HP |].
    rewrite Eev. now apply evaluate_5_four_rep.
  - eapply case_full; [exact Hab | exact HP |].
    rewrite Eev. now apply evaluate_5_full_rep.
  - eapply case_three; [exact Hab | exact Hac | exact Hbc | exact HP |].
    rewrite Eev, Efl, (sorted_rev_perm _ _ HPr). now apply evaluate_5_three_rep.
  - eapply case_two_pair; [exact Hab | exact Hca | exact Hcb | exact HP |].
    rewrite Eev, Efl, (sorted_rev_perm _ _ HPr). now apply evaluate_5_two_pair_rep.
  - eapply case_pair; [exact Hab | exact Hac | exact Had | exact Hbc | exact Hcd
                      | exact HP |].
    rewrite Eev, Efl, (sorted_rev_perm _ _ HPr). now apply evaluate_5_pair_rep.
  - eapply case_distinct; [exact Hab | exact Hbc | exact Hcd | exact Hde | exact HP |].
    rewrite Eev, Efl, (is_straight_perm _ _ HPr). now apply evaluate_5_distinct_rep.
Qed.

(** ** Repetitions of each profile *)

Lemma no_count (ranks L : list Z) (n : Z) :
  Permutation ranks L -> (forall r, count r L <> n) -> ~ has_count n ranks.
Proof.
  intros HP H (r & Hr). rewrite (count_perm _ _ _ HP) in Hr. exact (H r Hr).
Qed.

Lemma a_count (ranks L : list Z) (n r : Z) :
  Permutation ranks L -> count r L = n -> has_count n ranks.
Proof.
  intros HP H. exists r. now rewrite (count_perm _ _ _ HP).
Qed.

Lemma no_two_pairs (ranks L : list Z) :
  Permutation ranks L ->
  (forall r p, r <> p -> count r L = 2 -> count p L = 2 -> False) ->
  ~ two_pairs ranks.
Proof.
  intros HP H (r & p & Hne & Hr & Hp).
  rewrite (count_perm r _ _ HP) in Hr. rewrite (count_perm p _ _ HP) in Hp.
  exact (H r p Hne Hr Hp).
Qed.

Lemma no_NoDup (ranks : list Z) (a : Z) (l : list Z) :
  Permutation ranks (a :: a :: l) -> ~ NoDup ranks.
Proof.
  intros HP Hnd. eapply not_NoDup_head, Permutation_NoDup; eassumption.
Qed.

Lemma rank_facts_five (ranks : list Z) (a : Z) :
  Permutation ranks [a; a; a; a; a] -> rank_facts ranks false false false false false.
Proof.
  intros HP. facts_start HP.
  - apply (no_count _ _ _ HP). intros r Hr. count_in Hr.
  - apply (no_count _ _ _ HP). intros r Hr. count_in Hr.
  - apply (no_count _ _ _ HP). intros r Hr. count_in Hr.
  - apply (no_two_pairs _ _ HP). intros r p Hne Hr Hp. count_in Hr.
  - eapply no_NoDup, HP.
Qed.

Lemma rank_facts_four (ranks : list Z) (a b : Z) :
  a <> b -> Permutation ranks [a; a; a; a; b] ->
  rank_facts ranks true false false false false.
Proof.
  intros Hab HP. facts_start HP.
  - apply (a_count _ _ _ a HP). count_goal.
  - apply (no_count _ _ _ HP). intros r Hr. count_in Hr.
  - apply (no_count _ _ _ HP). intros r Hr. count_in Hr.
  - apply (no_two_pairs _ _ HP). intros r p Hne Hr Hp. count_in Hr.
  - eapply no_NoDup, HP.
Qed.

Lemma rank_facts_full (ranks : list Z) (a b : Z) :
  a <> b -> Permutation ranks [a; a; a; b; b] ->
  rank_facts ranks false true true false false.
Proof.
  intros Hab HP. facts_start HP.
  - apply (no_count _ _ _ HP). intros r Hr. count_in Hr.
  - apply (a_count _ _ _ a HP). count_goal.
  - apply (a_count _ _ _ b HP). count_goal.
  - apply (no_two_pairs _ _ HP). intros r p Hne Hr Hp. count_in Hr; count_in Hp.
  - eapply no_NoDup, HP.
Qed.

Lemma rank_facts_three (ranks : list Z) (a b c : Z) :
  a <> b -> a <> c -> b > c -> Permutation ranks [a; a; a; b; c] ->
  rank_facts ranks false true false false false.
Proof.
  intros Hab Hac Hbc HP. facts_start HP.
  - apply (no_count _ _ _ HP). intros r Hr. count_in Hr.
  - apply (a_count _ _ _ a HP). count_goal.
  - apply (no_count _ _ _ HP). intros r Hr. count_in Hr.
  - apply (no_two_pairs _ _ HP). intros r p Hne Hr Hp. count_in Hr.
  - eapply no_NoDup, HP.
Qed.

Lemma rank_facts_two_pair (ranks : list Z) (a b c : Z) :
  a > b -> c <> a -> c <> b -> Permutation ranks [a; a; b; b; c] ->
  rank_facts ranks false false true true false.
Proof.
  intros Hab Hca Hcb HP. facts_start HP.
  - apply (no_count _ _ _ HP). intros r Hr. count_in Hr.
  - apply (no_count _ _ _ HP). intros r Hr. count_in Hr.
  - apply (a_count _ _ _ a HP). count_goal.
  - exists a, b. rewrite !(count_perm _ _ _ HP).
    split; [lia |]. split; count_goal.
  - eapply no_NoDup, HP.
Qed.

Lemma rank_facts_pair (ranks : list Z) (a b c d : Z) :
  a <> b -> a <> c -> a <> d -> b > c -> c > d ->
  Permutation ranks [a; a; b; c; d] ->
  rank_facts ranks false false true false false.
Proof.
  intros Hab Hac Had Hbc Hcd HP. facts_start HP.
  - apply (no_count _ _ _ HP). intros r Hr. count_in Hr.
  - apply (no_count _ _ _ HP). intros r Hr. count_in Hr.
  - apply (a_count _ _ _ a HP). count_goal.
  - apply (no_two_pairs _ _ HP). intros r p Hne Hr Hp. count_in Hr; count_in Hp.
  - eapply no_NoDup, HP.
Qed.

Lemma rank_facts_distinct (ranks : list Z) (a b c d e : Z) :
  a > b -> b > c -> c > d -> d > e -> Permutation ranks [a; b; c; d; e] ->
  rank_facts ranks false false false false true.
Proof.
  intros Hab Hbc Hcd Hde HP. facts_start HP.
  - apply (no_count _ _ _ HP). intros r Hr. count_in Hr.
  - apply (no_count _ _ _ HP). intros r Hr. count_in Hr.
  - apply (no_count _ _ _ HP). intros r Hr. count_in Hr.
  - apply (no_two_pairs _ _ HP). intros r p Hne Hr Hp. count_in Hr.
  - eapply Permutation_NoDup; [symmetry; exact HP |].
    repeat constructor; simpl; intuition lia.
Qed.

(** ** Flushes and straights of five cards *)

Lemma nodup_singleton {A : Type} (dec : forall x y : A, {x = y} + {x <> y})
    (l : list A) :
  length (nodup dec l) = 1%nat <-> l <> [] /\ forall x y, In x l -> In y l -> x = y.
Proof.
  split.
  - intros H. destruct (nodup dec l) as [| z [| ? ?]] eqn:E; try discriminate.
    assert (Hz : forall x, In x l -> x = z).
    { intros x Hx. apply (nodup_In dec) in Hx. rewrite E in Hx.
      destruct Hx as [<- | []]. reflexivity. }
    split.
    + intros ->. discriminate.
    + intros x y Hx Hy. rewrite (Hz x Hx), (Hz y Hy). reflexivity.
  - intros [Hne Heq]. destruct l as [| a l]; [congruence |].
    assert (Hle : (length (nodup dec (a :: l)) <= length [a])%nat).
    { apply NoDup_incl_length; [apply NoDup_nodup |].
      intros x Hx. apply nodup_In in Hx. left. apply Heq; [now left | exact Hx]. }
    assert (Hin : In a (nodup dec (a :: l))) by (apply nodup_In; now left).
    destruct (nodup dec (a :: l)); [contradiction | simpl in *; lia].
Qed.

Lemma is_flush_same_suit (cards : list Card) :
  cards <> [] -> (is_flush cards = true <-> same_suit cards).
Proof.
  intros Hne. unfold is_flush, same_suit. rewrite Nat.eqb_eq, nodup_singleton.
  split.
  - intros [_ H] c c' Hc Hc'. apply H; now apply in_map.
  - intros H. split.
    + destruct cards; [congruence | discriminate].
    + intros x y Hx Hy. apply in_map_iff in Hx, Hy.
      destruct Hx as (c & <- & Hc), Hy as (c' & <- & Hc'). now apply H.
Qed.

(** Distinct cards of one suit have distinct ranks. *)
Lemma same_suit_distinct_ranks (cards : list Card) :
  NoDup cards -> same_suit cards -> NoDup (map rank cards).
Proof.
  intros Hnd Hs. apply NoDup_map_NoDup_ForallPairs; [| exact Hnd].
  intros c c' Hc Hc' Hr. specialize (Hs c c' Hc Hc').
  destruct c, c'; simpl in *. congruence.
Qed.

(** Distinct cards of one rank have distinct suits, so there are at most
    four of them. *)
Lemma no_five_of_a_kind (cards : list Card) (a : Z) :
  NoDup cards -> ~ Permutation (map rank cards) [a; a; a; a; a].
Proof.
  intros Hnd HP.
  assert (Hr : forall c, In c cards -> rank c = a).
  { intros c Hc. apply (in_map rank) in Hc.
    apply (Permutation_in _ HP) in Hc. simpl in Hc. intuition. }
  assert (Hs : NoDup (map suit cards)).
  { apply NoDup_map_NoDup_ForallPairs; [| exact Hnd].
    intros c c' Hc Hc' E. pose proof (Hr c Hc). pose proof (Hr c' Hc').
    destruct c, c'; simpl in *. congruence. }
  assert (Hle : (length (map suit cards) <= length SUITS)%nat).
  { apply NoDup_incl_length; [exact Hs |]. intros s _. destruct s; simpl; auto. }
  rewrite length_map, <- (length_map rank), (Permutation_length HP) in Hle.
  simpl in Hle. lia.
Qed.

Lemma run_five (ranks : list Z) (t : Z) :
  length ranks = 5%nat -> run_at ranks t ->
  Permutation ranks [t; t - 1; t - 2; t - 3; t - 4].
Proof.
  intros H5 Hrun. symmetry. apply NoDup_Permutation_bis.
  - repeat constructor; simpl; intuition lia.
  - simpl. lia.
  - intros x Hx. simpl in Hx.
    destruct Hx as [<- | [<- | [<- | [<- | [<- | []]]]]];
      [replace t with (t - 0) by lia | | | |]; apply Hrun; lia.
Qed.

Lemma wheel_five (ranks : list Z) :
  length ranks = 5%nat -> wheel ranks -> Permutation ranks [14; 5; 4; 3; 2].
Proof.
  intros H5 (H14 & H2 & H3 & H4 & H5'). symmetry. apply NoDup_Permutation_bis.
  - repeat constructor; simpl; intuition lia.
  - simpl. lia.
  - intros x Hx. simpl in Hx. intuition (subst; assumption).
Qed.

Lemma is_straight_five (ranks : list Z) :
  length ranks = 5%nat ->
  (is_straight ranks = (false, None) /\ ~ straight ranks) \/
  exists t, is_straight ranks = (true, Some t) /\ straight_top ranks t /\
            straight ranks.
Proof.
  intros H5. pose proof (is_straight_fst_iff ranks) as Hiff.
  destruct (is_straight_cases ranks) as [E | (t & E)].
  - left. split; [exact E |]. rewrite E in Hiff. simpl in Hiff.
    intros H. apply Hiff in H. discriminate.
  - right. exists t. split; [exact E |]. split.
    + destruct (is_straight_top_sound _ _ E) as [Hrun | (Hw & ->)].
      * left. now apply run_five.
      * right. split; [reflexivity | now apply wheel_five].
    + apply Hiff. now rewrite E.
Qed.

(** X4. On five cards, [evaluate_5] returns a score whose fields read as
    follows: the ranks of the four of a kind and of its kicker, of the
    triple and the pair of a full house, the triple, the pairs and the
    remaining kickers in descending order, the five ranks in descending
    order for a flush or a high card, and the top of the straight. *)
Theorem evaluate_5_reads (cards : list Card) :
  length cards = 5%nat ->
  exists s, evaluate_5 cards = Ok s /\
            score_reads (is_flush cards) (map rank cards) s.
Proof.
  intros H5.
  assert (HL : length (map rank cards) = 5%nat) by now rewrite length_map.
  pose proof (sort_rev_descending (map rank cards)) as Hd.
  assert (Hsp : Permutation (sorted_rev (map rank cards)) (map rank cards))
    by apply sort_perm.
  destruct (evaluate_5_cases cards H5) as
    [a HP E | a b Hab HP E | a b Hab HP E | a b c Hab Hac Hbc HP E
    | a b c Hab Hca Hcb HP E | a b c d Hab Hac Had Hbc Hcd HP E
    | a b c d e Hab Hbc Hcd Hde HP E];
    rewrite E; eexists; (split; [reflexivity |]).
  - pose proof (rank_facts_five _ _ HP) as (F4 & F3 & F2 & _ & Fnd).
    assert (Hns : ~ straight (map rank cards)).
    { intros Hs. apply is_straight_fst_iff in Hs.
      rewrite is_straight_dup in Hs; [discriminate | lia |].
      intros Hnd. apply Fnd in Hnd. discriminate. }
    assert (Hl : Permutation [a; a; a; a; a] (map rank cards)) by now symmetry.
    assert (Hda : descending [a; a; a; a; a])
      by (unfold descending; repeat constructor; lia).
    destruct (is_flush cards) eqn:Efl;
      [apply reads_flush | apply reads_high_card]; auto;
      intuition discriminate.
  - now apply reads_four.
  - now apply reads_full.
  - pose proof (rank_facts_three _ _ _ _ Hab Hac Hbc HP) as (F4 & F3 & F2 & _ & Fnd).
    assert (Hns : ~ straight (map rank cards)).
    { intros Hs. apply is_straight_fst_iff in Hs.
      rewrite is_straight_dup in Hs; [discriminate | lia |].
      intros Hnd. apply Fnd in Hnd. discriminate. }
    destruct (is_flush cards) eqn:Efl;
      [apply reads_flush | apply reads_three]; auto; intuition discriminate.
  - pose proof (rank_facts_two_pair _ _ _ _ Hab Hca Hcb HP)
      as (F4 & F3 & F2 & _ & Fnd).
    assert (Hns : ~ straight (map rank cards)).
    { intros Hs. apply is_straight_fst_iff in Hs.
      rewrite is_straight_dup in Hs; [discriminate | lia |].
      intros Hnd. apply Fnd in Hnd. discriminate. }
    destruct (is_flush cards) eqn:Efl;
      [apply reads_flush | apply reads_two_pair]; auto; intuition discriminate.
  - pose proof (rank_facts_pair _ _ _ _ _ Hab Hac Had Hbc Hcd HP)
      as (F4 & F3 & F2 & _ & Fnd).
    assert (Hns : ~ straight (map rank cards)).
    { intros Hs. apply is_straight_fst_iff in Hs.
      rewrite is_straight_dup in Hs; [discriminate | lia |].
      intros Hnd. apply Fnd in Hnd. discriminate. }
    destruct (is_flush cards) eqn:Efl;
      [apply reads_flush | apply reads_pair]; auto; intuition discriminate.
  - pose proof (rank_facts_distinct _ _ _ _ _ _ Hab Hbc Hcd Hde HP)
      as (F4 & F3 & F2 & _ & Fnd).
    assert (Hl : Permutation [a; b; c; d; e] (map rank cards)) by now symmetry.
    assert (Hda : descending [a; b; c; d; e])
      by (unfold descending; repeat constructor; lia).
    destruct (is_straight_five _ HL) as [(Es & Hns) | (t & Es & Ht & Hs)];
      rewrite Es; simpl of_option;
      destruct (is_flush cards) eqn:Efl.
    + apply reads_flush; auto; intuition discriminate.
    + apply reads_high_card; auto; intuition discriminate.
    + now apply reads_straight_flush.
    + now apply reads_straight.
Qed.

Lemma evaluate_5_reads_witness :
  exists s, evaluate_5 pair_hand = Ok s /\
            score_reads (is_flush pair_hand) (map rank pair_hand) s.
Proof. apply (evaluate_5_reads pair_hand). reflexivity. Defined.

Lemma NoDup_decide (l : list Z) : NoDup l \/ ~ NoDup l.
Proof.
  induction l as [| a l [IH | IH]].
  - left. constructor.
  - destruct (in_dec Z.eq_dec a l) as [Hin | Hnin].
    + right. intros H. inversion H; contradiction.
    + left. now constructor.
  - right. intros H. inversion H; contradiction.
Qed.

(** X5. On five distinct cards the category returned by [evaluate_5] is the
    one of the rules of poker: it is decided by whether the cards share a
    suit, whether their ranks form a straight, and how the ranks repeat. *)
Theorem evaluate_5_poker_category (cards : list Card) :
  length cards = 5%nat -> NoDup cards ->
  let ranks := map rank cards in
  exists s cat,
    evaluate_5 cards = Ok s /\ category s = Some cat /\
    (cat = 9 <-> same_suit cards /\ straight ranks) /\
    (cat = 8 <-> has_count 4 ranks) /\
    (cat = 7 <-> has_count 3 ranks /\ has_count 2 ranks) /\
    (cat = 6 <-> same_suit cards /\ ~ straight ranks) /\
    (cat = 5 <-> straight ranks /\ ~ same_suit cards) /\
    (cat = 4 <-> has_count 3 ranks /\ ~ has_count 2 ranks) /\
    (cat = 3 <-> two_pairs ranks) /\
    (cat = 2 <-> has_count 2 ranks /\ ~ has_count 3 ranks /\ ~ two_pairs ranks) /\
    (cat = 1 <-> NoDup ranks /\ ~ same_suit cards /\ ~ straight ranks).
Proof.
  intros H5 Hnd ranks.
  assert (HL : length ranks = 5%nat) by (unfold ranks; now rewrite length_map).
  assert (Hne : cards <> []) by (intros ->; discriminate).
  pose proof (is_flush_same_suit cards Hne) as Hfl.
  pose proof (same_suit_distinct_ranks cards Hnd) as Hsd. fold ranks in Hsd.
  assert (Hst : straight ranks -> NoDup ranks).
  { intros Hs. apply is_straight_fst_iff in Hs.
    destruct (NoDup_decide ranks) as [H | H]; [exact H |].
    rewrite is_straight_dup in Hs; [discriminate | lia | exact H]. }
  destruct (evaluate_5_cases cards H5) as
    [a HP E | a b Hab HP E | a b Hab HP E | a b c Hab Hac Hbc HP E
    | a b c Hab Hca Hcb HP E | a b c d Hab Hac Had Hbc Hcd HP E
    | a b c d e Hab Hbc Hcd Hde HP E]; fold ranks in HP, E.
  - exfalso. exact (no_five_of_a_kind cards a Hnd HP).
  - pose proof (rank_facts_four _ _ _ Hab HP) as (F4 & F3 & F2 & Ftp & Fnd).
    rewrite E. eexists; exists 8. split; [reflexivity |]. split; [reflexivity |].
    category_iffs.
  - pose proof (rank_facts_full _ _ _ Hab HP) as (F4 & F3 & F2 & Ftp & Fnd).
    rewrite E. eexists; exists 7. split; [reflexivity |]. split; [reflexivity |].
    category_iffs.
  - pose proof (rank_facts_three _ _ _ _ Hab Hac Hbc HP) as (F4 & F3 & F2 & Ftp & Fnd).
    assert (Ef : is_flush cards = false).
    { destruct (is_flush cards); [| reflexivity].
      assert (H : false = true) by (apply Fnd, Hsd, Hfl; reflexivity).
      discriminate. }
    rewrite E, Ef. eexists; exists 4. split; [reflexivity |]. split; [reflexivity |].
    rewrite Ef in Hfl. category_iffs.
  - pose proof (rank_facts_two_pair _ _ _ _ Hab Hca Hcb HP)
      as (F4 & F3 & F2 & Ftp & Fnd).
    assert (Ef : is_flush cards = false).
    { destruct (is_flush cards); [| reflexivity].
      assert (H : false = true) by (apply Fnd, Hsd, Hfl; reflexivity).
      discriminate. }
    rewrite E, Ef. eexists; exists 3. split; [reflexivity |]. split; [reflexivity |].
    rewrite Ef in Hfl. category_iffs.
  - pose proof (rank_facts_pair _ _ _ _ _ Hab Hac Had Hbc Hcd HP)
      as (F4 & F3 & F2 & Ftp & Fnd).
    assert (Ef : is_flush cards = false).
    { destruct (is_flush cards); [| reflexivity].
      assert (H : false = true) by (apply Fnd, Hsd, Hfl; reflexivity).
      discriminate. }
    rewrite E, Ef. eexists; exists 2. split; [reflexivity |]. split; [reflexivity |].
    rewrite Ef in Hfl. category_iffs.
  - pose proof (rank_facts_distinct _ _ _ _ _ _ Hab Hbc Hcd Hde HP)
      as (F4 & F3 & F2 & Ftp & Fnd).
    rewrite E.
    destruct (is_straight_five _ HL) as [(Es & Hns) | (t & Es & Ht & Hs)];
      rewrite Es; simpl of_option;
      destruct (is_flush cards) eqn:Efl; eexists; eexists;
      (split; [reflexivity |]); (split; [simpl; reflexivity |]); category_iffs.
Qed.

Lemma evaluate_5_poker_category_witness :
  let ranks := map rank pair_hand in
  exists s cat,
    evaluate_5 pair_hand = Ok s /\ category s = Some cat /\
    (cat = 9 <-> same_suit pair_hand /\ straight ranks) /\
    (cat = 8 <-> has_count 4 ranks) /\
    (cat = 7 <-> has_count 3 ranks /\ has_count 2 ranks) /\
    (cat = 6 <-> same_suit pair_hand /\ ~ straight ranks) /\
    (cat = 5 <-> straight ranks /\ ~ same_suit pair_hand) /\
    (cat = 4 <-> has_count 3 ranks /\ ~ has_count 2 ranks) /\
    (cat = 3 <-> two_pairs ranks) /\
    (cat = 2 <-> has_count 2 ranks /\ ~ has_count 3 ranks /\ ~ two_pairs ranks) /\
    (cat = 1 <-> NoDup ranks /\ ~ same_suit pair_hand /\ ~ straight ranks).
Proof.
  apply (evaluate_5_poker_category pair_hand).
  - reflexivity.
  - unfold pair_hand. distinct_cards.
Defined.

(** X6. The suits of the cards matter to [evaluate_5] only through the
    flush: two hands, of any size, with the same ranks up to order, both of
    one suit or both not, get the same result. *)
Theorem evaluate_5_suits_only_flush (h1 h2 : list Card) :
  Permutation (map rank h1) (map rank h2) -> is_flush h1 = is_flush h2 ->
  evaluate_5 h1 = evaluate_5 h2.
Proof.
  intros HR Hfl.
  pose proof (Counter_perm _ _ HR) as HC.
  unfold evaluate_5.
  change (length (nodup Suit_eq_dec (map suit h1)) =? 1)%nat with (is_flush h1).
  change (length (nodup Suit_eq_dec (map suit h2)) =? 1)%nat with (is_flush h2).
  rewrite Hfl.
  rewrite (is_straight_perm _ _ HR).
  rewrite (sorted_rev_perm _ _ (Permutation_map snd HC)).
  rewrite (sorted_pairs_rev_perm _ _
             (Permutation_map (fun rf => (snd rf, fst rf)) HC)).
  rewrite (sorted_rev_perm _ _ HR).
  rewrite (sorted_rev_perm _ _
             (Permutation_map fst (filter_perm (fun rf => snd rf =? 2) _ _ HC))).
  assert (HK : py_max (filter (fun r => counter_get (Counter (map rank h1)) r =? 1)
                         (map rank h1))
               = py_max (filter (fun r => counter_get (Counter (map rank h2)) r =? 1)
                           (map rank h2))).
  { rewrite (filter_ext _ (fun r => count r (map rank h2) =? 1)).
    2: { intros r. now rewrite Counter_get, (count_perm r _ _ HR). }
    rewrite (filter_ext (fun r => counter_get (Counter (map rank h2)) r =? 1)
               (fun r => count r (map rank h2) =? 1)).
    2: { intros r. now rewrite Counter_get. }
    apply py_max_perm, filter_perm, HR. }
  rewrite HK.
  destruct (is_straight (map rank h2)) as [st top].
  destruct (is_flush h2 && st); [reflexivity |].
  destruct (index (sorted_rev (map snd (Counter (map rank h2)))) 0)
    as [f0 | e]; simpl; [| reflexivity].
  destruct (index (sorted_pairs_rev
                     (map (fun rf => (snd rf, fst rf)) (Counter (map rank h2)))) 0)
    as [c0 | e]; simpl.
  - rewrite (py_max_perm _ _ (filter_perm (fun r => negb (r =? snd c0)) _ _ HR)).
    rewrite (sorted_rev_perm _ _ (filter_perm (fun r => negb (r =? snd c0)) _ _ HR)).
    reflexivity.
  - reflexivity.
Qed.

Lemma evaluate_5_suits_only_flush_witness :
  evaluate_5 pair_hand
  = evaluate_5 [card 2 Hearts; card 13 Spades; card 9 Clubs; card 4 Hearts;
                card 9 Diamonds].
Proof.
  apply (evaluate_5_suits_only_flush pair_hand
           [card 2 Hearts; card 13 Spades; card 9 Clubs; card 4 Hearts;
            card 9 Diamonds]).
  - unfold pair_hand. simpl. perm_count.
  - reflexivity.
Defined.

(** ** Which combination [best_hand] keeps *)

Lemma score_gt_irrefl (a : list pyval) : ~ score_gt a a.
Proof.
  unfold score_gt, tuple_gt. rewrite tuple_cmp_refl. simpl. discriminate.
Qed.

Lemma score_gt_ge_trans (a b d : list pyval) :
  score_gt a b -> score_ge b d -> score_gt a d.
Proof.
  intros Hab Hbd.
  assert (Had : score_ge a d)
    by (eapply score_ge_trans; [apply tuple_gt_true_ge, Hab | exact Hbd]).
  apply score_ge_cmp in Had. destruct Had as (r & Hr & Hne).
  unfold score_gt, tuple_gt. rewrite Hr. simpl.
  destruct r; try congruence; try reflexivity.
  exfalso. apply tuple_cmp_Eq in Hr. subst d.
  assert (a = b) by (apply score_ge_antisym; [apply tuple_gt_true_ge, Hab | exact Hbd]).
  subst b. exact (score_gt_irrefl a Hab).
Qed.

Lemma first_best_step (seen : list (list Card)) (st : best_state)
    (combo : list Card) :
  length combo = 5%nat -> first_best_inv seen st ->
  exists st', best_step st combo = Ok st' /\ first_best_inv (seen ++ [combo]) st'.
Proof.
  intros H5 Hinv. unfold best_step.
  destruct (evaluate_5_shape combo H5) as (val & Hval & Hshape).
  rewrite Hval. cbn [bind].
  destruct st as [[best |] [bc |]]; simpl in Hinv; try contradiction; cbn [fst].
  - destruct Hinv as (Hev & Hsh & pre & post & Hseen & Hpre & Hpost).
    destruct (score_shape_gt val best Hshape Hsh) as [g Hg]. rewrite Hg. cbn [bind].
    destruct g.
    + eexists. split; [reflexivity |]. simpl. repeat split; auto.
      exists seen, []. split; [reflexivity |]. split; [| intros c []].
      intros c Hc. subst seen. apply in_app_iff in Hc.
      destruct Hc as [Hc | [<- | Hc]].
      * destruct (Hpre c Hc) as (v & Hv & Hgt). exists v. split; [exact Hv |].
        eapply score_gt_ge_trans; [exact Hg | apply tuple_gt_true_ge, Hgt].
      * exists best. split; [exact Hev | exact Hg].
      * destruct (Hpost c Hc) as (v & Hv & Hge). exists v. split; [exact Hv |].
        eapply score_gt_ge_trans; [exact Hg | exact Hge].
    + eexists. split; [reflexivity |]. simpl. repeat split; auto.
      exists pre, (post ++ [combo]). split; [| split; [exact Hpre |]].
      * subst seen. now rewrite <- app_assoc.
      * intros c Hc. apply in_app_iff in Hc. destruct Hc as [Hc | [<- | []]].
        -- auto.
        -- exists val. split; [exact Hval | apply tuple_gt_false_ge, Hg].
  - subst seen. eexists. split; [reflexivity |]. simpl. repeat split; auto.
    exists [], []. split; [reflexivity |]. split; intros c [].
Qed.

Lemma first_best_loop (rest seen : list (list Card)) (st : best_state) :
  (forall c, In c rest -> length c = 5%nat) -> first_best_inv seen st ->
  exists st', best_loop rest st = Ok st' /\ first_best_inv (seen ++ rest) st'.
Proof.
  revert seen st. induction rest as [| combo rest IH]; intros seen st H5 Hinv; simpl.
  - exists st. rewrite app_nil_r. auto.
  - destruct (first_best_step seen st combo) as (st1 & Hst1 & Hinv1); auto.
    { apply H5. now left. }
    rewrite Hst1. cbn [bind].
    destruct (IH (seen ++ [combo]) st1) as (st' & Hst' & Hinv'); auto.
    { intros c0 Hc0. apply H5. now right. }
    exists st'. split; [exact Hst' |]. now rewrite <- app_assoc in Hinv'.
Qed.

(** X7. Among the combinations that reach the best score, [best_hand] keeps
    the first in the order of enumeration: every combination enumerated
    before the one returned scores strictly less, and none scores more. *)
Theorem best_hand_keeps_first (pool : list Card) :
  (5 <= length pool)%nat ->
  exists best combo pre post,
    best_hand pool = Ok (Some best, Some combo) /\
    combinations pool 5 = pre ++ combo :: post /\
    evaluate_5 combo = Ok best /\
    (forall c, In c pre -> exists v, evaluate_5 c = Ok v /\ score_gt best v) /\
    (forall c, In c post -> exists v, evaluate_5 c = Ok v /\ score_ge best v).
Proof.
  intros Hlen. unfold best_hand.
  destruct (first_best_loop (combinations pool 5) [] (None, None))
    as (st & Hst & Hinv).
  { intros c0 Hc0. now apply combinations_In in Hc0. }
  { reflexivity. }
  simpl in Hinv.
  destruct st as [[best |] [combo |]]; simpl in Hinv; try contradiction.
  - destruct Hinv as (Hev & _ & pre & post & Hseen & Hpre & Hpost).
    exists best, combo, pre, post. auto.
  - exfalso. eapply combinations_nonempty; eauto.
Qed.

Lemma best_hand_keeps_first_witness :
  exists best combo pre post,
    best_hand aces_full_pool = Ok (Some best, Some combo) /\
    combinations aces_full_pool 5 = pre ++ combo :: post /\
    evaluate_5 combo = Ok best /\
    (forall c, In c pre -> exists v, evaluate_5 c = Ok v /\ score_gt best v) /\
    (forall c, In c post -> exists v, evaluate_5 c = Ok v /\ score_ge best v).
Proof.
  apply (best_hand_keeps_first aces_full_pool). simpl. lia.
Defined.

(** The best score over a pool of distinct cards bounds the best score over
    any five or more of these cards. *)
Lemma best_hand_incl (pool pool' : list Card) (best best' : HandScore)
    (combo combo' : list Card) :
  (5 <= length pool)%nat -> NoDup pool -> incl pool pool' ->
  best_hand pool = Ok (Some best, Some combo) ->
  best_hand pool' = Ok (Some best', Some combo') ->
  score_ge best' best.
Proof.
  intros Hlen Hnd Hincl Hb Hb'.
  assert (Hlen' : (5 <= length pool')%nat).
  { pose proof (NoDup_incl_length Hnd Hincl). lia. }
  destruct (best_hand_spec pool Hlen) as (b & c & Eb & Hin & Hev & _ & _).
  rewrite Hb in Eb. inversion Eb; subst b c. clear Eb.
  destruct (best_hand_spec pool' Hlen') as (b' & c' & Eb' & _ & _ & _ & Hmax).
  rewrite Hb' in Eb'. inversion Eb'; subst b' c'. clear Eb'.
  apply combinations_In in Hin. destruct Hin as [Hsub H5].
  destruct (combinations_cover pool' combo) as (c2 & Hc2 & HP).
  { eapply subseq_NoDup; eauto. }
  { intros x Hx. apply Hincl. eapply subseq_incl; eauto. }
  rewrite H5 in Hc2. destruct (Hmax c2 Hc2) as (v & Hv & Hge).
  rewrite <- (evaluate_5_perm _ _ HP), Hev in Hv. inversion Hv; subst v. exact Hge.
Qed.

(** X8. For distinct cards, the best score depends only on which cards are
    in the pool: more cards never lower it, and the same cards in another
    order give the same score. *)
Theorem best_hand_score_of_the_cards (pool pool' : list Card) :
  (5 <= length pool)%nat -> NoDup pool -> incl pool pool' ->
  exists best combo best' combo',
    best_hand pool = Ok (Some best, Some combo) /\
    best_hand pool' = Ok (Some best', Some combo') /\
    score_ge best' best /\
    (NoDup pool' -> incl pool' pool -> best' = best).
Proof.
  intros Hlen Hnd Hincl.
  assert (Hlen' : (5 <= length pool')%nat).
  { pose proof (NoDup_incl_length Hnd Hincl). lia. }
  destruct (best_hand_spec pool Hlen) as (best & combo & Hb & _).
  destruct (best_hand_spec pool' Hlen') as (best' & combo' & Hb' & _).
  exists best, combo, best', combo'.
  split; [exact Hb |]. split; [exact Hb' |].
  pose proof (best_hand_incl _ _ _ _ _ _ Hlen Hnd Hincl Hb Hb') as Hge.
  split; [exact Hge |].
  intros Hnd' Hincl'. apply score_ge_antisym; [exact Hge |].
  eapply best_hand_incl; eauto.
Qed.

Lemma best_hand_score_of_the_cards_witness :
  exists best combo best' combo',
    best_hand royal_hand = Ok (Some best, Some combo) /\
    best_hand (card 2 Clubs :: rev royal_hand) = Ok (Some best', Some combo') /\
    score_ge best' best /\
    (NoDup (card 2 Clubs :: rev royal_hand) ->
     incl (card 2 Clubs :: rev royal_hand) royal_hand -> best' = best).
Proof.
  apply (best_hand_score_of_the_cards royal_hand (card 2 Clubs :: rev royal_hand)).
  - simpl. lia.
  - unfold royal_hand. distinct_cards.
  - intros c Hc. simpl in *. intuition.
Defined.

Lemma combinations_all {A : Type} (l : list A) : combinations l (length l) = [l].
Proof.
  induction l as [| x l IH]; simpl; [reflexivity |].
  rewrite IH, combinations_short by lia. reflexivity.
Qed.

(** X9. On exactly five cards [best_hand] returns these five cards, in their
    order, with their evaluation. *)
Theorem best_hand_of_five (cards : list Card) :
  length cards = 5%nat ->
  exists s, evaluate_5 cards = Ok s /\ best_hand cards = Ok (Some s, Some cards).
Proof.
  intros H5. destruct (evaluate_5_shape cards H5) as (s & Hs & _).
  exists s. split; [exact Hs |].
  unfold best_hand. rewrite <- H5, combinations_all. simpl.
  unfold best_step. rewrite Hs. reflexivity.
Qed.

Lemma best_hand_of_five_witness :
  exists s, evaluate_5 flush_hand = Ok s /\
            best_hand flush_hand = Ok (Some s, Some flush_hand).
Proof. apply (best_hand_of_five flush_hand). reflexivity. Defined.

(** ** The deck and the deal *)

Lemma range_In (a b x : Z) : In x (range a b) <-> a <= x < b.
Proof.
  unfold range. rewrite in_map_iff. split.
  - intros (i & <- & Hi). apply in_seq in Hi. lia.
  - intros Hx. exists (Z.to_nat (x - a)). split; [lia |]. apply in_seq. lia.
Qed.

Lemma new_cards_In (c : Card) : In c new_cards <-> 2 <= rank c <= 14.
Proof.
  unfold new_cards. rewrite in_flat_map. split.
  - intros (r & Hr & Hc). apply range_In in Hr. apply in_map_iff in Hc.
    destruct Hc as (s & <- & _). simpl. lia.
  - intros Hr. exists (rank c). split; [apply range_In; lia |].
    apply in_map_iff. exists (suit c). split; [now destruct c |].
    destruct (suit c); simpl; auto.
Qed.

Lemma card_code_inj (c c' : Card) : card_code c = card_code c' -> c = c'.
Proof.
  destruct c as [r s], c' as [r' s']. unfold card_code. cbn [rank suit].
  destruct s, s'; intros H; first [f_equal; lia | exfalso; lia].
Qed.

Lemma new_cards_NoDup : NoDup new_cards.
Proof.
  apply (NoDup_map_inv card_code).
  replace (map card_code new_cards) with (map (fun i => 8 + Z.of_nat i) (seq 0 52))
    by (vm_compute; reflexivity).
  apply NoDup_map_NoDup_ForallPairs; [| apply seq_NoDup].
  intros i j _ _ H. lia.
Qed.

Lemma pop_snoc (cards : list Card) (c : Card) : pop (cards ++ [c]) = (Ok c, cards).
Proof.
  unfold pop. rewrite rev_app_distr. simpl. now rewrite rev_involutive.
Qed.

Lemma deal_loop_spec (k : nat) (acc cards : list Card) :
  deal_loop k acc cards
  = if (k <=? length cards)%nat
    then (Ok (acc ++ firstn k (rev cards)), rev (skipn k (rev cards)))
    else (Raise IndexError, []).
Proof.
  revert acc cards. induction k as [| k IH]; intros acc cards; simpl deal_loop.
  - simpl. now rewrite app_nil_r, rev_involutive.
  - destruct cards as [| c0 cards0] using rev_ind.
    + reflexivity.
    + rewrite pop_snoc, IH, length_app, rev_app_distr. simpl.
      replace (length cards0 + 1)%nat with (S (length cards0)) by lia.
      change (S k <=? S (length cards0))%nat with (k <=? length cards0)%nat.
      destruct (k <=? length cards0)%nat; [| reflexivity].
      now rewrite <- app_assoc.
Qed.

(** X10. [Deck.deal(n)] on a deck of at least [n] cards returns its last [n]
    cards, the last one first, and leaves the others in place; on a shorter
    deck it raises IndexError and leaves the deck empty.  A negative [n]
    deals nothing. *)
Theorem deal_spec (n : Z) (cards : list Card) :
  deal n cards
  = if (Z.to_nat n <=? length cards)%nat
    then (Ok (firstn (Z.to_nat n) (rev cards)),
          rev (skipn (Z.to_nat n) (rev cards)))
    else (Raise IndexError, []).
Proof. unfold deal. now rewrite deal_loop_spec. Qed.

Lemma firstn_plus {A : Type} (a b : nat) (l : list A) :
  firstn (a + b) l = firstn a l ++ firstn b (skipn a l).
Proof.
  revert l. induction a as [| a IH]; intros [| x l]; simpl; auto.
  - now rewrite firstn_nil.
  - now rewrite IH.
Qed.

(** X11. Two deals in a row give the same cards, and leave the same deck,
    as one deal of the total number: [deal(a) + deal(b)] is [deal(a + b)],
    errors included. *)
Theorem deal_twice_is_one_deal (a b : Z) (cards : list Card) :
  0 <= a -> 0 <= b -> deal_twice a b cards = deal (a + b) cards.
Proof.
  intros Ha Hb. unfold deal_twice, deal. rewrite !deal_loop_spec.
  replace (Z.to_nat (a + b)) with (Z.to_nat a + Z.to_nat b)%nat by lia.
  set (ka := Z.to_nat a). set (kb := Z.to_nat b).
  destruct (Nat.leb_spec ka (length cards)) as [Hka | Hka].
  - rewrite deal_loop_spec, length_rev, length_skipn, length_rev, rev_involutive.
    simpl app.
    destruct (Nat.leb_spec kb (length cards - ka)) as [Hkb | Hkb].
    + destruct (Nat.leb_spec (ka + kb) (length cards)) as [_ | H]; [| lia].
      now rewrite skipn_skipn, (Nat.add_comm kb ka), firstn_plus.
    + destruct (Nat.leb_spec (ka + kb) (length cards)) as [H | _]; [lia |].
      reflexivity.
  - destruct (Nat.leb_spec (ka + kb) (length cards)) as [H | _]; [lia |].
    reflexivity.
Qed.

Lemma deal_twice_is_one_deal_witness :
  deal_twice 3 1 new_cards = deal (3 + 1) new_cards.
Proof. apply (deal_twice_is_one_deal 3 1 new_cards); lia. Defined.

(** X12. A deal loses and invents no card: the cards dealt followed by the
    cards left are, up to order, the deck before the deal.  In particular
    the cards dealt from a deck without duplicates are distinct, and differ
    from those left. *)
Theorem deal_conserves (n : Z) (cards hand rest : list Card) :
  deal n cards = (Ok hand, rest) ->
  length hand = Z.to_nat n /\ Permutation (hand ++ rest) cards /\
  (NoDup cards -> NoDup (hand ++ rest)).
Proof.
  unfold deal. rewrite deal_loop_spec. cbn [app]. intros H.
  destruct (Nat.leb_spec (Z.to_nat n) (length cards)) as [Hk | Hk];
    [| discriminate].
  inversion H; subst hand rest. clear H.
  assert (HP : Permutation
                 (firstn (Z.to_nat n) (rev cards)
                  ++ rev (skipn (Z.to_nat n) (rev cards))) cards).
  { transitivity (firstn (Z.to_nat n) (rev cards) ++ skipn (Z.to_nat n) (rev cards)).
    - apply Permutation_app_head. symmetry. apply Permutation_rev.
    - rewrite firstn_skipn. symmetry. apply Permutation_rev. }
  split; [| split].
  - rewrite length_firstn, length_rev. lia.
  - exact HP.
  - intros Hnd. eapply Permutation_NoDup; [symmetry; exact HP | exact Hnd].
Qed.

Lemma deal_conserves_witness :
  length [card 14 Clubs; card 14 Diamonds] = Z.to_nat 2 /\
  Permutation ([card 14 Clubs; card 14 Diamonds]
               ++ rev (skipn 2 (rev new_cards))) new_cards /\
  (NoDup new_cards ->
   NoDup ([card 14 Clubs; card 14 Diamonds] ++ rev (skipn 2 (rev new_cards)))).
Proof.
  apply (deal_conserves 2 new_cards). reflexivity.
Defined.

Lemma new_cards_length : length new_cards = 52%nat.
Proof. reflexivity. Qed.

Section Shuffle.
Variable shuffle : list Card -> list Card.
Hypothesis shuffle_perm : forall l, Permutation (shuffle l) l.

Lemma Deck_perm : Permutation (Deck shuffle) new_cards.
Proof. apply shuffle_perm. Qed.

(** X13. Whatever the shuffle, the new deck holds 52 cards, each once: a
    card is in it exactly when its rank is between 2 and 14. *)
Theorem Deck_cards :
  length (Deck shuffle) = 52%nat /\ NoDup (Deck shuffle) /\
  forall c, In c (Deck shuffle) <-> 2 <= rank c <= 14.
Proof.
  pose proof Deck_perm as HP.
  split; [| split].
  - rewrite (Permutation_length HP). reflexivity.
  - eapply Permutation_NoDup; [symmetry; exact HP | apply new_cards_NoDup].
  - intros c. rewrite <- new_cards_In. split; apply Permutation_in; auto.
    now symmetry.
Qed.
End Shuffle.

Lemma Deck_cards_witness :
  length (Deck (@rev Card)) = 52%nat /\ NoDup (Deck (@rev Card)) /\
  forall c, In c (Deck (@rev Card)) <-> 2 <= rank c <= 14.
Proof.
  apply (Deck_cards (@rev Card)). intros l. symmetry. apply Permutation_rev.
Defined.

(** ** The deal of [main] *)

Lemma str_int_inj (z z' : Z) : str_int z = str_int z' -> z = z'.
Proof.
  unfold str_int. intros H.
  assert (Hn : forall x, Z.to_int x <> Decimal.Pos Decimal.Nil
                         /\ Z.to_int x <> Decimal.Neg Decimal.Nil).
  { intros [| p | p]; simpl; split; try discriminate;
      intros E; inversion E as [E'];
      exact (DecimalPos.Unsigned.to_uint_nonnil p E'). }
  assert (E : Some (Z.to_int z) = Some (Z.to_int z')).
  { rewrite <- (NilZero.isi (Z.to_int z)) by apply Hn.
    rewrite <- (NilZero.isi (Z.to_int z')) by apply Hn.
    now rewrite H. }
  inversion E as [E']. apply (f_equal Z.of_int) in E'.
  now rewrite !DecimalZ.of_to in E'.
Qed.

Lemma player_name_inj (i j : Z) : player_name i = player_name j -> i = j.
Proof.
  unfold player_name. simpl. intros H. inversion H as [H'].
  apply str_int_inj in H'. lia.
Qed.

Lemma dict_set_fresh {V : Type} (d : list (string * V)) (k : string) (v : V) :
  ~ In k (map fst d) -> dict_set d k v = d ++ [(k, v)].
Proof.
  induction d as [| [k' v'] d IH]; simpl; intros Hn; [reflexivity |].
  destruct (String.eqb_spec k' k) as [-> | Hne]; [tauto |].
  rewrite IH by tauto. reflexivity.
Qed.

Lemma range_length (a b : Z) : length (range a b) = Z.to_nat (b - a).
Proof. unfold range. now rewrite length_map, length_seq. Qed.

Lemma range_NoDup (a b : Z) : NoDup (range a b).
Proof.
  unfold range. apply NoDup_map_NoDup_ForallPairs; [| apply seq_NoDup].
  intros i j _ _ H. lia.
Qed.

Lemma player_names_NoDup (idxs : list Z) :
  NoDup idxs -> NoDup (map player_name idxs).
Proof.
  intros H. apply NoDup_map_NoDup_ForallPairs; [| exact H].
  intros i j _ _. apply player_name_inj.
Qed.

Lemma holes_names (idxs : list Z) (rc : list Card) :
  map fst (holes idxs rc) = map player_name idxs.
Proof.
  revert rc. induction idxs as [| idx idxs IH]; intros rc; simpl; [reflexivity |].
  now rewrite IH.
Qed.

Lemma holes_cards (idxs : list Z) (rc : list Card) :
  (2 * length idxs <= length rc)%nat ->
  concat (map snd (holes idxs rc)) = firstn (2 * length idxs) rc /\
  Forall (fun p => length (snd p) = 2%nat) (holes idxs rc).
Proof.
  revert rc. induction idxs as [| idx idxs IH]; intros rc Hlen.
  - simpl. split; [reflexivity | constructor].
  - cbn [holes map snd concat length].
    destruct (IH (skipn 2 rc)) as [Hc Hf]; [rewrite length_skipn; simpl in *; lia |].
    split.
    + rewrite Hc.
      replace (2 * S (length idxs))%nat with (2 + 2 * length idxs)%nat by lia.
      now rewrite firstn_plus.
    + constructor; [| exact Hf]. cbn [snd]. rewrite length_firstn.
      simpl length in Hlen. lia.
Qed.

Lemma deal_players_spec (idxs : list Z) (acc : list (string * list Card))
    (cards : list Card) :
  NoDup (map player_name idxs) ->
  (forall idx, In idx idxs -> ~ In (player_name idx) (map fst acc)) ->
  (2 * length idxs <= length cards)%nat ->
  deal_players idxs acc cards
  = (Ok (acc ++ holes idxs (rev cards)),
     rev (skipn (2 * length idxs) (rev cards))).
Proof.
  revert acc cards. induction idxs as [| idx idxs IH]; intros acc cards Hnd Hfresh Hlen.
  - simpl. now rewrite app_nil_r, rev_involutive.
  - cbn [deal_players]. unfold deal. rewrite deal_loop_spec.
    change (Z.to_nat 2) with 2%nat.
    destruct (Nat.leb_spec 2 (length cards)) as [_ | H]; [| simpl in Hlen; lia].
    cbn [app]. inversion Hnd as [| ? ? Hnin Hnd']; subst.
    rewrite dict_set_fresh by (apply Hfresh; now left).
    rewrite IH.
    + rewrite rev_involutive, skipn_skipn, <- app_assoc. cbn [holes app].
      do 3 f_equal. simpl length. lia.
    + exact Hnd'.
    + intros j Hj. rewrite map_app, in_app_iff. simpl.
      intros [Hin | [Heq | []]].
      * exact (Hfresh j (or_intror Hj) Hin).
      * apply Hnin. rewrite Heq. now apply in_map.
    + rewrite length_rev, length_skipn, length_rev. simpl in Hlen. lia.
Qed.

Lemma deal_community_spec (cards : list Card) :
  (5 <= length cards)%nat ->
  deal_community cards = (Ok (firstn 5 (rev cards)), rev (skipn 5 (rev cards))).
Proof.
  intros Hlen. unfold deal_community, deal. rewrite deal_loop_spec.
  change (Z.to_nat 3) with 3%nat. change (Z.to_nat 1) with 1%nat.
  destruct (Nat.leb_spec 3 (length cards)) as [_ | H]; [| lia].
  rewrite deal_loop_spec, length_rev, length_skipn, length_rev, rev_involutive.
  destruct (Nat.leb_spec 1 (length cards - 3)) as [_ | H]; [| lia].
  rewrite deal_loop_spec, length_rev, length_skipn, length_skipn, length_rev,
    rev_involutive.
  destruct (Nat.leb_spec 1 (length cards - 3 - 1)) as [_ | H]; [| lia].
  cbn [app]. rewrite !skipn_skipn. f_equal. f_equal.
  change 5%nat with (3 + 1 + 1)%nat. now rewrite !firstn_plus, ?skipn_skipn.
Qed.

(** ** The evaluation and the winners of [main] *)

Lemma results_loop_spec (items : list (string * list Card)) (community : list Card)
    (acc : list (string * best_state)) :
  length community = 5%nat ->
  Forall (fun p => length (snd p) = 2%nat) items ->
  NoDup (map fst items) ->
  (forall item, In item items -> ~ In (fst item) (map fst acc)) ->
  exists rs,
    results_loop items community acc = Ok (acc ++ rs) /\
    Forall2 (fun item r =>
               fst r = fst item /\
               exists score combo,
                 snd r = (Some score, Some combo) /\
                 best_hand (snd item ++ community) = Ok (Some score, Some combo) /\
                 score_shape score) items rs.
Proof.
  intros H5. revert acc.
  induction items as [| [name hole] items IH]; intros acc H2 Hnd Hfresh.
  - exists []. simpl. rewrite app_nil_r. split; [reflexivity | constructor].
  - inversion H2 as [| ? ? Hh H2']; subst. simpl in Hh.
    inversion Hnd as [| ? ? Hnin Hnd']; subst.
    cbn [results_loop].
    destruct (best_hand_spec (hole ++ community))
      as (best & combo & Hb & _ & _ & Hsh & _).
    { rewrite length_app. lia. }
    rewrite Hb. cbn [bind].
    rewrite dict_set_fresh by (apply (Hfresh (name, hole)); now left).
    destruct (IH (acc ++ [(name, (Some best, Some combo))]) H2' Hnd')
      as (rs & Hrs & HF).
    { intros item Hitem. rewrite map_app, in_app_iff. simpl.
      intros [Hin | [Heq | []]].
      - exact (Hfresh item (or_intror Hitem) Hin).
      - apply Hnin. rewrite Heq. now apply in_map. }
    exists ((name, (Some best, Some combo)) :: rs). split.
    + rewrite <- app_assoc in Hrs. exact Hrs.
    + constructor; [| exact HF]. simpl. split; [reflexivity |].
      exists best, combo. auto.
Qed.

Lemma max_opt_loop_some (l : list HandScore) (m : HandScore) :
  max_opt_loop (map Some l) (Some m) = (x <- max_loop l m ;; Ok (Some x)).
Proof.
  revert m. induction l as [| y l IH]; intros m; simpl; [reflexivity |].
  destruct (tuple_gt y m) as [[|] | e]; simpl; auto.
Qed.

(** When no score is [None], the winners are those of [winners]. *)
Lemma main_winners_present (results : list (string * best_state)) :
  Forall (fun e => exists s c, snd e = (Some s, Some c)) results ->
  main_winners results = winners (present results).
Proof.
  intros HF.
  assert (Hs : map (fun e => fst (snd e)) results
               = map Some (map (fun e => fst (snd e)) (present results))).
  { induction HF as [| [p st] l (s & c & E) _ IH]; [reflexivity |].
    simpl in E. subst st. unfold present. simpl. f_equal. exact IH. }
  unfold main_winners, winners. rewrite Hs.
  destruct (map (fun e => fst (snd e)) (present results)) as [| m l] eqn:El.
  - reflexivity.
  - cbn [map max_opt max_score]. rewrite max_opt_loop_some.
    destruct (max_loop l m) as [best | e]; [| reflexivity].
    cbn [bind]. f_equal. clear Hs El.
    induction HF as [| [p st] rs (s & c & E) _ IH]; [reflexivity |].
    simpl in E. subst st. unfold present in *. cbn [flat_map filter snd fst app].
    cbn [score_opt_eqb].
    destruct (tuple_eqb s best); cbn [map fst]; now rewrite IH.
Qed.

Lemma winners_nonempty (results : results_t) :
  results <> [] ->
  Forall (fun e => score_shape (fst (snd e))) results ->
  exists ws, winners results = Ok ws /\ ws <> [] /\ incl ws (map fst results).
Proof.
  intros Hne Hsh.
  set (scores := map (fun e : string * (HandScore * list Card) => fst (snd e)) results).
  assert (Hsh' : Forall score_shape scores).
  { unfold scores. rewrite Forall_map. exact Hsh. }
  assert (Hne' : scores <> []).
  { unfold scores. destruct results; [congruence | discriminate]. }
  destruct (max_score_spec scores Hne' Hsh') as (best & Hbest & Hin & _).
  unfold winners. fold scores. rewrite Hbest. cbn [bind].
  eexists. split; [reflexivity |]. split.
  - unfold scores in Hin. apply in_map_iff in Hin. destruct Hin as (e & He & Hin).
    intros Hnil. apply map_eq_nil in Hnil.
    assert (Hf : In e (filter (fun e => tuple_eqb (fst (snd e)) best) results)).
    { apply filter_In. split; [exact Hin |]. apply tuple_eqb_eq. exact He. }
    rewrite Hnil in Hf. exact Hf.
  - intros p Hp. apply in_map_iff in Hp. destruct Hp as (e & <- & He).
    apply filter_In in He. apply in_map. tauto.
Qed.

(** ** The run of [main] *)

Lemma NoDup_firstn {A : Type} (k : nat) (l : list A) : NoDup l -> NoDup (firstn k l).
Proof.
  intros H. rewrite <- (firstn_skipn k l) in H. now apply NoDup_app_remove_r in H.
Qed.

Section Main.
Variable shuffle : list Card -> list Card.
Hypothesis shuffle_perm : forall l, Permutation (shuffle l) l.

(** What [main] computes, in terms of the shuffled deck read from its
    end. *)
Lemma main_spec (n : Z) :
  let idxs := range 0 (Z.max 2 (Z.min 9 n)) in
  let rc := rev (Deck shuffle) in
  let players := holes idxs rc in
  let community := firstn 5 (skipn (2 * length idxs) rc) in
  exists results ws,
    main shuffle n = Ok (players, community, results, ws) /\
    (2 <= length idxs <= 9)%nat /\
    length community = 5%nat /\
    Forall2 (fun item r =>
               fst r = fst item /\
               exists score combo,
                 snd r = (Some score, Some combo) /\
                 best_hand (snd item ++ community) = Ok (Some score, Some combo) /\
                 score_shape score) players results /\
    winners (present results) = Ok ws /\ ws <> [] /\
    incl ws (map fst (present results)).
Proof.
  intros idxs rc players community.
  pose proof (Deck_perm shuffle shuffle_perm) as HP.
  assert (Hdeck : length (Deck shuffle) = 52%nat)
    by (rewrite (Permutation_length HP); reflexivity).
  assert (Hrc : length rc = 52%nat) by (unfold rc; now rewrite length_rev).
  assert (Hk : (2 <= length idxs <= 9)%nat).
  { unfold idxs. rewrite range_length. lia. }
  assert (Hnames : NoDup (map player_name idxs))
    by (apply player_names_NoDup, range_NoDup).
  assert (Hcom : length community = 5%nat).
  { unfold community. rewrite length_firstn, length_skipn. lia. }
  destruct (holes_cards idxs rc) as [Hconcat Hholes]; [lia |].
  unfold main. fold idxs.
  rewrite deal_players_spec; [| exact Hnames | intros ? _ [] | lia].
  fold rc. cbn [app]. fold players.
  rewrite deal_community_spec
    by (rewrite length_rev, length_skipn; lia).
  rewrite rev_involutive. fold community.
  destruct (results_loop_spec players community []) as (results & Hres & HF);
    [exact Hcom | exact Hholes | | intros ? _ [] |].
  { unfold players. now rewrite holes_names. }
  cbn [app] in Hres. rewrite Hres. cbn [bind].
  assert (Hsome : Forall (fun e => exists s c, snd e = (Some s, Some c)) results).
  { clear - HF. induction HF as [| item r items rs (_ & s & c & E & _) _ IH];
      constructor; eauto. }
  assert (Hshape : Forall (fun e => score_shape (fst (snd e))) (present results)).
  { clear - HF. induction HF as [| item [p st] items rs (_ & s & c & E & _ & Hs) _ IH];
      [constructor |].
    simpl in E. subst st. unfold present. simpl. constructor; [exact Hs | exact IH]. }
  assert (Hne : present results <> []).
  { assert (Hp : players <> []).
    { unfold players. destruct idxs; [simpl in Hk; lia | discriminate]. }
    inversion HF as [| item [p st] items rs (_ & s & c & E & _) _ E1 E2];
      [congruence |].
    simpl in E. subst st. unfold present. simpl. discriminate. }
  destruct (winners_nonempty (present results) Hne Hshape) as (ws & Hws & Hwne & Hwin).
  rewrite (main_winners_present results Hsome), Hws. cbn [bind].
  exists results, ws. repeat split; auto; lia.
Qed.

Lemma present_names (players : list (string * list Card))
    (community : list Card) (results : list (string * best_state)) :
  Forall2 (fun item r =>
             fst r = fst item /\
             exists score combo,
               snd r = (Some score, Some combo) /\
               best_hand (snd item ++ community) = Ok (Some score, Some combo) /\
               score_shape score) players results ->
  map fst results = map fst players /\ map fst (present results) = map fst players.
Proof.
  induction 1 as [| item [p st] items rs (Hn & s & c & E & _) _ [IH1 IH2]];
    [split; reflexivity |].
  simpl in Hn, E. subst p st. unfold present in *. simpl. split; now f_equal.
Qed.

(** X14. Whatever number of players is asked for, and whatever the shuffle,
    the deal of [main] succeeds: between two and nine players, named P1,
    P2, ... in order, get two cards each, five community cards follow; the
    cards are taken from the end of the shuffled deck in this order, and
    are distinct cards of the deck. *)
Theorem main_deal_is_sound (n : Z) :
  exists players community results ws,
    main shuffle n = Ok (players, community, results, ws) /\
    Z.of_nat (length players) = Z.max 2 (Z.min 9 n) /\
    map fst players = map player_name (range 0 (Z.max 2 (Z.min 9 n))) /\
    NoDup (map fst players) /\
    Forall (fun p => length (snd p) = 2%nat) players /\
    length community = 5%nat /\
    concat (map snd players) ++ community
    = firstn (2 * length players + 5) (rev (Deck shuffle)) /\
    NoDup (concat (map snd players) ++ community) /\
    incl (concat (map snd players) ++ community) (Deck shuffle).
Proof.
  destruct (main_spec n) as (results & ws & Hmain & Hk & Hcom & _).
  set (idxs := range 0 (Z.max 2 (Z.min 9 n))) in *.
  set (rc := rev (Deck shuffle)) in *.
  pose proof (Deck_perm shuffle shuffle_perm) as HP.
  assert (Hrc : length rc = 52%nat).
  { unfold rc. rewrite length_rev, (Permutation_length HP). reflexivity. }
  assert (Hnd : NoDup rc).
  { unfold rc. apply NoDup_rev.
    eapply Permutation_NoDup; [symmetry; exact HP | apply new_cards_NoDup]. }
  destruct (holes_cards idxs rc) as [Hconcat Hholes]; [lia |].
  assert (Hall : concat (map snd (holes idxs rc))
                 ++ firstn 5 (skipn (2 * length idxs) rc)
                 = firstn (2 * length idxs + 5) rc).
  { now rewrite Hconcat, firstn_plus. }
  assert (E : length (holes idxs rc) = length idxs).
  { rewrite <- (length_map fst), holes_names. apply length_map. }
  eexists _, _, results, ws. split; [exact Hmain |].
  split; [| split; [| split; [| split; [| split; [| split; [| split]]]]]].
  - rewrite E. unfold idxs. rewrite range_length. lia.
  - apply holes_names.
  - rewrite holes_names. apply player_names_NoDup, range_NoDup.
  - exact Hholes.
  - exact Hcom.
  - rewrite E. exact Hall.
  - rewrite Hall. now apply NoDup_firstn.
  - rewrite Hall. intros c Hc.
    apply (In_rev (Deck shuffle)). fold rc.
    rewrite <- (firstn_skipn (2 * length idxs + 5) rc). apply in_app_iff. now left.
Qed.

(** X15. Whatever number of players is asked for, and whatever the shuffle,
    [main] computes its winners without raising: every player gets the best
    hand of his two cards and the five community cards, and there is at
    least one winner, who is one of the players. *)
Theorem main_never_raises (n : Z) :
  exists players community results ws,
    main shuffle n = Ok (players, community, results, ws) /\
    Forall2 (fun item r =>
               fst r = fst item /\
               exists score combo,
                 snd r = (Some score, Some combo) /\
                 best_hand (snd item ++ community) = Ok (Some score, Some combo))
            players results /\
    winners (present results) = Ok ws /\
    ws <> [] /\ incl ws (map fst players).
Proof.
  destruct (main_spec n) as (results & ws & Hmain & _ & _ & HF & Hws & Hne & Hin).
  eexists _, _, results, ws. split; [exact Hmain |].
  split; [| split; [exact Hws | split; [exact Hne |]]].
  - eapply Forall2_impl; [| exact HF]. cbv beta.
    intros item r (Hn & s & c & E & Hb & _). split; [exact Hn |]. eauto.
  - destruct (present_names _ _ _ HF) as [_ E]. now rewrite <- E.
Qed.
End Main.

Lemma main_deal_is_sound_witness :
  exists players community results ws,
    main (@rev Card) 4 = Ok (players, community, results, ws) /\
    Z.of_nat (length players) = Z.max 2 (Z.min 9 4) /\
    map fst players = map player_name (range 0 (Z.max 2 (Z.min 9 4))) /\
    NoDup (map fst players) /\
    Forall (fun p => length (snd p) = 2%nat) players /\
    length community = 5%nat /\
    concat (map snd players) ++ community
    = firstn (2 * length players + 5) (rev (Deck (@rev Card))) /\
    NoDup (concat (map snd players) ++ community) /\
    incl (concat (map snd players) ++ community) (Deck (@rev Card)).
Proof.
  apply (main_deal_is_sound (@rev Card)). intros l. symmetry. apply Permutation_rev.
Defined.

Lemma main_never_raises_witness :
  exists players community results ws,
    main (@rev Card) 4 = Ok (players, community, results, ws) /\
    Forall2 (fun item r =>
               fst r = fst item /\
               exists score combo,
                 snd r = (Some score, Some combo) /\
                 best_hand (snd item ++ community) = Ok (Some score, Some combo))
            players results /\
    winners (present results) = Ok ws /\
    ws <> [] /\ incl ws (map fst players).
Proof.
  apply (main_never_raises (@rev Card)). intros l. symmetry. apply Permutation_rev.
Defined.

(** ** Display *)

Lemma RANK_TO_STR_get (r : Z) :
  2 <= r <= 14 ->
  exists s, dict_get RANK_TO_STR r = Some s /\ String.length s = 1%nat.
Proof.
  intros Hr.
  assert (Hc : r = 2 \/ r = 3 \/ r = 4 \/ r = 5 \/ r = 6 \/ r = 7 \/ r = 8 \/ r = 9 \/
               r = 10 \/ r = 11 \/ r = 12 \/ r = 13 \/ r = 14) by lia.
  repeat destruct Hc as [-> | Hc]; try subst r; simpl; eauto.
Qed.

Lemma RANK_TO_STR_keys (r : Z) (s : string) :
  dict_get RANK_TO_STR r = Some s -> 2 <= r <= 14.
Proof.
  unfold RANK_TO_STR. cbn [dict_get].
  repeat match goal with
         | |- context [?k =? r] => destruct (Z.eqb_spec k r); [lia |]
         end.
  discriminate.
Qed.

Lemma RANK_TO_STR_inj (r r' : Z) (s : string) :
  dict_get RANK_TO_STR r = Some s -> dict_get RANK_TO_STR r' = Some s -> r = r'.
Proof.
  intros H H'.
  pose proof (RANK_TO_STR_keys _ _ H) as Hr.
  pose proof (RANK_TO_STR_keys _ _ H') as Hr'.
  assert (Hc : r = 2 \/ r = 3 \/ r = 4 \/ r = 5 \/ r = 6 \/ r = 7 \/ r = 8 \/ r = 9 \/
               r = 10 \/ r = 11 \/ r = 12 \/ r = 13 \/ r = 14) by lia.
  assert (Hc' : r' = 2 \/ r' = 3 \/ r' = 4 \/ r' = 5 \/ r' = 6 \/ r' = 7 \/ r' = 8 \/
                r' = 9 \/ r' = 10 \/ r' = 11 \/ r' = 12 \/ r' = 13 \/ r' = 14) by lia.
  clear Hr Hr'.
  repeat destruct Hc as [-> | Hc]; try subst r; simpl in H; inversion H; subst s;
    repeat destruct Hc' as [-> | Hc']; try subst r'; simpl in H';
    first [reflexivity | discriminate].
Qed.

Lemma string_app_inj (s1 s2 t1 t2 : string) :
  String.length s1 = String.length s2 ->
  (s1 ++ t1 = s2 ++ t2)%string -> s1 = s2 /\ t1 = t2.
Proof.
  revert s2. induction s1 as [| a s1 IH]; intros [| b s2]; simpl;
    try discriminate; auto.
  intros Hl H. inversion H; subst. inversion Hl as [Hl'].
  destruct (IH s2 Hl' H2) as [-> ->]. auto.
Qed.

Lemma string_app_length (s t : string) :
  String.length (s ++ t) = (String.length s + String.length t)%nat.
Proof. induction s as [| a s IH]; simpl; auto. Qed.

Lemma suit_str_inj (s s' : Suit) : suit_str s = suit_str s' -> s = s'.
Proof. destruct s, s'; simpl; intros H; first [reflexivity | discriminate]. Qed.

Lemma Card_repr_length (c : Card) (s : string) :
  Card_repr c = Some s -> String.length s = 4%nat.
Proof.
  unfold Card_repr. destruct (dict_get RANK_TO_STR (rank c)) as [r |] eqn:E;
    [| discriminate].
  intros H. inversion H; subst s.
  destruct (RANK_TO_STR_get (rank c) (RANK_TO_STR_keys _ _ E)) as (r' & E' & Hl).
  rewrite E in E'. inversion E'; subst r'.
  rewrite string_app_length, Hl. now destruct (suit c).
Qed.

Lemma Card_repr_inj (c c' : Card) (s : string) :
  Card_repr c = Some s -> Card_repr c' = Some s -> c = c'.
Proof.
  unfold Card_repr.
  destruct (dict_get RANK_TO_STR (rank c)) as [r |] eqn:E; [| discriminate].
  destruct (dict_get RANK_TO_STR (rank c')) as [r' |] eqn:E'; [| discriminate].
  intros H H'. inversion H; subst s. inversion H' as [H2].
  destruct (RANK_TO_STR_get _ (RANK_TO_STR_keys _ _ E)) as (x & Ex & Hl).
  destruct (RANK_TO_STR_get _ (RANK_TO_STR_keys _ _ E')) as (x' & Ex' & Hl').
  rewrite E in Ex. rewrite E' in Ex'. inversion Ex; inversion Ex'; subst x x'.
  apply string_app_inj in H2; [| congruence]. destruct H2 as [-> Hs].
  apply suit_str_inj in Hs.
  pose proof (RANK_TO_STR_inj _ _ _ E E') as Hr.
  destruct c, c'; simpl in *. congruence.
Qed.

(** X16. [repr] of a card raises KeyError exactly when the rank of the card
    is outside 2..14, and two cards with the same [repr] are the same
    card. *)
Theorem Card_repr_faithful (c c' : Card) :
  (Card_repr c <> None <-> 2 <= rank c <= 14) /\
  (Card_repr c <> None -> Card_repr c = Card_repr c' -> c = c').
Proof.
  split.
  - unfold Card_repr. split.
    + destruct (dict_get RANK_TO_STR (rank c)) as [r |] eqn:E; [| congruence].
      intros _. eapply RANK_TO_STR_keys, E.
    + intros Hr. destruct (RANK_TO_STR_get _ Hr) as (s & -> & _). discriminate.
  - intros Hne Heq. destruct (Card_repr c) as [s |] eqn:E; [| congruence].
    eapply Card_repr_inj; eauto.
Qed.

Lemma map_str_some (cards : list Card) :
  (forall c, In c cards -> 2 <= rank c <= 14) ->
  exists l, map_str cards = Some l.
Proof.
  induction cards as [| c cards IH]; intros H; simpl; [eauto |].
  destruct (RANK_TO_STR_get (rank c)) as (r & Er & _); [apply H; now left |].
  unfold Card_repr. rewrite Er.
  destruct IH as (l & ->); [intros; apply H; now right |]. eauto.
Qed.

Lemma map_str_Forall2 (cards : list Card) (l : list string) :
  map_str cards = Some l -> Forall2 (fun c s => Card_repr c = Some s) cards l.
Proof.
  revert l. induction cards as [| c cards IH]; intros l; simpl.
  - intros H. inversion H. constructor.
  - destruct (Card_repr c) as [s |] eqn:E; [| discriminate].
    destruct (map_str cards) as [l' |]; [| discriminate].
    intros H. inversion H; subst. constructor; auto.
Qed.

Lemma concat_length (l : list string) :
  Forall (fun s => String.length s = 4%nat) l ->
  String.length (String.concat " " l) = (5 * length l - 1)%nat.
Proof.
  induction 1 as [| s l Hs Hl IH]; [reflexivity |].
  destruct l as [| s' l'].
  - simpl. lia.
  - change (String.concat " " (s :: s' :: l'))
      with (s ++ " " ++ String.concat " " (s' :: l'))%string.
    rewrite !string_app_length, IH, Hs. simpl. lia.
Qed.

Lemma concat_inj (l l' : list string) :
  Forall (fun s => String.length s = 4%nat) l ->
  Forall (fun s => String.length s = 4%nat) l' ->
  String.concat " " l = String.concat " " l' -> l = l'.
Proof.
  intros H. revert l'. induction H as [| s l Hs Hl IH]; intros l' H' E.
  - destruct H' as [| s' l' Hs' Hl']; [reflexivity |].
    apply (f_equal String.length) in E.
    rewrite (concat_length (s' :: l')) in E by now constructor.
    simpl in E. lia.
  - destruct H' as [| s' l' Hs' Hl'].
    { apply (f_equal String.length) in E.
      rewrite (concat_length (s :: l)) in E by now constructor.
      simpl in E. lia. }
    assert (EL : length l = length l').
    { apply (f_equal String.length) in E.
      rewrite (concat_length (s :: l)), (concat_length (s' :: l')) in E
        by now constructor.
      simpl length in E. lia. }
    destruct l as [| x l], l' as [| x' l']; try discriminate.
    + simpl in E. now subst.
    + change ((s ++ " " ++ String.concat " " (x :: l))
              = (s' ++ " " ++ String.concat " " (x' :: l')))%string in E.
      apply string_app_inj in E; [| congruence]. destruct E as [-> E].
      inversion E as [E']. f_equal. apply IH; assumption.
Qed.

(** X17. [show_cards] succeeds on cards of ranks 2..14, and the text it
    gives determines the cards and their order. *)
Theorem show_cards_faithful (cards cards' : list Card) :
  (forall c, In c cards -> 2 <= rank c <= 14) ->
  exists text, show_cards cards = Some text /\
               (show_cards cards' = Some text -> cards' = cards).
Proof.
  intros Hr. unfold show_cards.
  destruct (map_str_some cards Hr) as (l & El). rewrite El.
  eexists. split; [reflexivity |].
  destruct (map_str cards') as [l' |] eqn:El'; [| discriminate].
  intros E. inversion E as [E'].
  apply map_str_Forall2 in El, El'.
  assert (H4 : forall cs ls, Forall2 (fun c s => Card_repr c = Some s) cs ls ->
                             Forall (fun s => String.length s = 4%nat) ls).
  { induction 1; constructor; eauto using Card_repr_length. }
  apply concat_inj in E'; eauto. subst l'.
  clear - El El'. revert cards' El'.
  induction El as [| c s cs ls Hc _ IH]; intros cards' El'; inversion El'; subst.
  - reflexivity.
  - f_equal; [eapply Card_repr_inj; eauto | now apply IH].
Qed.

Lemma show_cards_faithful_witness :
  exists text, show_cards royal_hand = Some text /\
               (show_cards flush_hand = Some text -> flush_hand = royal_hand).
Proof.
  apply (show_cards_faithful royal_hand flush_hand).
  intros c Hc. unfold royal_hand in Hc. simpl in Hc.
  intuition (subst; simpl; lia).
Defined.

(** X18. The category of a score of five cards is a key of [HAND_NAMES],
    so the name printed for the best hand of a pool of at least five cards
    is found. *)
Theorem hand_name_found (pool : list Card) :
  (5 <= length pool)%nat ->
  exists score combo name,
    best_hand pool = Ok (Some score, Some combo) /\
    hand_name (Some score) = Some name.
Proof.
  intros Hlen.
  destruct (best_hand_spec pool Hlen) as (best & combo & Hb & _ & _ & Hsh & _).
  exists best, combo.
  destruct Hsh; simpl; eauto.
Qed.

Lemma hand_name_found_witness :
  exists score combo name,
    best_hand aces_full_pool = Ok (Some score, Some combo) /\
    hand_name (Some score) = Some name.
Proof. apply (hand_name_found aces_full_pool). simpl. lia. Defined.

(** ** The display of [main] *)

Lemma holes_incl (idxs : list Z) (rc : list Card) :
  Forall (fun p => incl (snd p) rc) (holes idxs rc).
Proof.
  revert rc. induction idxs as [| idx idxs IH]; intros rc; simpl; constructor.
  - simpl. intros c Hc. rewrite <- (firstn_skipn 2 rc). apply in_app_iff. now left.
  - eapply Forall_impl; [| apply IH]. cbv beta. intros p Hp c Hc.
    rewrite <- (firstn_skipn 2 rc). apply in_app_iff. right. now apply Hp.
Qed.

Section MainDisplay.
Variable shuffle : list Card -> list Card.
Hypothesis shuffle_perm : forall l, Permutation (shuffle l) l.

(** X19. No lookup made by the printing of [main] fails: the hole cards of
    every player, the community cards and the five cards of every best
    hand are shown, and the category of every best hand has a name. *)
Theorem main_display_never_raises (n : Z) :
  exists players community results ws,
    main shuffle n = Ok (players, community, results, ws) /\
    Forall (fun p => exists text, show_cards (snd p) = Some text) players /\
    (exists text, show_cards community = Some text) /\
    Forall (fun r => exists score combo name text,
                       snd r = (Some score, Some combo) /\
                       hand_name (Some score) = Some name /\
                       show_cards combo = Some text) results.
Proof.
  destruct (main_spec shuffle shuffle_perm n)
    as (results & ws & Hmain & Hk & Hcom & HF & _).
  set (idxs := range 0 (Z.max 2 (Z.min 9 n))) in *.
  set (rc := rev (Deck shuffle)) in *.
  set (community := firstn 5 (skipn (2 * length idxs) rc)) in *.
  assert (Hrank : forall c, In c rc -> 2 <= rank c <= 14).
  { intros c Hc. apply new_cards_In.
    apply (Permutation_in _ (Deck_perm shuffle shuffle_perm)).
    now apply In_rev. }
  assert (Hshow : forall cards, incl cards rc ->
                                exists text, show_cards cards = Some text).
  { intros cards Hi. unfold show_cards.
    destruct (map_str_some cards) as (l & ->); [| eauto].
    intros c Hc. apply Hrank, Hi, Hc. }
  assert (Hci : incl community rc).
  { intros c Hc. unfold community in Hc.
    rewrite <- (firstn_skipn (2 * length idxs) rc). apply in_app_iff. right.
    rewrite <- (firstn_skipn 5 (skipn (2 * length idxs) rc)).
    apply in_app_iff. now left. }
  pose proof (holes_incl idxs rc) as Hhi.
  eexists _, _, results, ws. split; [exact Hmain |]. split; [| split].
  - eapply Forall_impl; [| exact Hhi]. cbv beta. intros p Hp. now apply Hshow.
  - now apply Hshow.
  - clear Hmain. revert HF Hhi. generalize (holes idxs rc). intros players HF' Hhi.
    induction HF' as [| item r items rs (_ & s & c & E & Hb & Hsh) _ IH];
      [constructor |].
    inversion Hhi as [| ? ? Hi Hhi']; subst.
    constructor; [| now apply IH].
    exists s, c.
    assert (Hname : exists name, hand_name (Some s) = Some name)
      by (destruct Hsh; simpl; eauto).
    destruct Hname as (name & Hname).
    destruct (best_hand_spec (snd item ++ community))
      as (b' & c' & Hb' & Hin & _).
    { rewrite length_app. lia. }
    rewrite Hb in Hb'. inversion Hb'; subst b' c'.
    apply combinations_In in Hin. destruct Hin as [Hsub _].
    destruct (Hshow c) as (text & Htext).
    { intros x Hx. apply (subseq_incl _ _ Hsub) in Hx. apply in_app_iff in Hx.
      destruct Hx as [Hx | Hx]; [now apply Hi | now apply Hci]. }
    exists name, text. auto.
Qed.
End MainDisplay.

Lemma main_display_never_raises_witness :
  exists players community results ws,
    main (@rev Card) 4 = Ok (players, community, results, ws) /\
    Forall (fun p => exists text, show_cards (snd p) = Some text) players /\
    (exists text, show_cards community = Some text) /\
    Forall (fun r => exists score combo name text,
                       snd r = (Some score, Some combo) /\
                       hand_name (Some score) = Some name /\
                       show_cards combo = Some text) results.
Proof.
  apply (main_display_never_raises (@rev Card)). intros l. symmetry.
  apply Permutation_rev.
Defined.
